(** * Krux signing core: key derivation defaults, final-word search and
      PSBT policy validation

    A shallow embedding of [src/krux/key.py] and [src/krux/psbt.py].

    Conventions of the embedding.
    - Python [int] is [Z]; [bytes] is [list byte]; [str] is [string]
      (a [str] is identified with its UTF-8 bytes, so [str.encode()] and
      [bytes.decode()] are the two conversions of the standard library).
    - A Python exception is a constructor of [exn]; a computation that may
      raise returns a [result].  A local variable that may be unbound is an
      [option] whose [None] raises [UnboundLocalError] when it is read.
    - A [dict] is an association list in insertion order, because the code
      iterates over dictionaries and stops at the first match.
    - Objects of the libraries the code imports (embit, urtypes, baseconv,
      the translation table, ...) are not part of the sources: their
      operations are the fields of the class [Collaborators].  Keys of
      embit ([HDKey], [PublicKey]) are identified with their serialisation.
      A library call whose failure the sources handle ([PSBT.parse],
      [base_decode], [from_cbor], [parse_multisig]) returns an [option], and
      so does [derive] on an extended public key, which the sources call on
      indexes read from the PSBT and whose failure they let through; the
      other primitives are total functions. *)

From Stdlib Require Import ZArith List String Ascii Strings.Byte Bool Lia Decimal DecimalString.
From Stdlib Require Import Permutation Sorted.
Import ListNotations.

#[local] Open Scope string_scope.
#[local] Open Scope list_scope.
#[local] Open Scope Z_scope.

(** String concatenation, written as Python's [+] on [str]. *)
Infix "+s+" := String.append (at level 60, right associativity).

(** ** Python exceptions and the result monad *)

Inductive exn : Type :=
| ValueError (msg : string)
| TypeError (msg : string)
| KeyError (key : string)
| IndexError (msg : string)
| OverflowError (msg : string)
| AttributeError (msg : string)
| UnboundLocalError (name : string).

Inductive result (A : Type) : Type :=
| Ok (a : A)
| Raise (e : exn).

Arguments Ok {A} a.
Arguments Raise {A} e.

Definition bind {A B : Type} (r : result A) (k : A -> result B) : result B :=
  match r with
  | Ok a => k a
  | Raise e => Raise e
  end.

Notation "x <- r ;; k" := (bind r (fun x => k))
  (at level 61, r at next level, right associativity).
Notation "' p <- r ;; k" := (bind r (fun x => let p := x in k))
  (at level 61, p pattern, r at next level, right associativity).

Definition is_ok {A : Type} (r : result A) : bool :=
  match r with Ok _ => true | Raise _ => false end.

(** [for x in l: acc = body(acc, x)], stopping at the first exception. *)
Fixpoint for_each {A S : Type} (body : S -> A -> result S) (l : list A) (s : S)
  : result S :=
  match l with
  | [] => Ok s
  | x :: l' => s' <- body s x ;; for_each body l' s'
  end.

(** A list comprehension [[f x for x in l]] whose [f] may raise. *)
Fixpoint map_result {A B : Type} (f : A -> result B) (l : list A) : result (list B) :=
  match l with
  | [] => Ok []
  | x :: l' => y <- f x ;; ys <- map_result f l' ;; Ok (y :: ys)
  end.

(** ** Python builtins used by the sources *)

Definition bytes := list byte.

(** [==] on lists and on values that may be [None]. *)
Fixpoint list_eqb {A : Type} (eqb : A -> A -> bool) (a b : list A) : bool :=
  match a, b with
  | [], [] => true
  | x :: a', y :: b' => eqb x y && list_eqb eqb a' b'
  | _, _ => false
  end.

Definition option_eqb {A : Type} (eqb : A -> A -> bool) (a b : option A) : bool :=
  match a, b with
  | Some x, Some y => eqb x y
  | None, None => true
  | _, _ => false
  end.

Definition bytes_eqb (a b : bytes) : bool := list_eqb Byte.eqb a b.

Definition byte_val (b : byte) : Z := Z.of_N (Byte.to_N b).

Definition byte_of (z : Z) : byte :=
  match Byte.of_N (Z.to_N (z mod 256)) with Some b => b | None => x00 end.

Definition list_Z_eqb (a b : list Z) : bool := list_eqb Z.eqb a b.

(** [len(l)] *)
Definition len {A : Type} (l : list A) : Z := Z.of_nat (List.length l).

(** [range(n)] *)
Definition range (n : Z) : list Z := map Z.of_nat (seq 0 (Z.to_nat n)).

(** [enumerate(l)] *)
Definition enumerate {A : Type} (l : list A) : list (Z * A) :=
  combine (range (len l)) l.

(** [l[i]]: a negative [i] counts from the end. *)
Definition list_index {A : Type} (l : list A) (i : Z) : result A :=
  let j := if i <? 0 then len l + i else i in
  if j <? 0 then Raise (IndexError "list index out of range")
  else
    match nth_error l (Z.to_nat j) with
    | Some x => Ok x
    | None => Raise (IndexError "list index out of range")
    end.

(** [l[:-2]] and [l[-2:]] *)
Definition slice_to_minus2 {A : Type} (l : list A) : list A :=
  firstn (List.length l - 2) l.
Definition slice_from_minus2 {A : Type} (l : list A) : list A :=
  skipn (List.length l - 2) l.

(** [needle in hay] on strings *)
Fixpoint str_contains (needle hay : string) : bool :=
  String.prefix needle hay
  || match hay with
     | EmptyString => false
     | String _ hay' => str_contains needle hay'
     end.

(** [s.replace(old, new)] for a non-empty [old]: scan from the left, and
    after a match skip the rest of the matched occurrence. *)
Fixpoint str_replace_aux (old new : string) (skip : nat) (s : string) : string :=
  match s with
  | EmptyString => EmptyString
  | String c s' =>
      match skip with
      | S k => str_replace_aux old new k s'
      | O =>
          if String.prefix old s
          then new +s+ str_replace_aux old new (String.length old - 1) s'
          else String c (str_replace_aux old new O s')
      end
  end.

Definition str_replace (old new s : string) : string := str_replace_aux old new 0 s.

(** [str(n)] of an [int], also what [%d] prints. *)
Definition str_of_int (z : Z) : string := NilZero.string_of_int (Z.to_int z).

(** The [%] operator on a format string, for the conversions the sources
    use ([%d], [%s]) and [%%]. *)
Inductive fmt_arg : Type :=
| ArgInt (z : Z)
| ArgStr (s : string).

Fixpoint pct_format (fmt : string) (args : list fmt_arg) : result string :=
  match fmt with
  | EmptyString =>
      match args with
      | [] => Ok EmptyString
      | _ :: _ => Raise (TypeError "not all arguments converted during string formatting")
      end
  | String "%" rest =>
      match rest with
      | String "d" rest' =>
          match args with
          | ArgInt z :: args' => r <- pct_format rest' args' ;; Ok (str_of_int z +s+ r)
          | ArgStr _ :: _ => Raise (TypeError "%d format: a number is required, not str")
          | [] => Raise (TypeError "not enough arguments for format string")
          end
      | String "s" rest' =>
          match args with
          | ArgInt z :: args' => r <- pct_format rest' args' ;; Ok (str_of_int z +s+ r)
          | ArgStr s :: args' => r <- pct_format rest' args' ;; Ok (s +s+ r)
          | [] => Raise (TypeError "not enough arguments for format string")
          end
      | String "%" rest' => r <- pct_format rest' args ;; Ok (String "%" r)
      | String _ _ => Raise (ValueError "unsupported format character")
      | EmptyString => Raise (ValueError "incomplete format")
      end
  | String c rest => r <- pct_format rest args ;; Ok (String c r)
  end.

(** [n.to_bytes(length, "big")] *)
Fixpoint to_bytes_big_aux (length : nat) (n : Z) (acc : bytes) : bytes :=
  match length with
  | O => acc
  | S k =>
      match Byte.of_N (Z.to_N (n mod 256)) with
      | Some b => to_bytes_big_aux k (n / 256) (b :: acc)
      | None => acc
      end
  end.

Definition to_bytes_big (n : Z) (length : Z) : result bytes :=
  if (n <? 0) || (2 ^ (8 * length) <=? n)
  then Raise (OverflowError "int too big to convert")
  else Ok (to_bytes_big_aux (Z.to_nat length) n []).

(** [int.from_bytes(b, "big")] *)
Definition from_bytes_big (b : bytes) : Z :=
  fold_left (fun acc x => acc * 256 + Z.of_N (Byte.to_N x)) b 0.

(** A [dict] in insertion order. *)
Definition dict (K V : Type) : Type := list (K * V).

Fixpoint dict_get {K V : Type} (eqb : K -> K -> bool) (d : dict K V) (k : K) : option V :=
  match d with
  | [] => None
  | (k', v) :: d' => if eqb k' k then Some v else dict_get eqb d' k
  end.

(** [d[k] = v]: an existing key keeps its position. *)
Fixpoint dict_set {K V : Type} (eqb : K -> K -> bool) (d : dict K V) (k : K) (v : V)
  : dict K V :=
  match d with
  | [] => [(k, v)]
  | (k', v') :: d' => if eqb k' k then (k', v) :: d' else (k', v') :: dict_set eqb d' k v
  end.

Definition dict_values {K V : Type} (d : dict K V) : list V := map snd d.

(** [sorted(l)] on a list of strings: a stable sort by code points, here by
    insertion. *)
Fixpoint insert_sorted (x : string) (l : list string) : list string :=
  match l with
  | [] => [x]
  | y :: l' => if String.leb x y then x :: l else y :: insert_sorted x l'
  end.

Definition sorted (l : list string) : list string := fold_right insert_sorted [] l.

(** The order of [sorted]. *)
Definition str_le (a b : string) : Prop := String.leb a b = true.

(** [binascii.hexlify(b).decode("utf-8")]: two lower-case digits per byte. *)
Definition hex_char (z : Z) : ascii :=
  ascii_of_nat (Z.to_nat (if z <? 10 then 48 + z else 87 + z)).

Fixpoint hexlify (b : bytes) : string :=
  match b with
  | [] => EmptyString
  | x :: b' =>
      String (hex_char (byte_val x / 16)) (String (hex_char (byte_val x mod 16)) (hexlify b'))
  end.

(** [s[1:]] *)
Definition str_tail (s : string) : string :=
  match s with
  | EmptyString => EmptyString
  | String _ s' => s'
  end.

(** The characters of a string one by one. *)
Fixpoint str_map (f : ascii -> ascii) (s : string) : string :=
  match s with
  | EmptyString => EmptyString
  | String c s' => String (f c) (str_map f s')
  end.

Fixpoint str_forallb (f : ascii -> bool) (s : string) : bool :=
  match s with
  | EmptyString => true
  | String c s' => f c && str_forallb f s'
  end.

(** What follows the first occurrence of a character, if it occurs. *)
Fixpoint str_after (c : ascii) (s : string) : option string :=
  match s with
  | EmptyString => None
  | String x s' => if Ascii.eqb x c then Some s' else str_after c s'
  end.

(** A list of strings without repetition. *)
Fixpoint distinct (l : list string) : bool :=
  match l with
  | [] => true
  | x :: l' => negb (existsb (String.eqb x) l') && distinct l'
  end.

(** ** Data of the libraries (embit, ur) as the sources use it *)

Definition PubKey := bytes.
Definition HDKey := bytes.

Record Script : Type := { data : bytes }.

Record DerivationPath : Type := { fingerprint : bytes; derivation : list Z }.

Record TxOut : Type := { value : Z; script_pubkey : Script }.

Record TxIn : Type := { txid : bytes; prev_index : Z }.

Record Transaction : Type := { vin : list TxIn; vout : list TxOut }.

(** An input or output scope of a PSBT: [get_policy] reads both kinds
    through the same attributes. *)
Record Scope : Type := {
  witness_utxo : option TxOut;
  witness_script : option Script;
  redeem_script : option Script;
  bip32_derivations : dict PubKey DerivationPath;
  partial_sigs : dict PubKey bytes
}.

Record PSBT : Type := {
  psbt_tx : Transaction;
  psbt_inputs : list Scope;
  psbt_outputs : list Scope;
  psbt_xpubs : dict HDKey DerivationPath
}.

(** An entry of [embit.networks.NETWORKS]: the keys the sources read. *)
Record Network : Type := { net_xprv : bytes; net_bip32 : Z }.

Record UR : Type := { UR_type : string; UR_cbor : bytes }.

(** The argument of [HDKey.derive]: a path string or a list of indices. *)
Inductive path_arg : Type :=
| PathStr (s : string)
| PathList (l : list Z).

(** What is handed to [urtypes.crypto.PSBT(...)]: [bytes] or [str]. *)
Inductive py_data : Type :=
| DBytes (b : bytes)
| DStr (s : string).

(** ** The collaborators *)

Class Collaborators : Type := {
  (* embit.bip39, embit.bip32, hashlib *)
  WORDLIST : list string;
  sha256 : bytes -> bytes;
  mnemonic_to_seed : string -> string -> bytes;
  HDKey_from_seed : bytes -> bytes -> HDKey;
  hd_child : HDKey -> Z -> HDKey;
  hd_fingerprint : HDKey -> bytes;
  hd_derive : HDKey -> path_arg -> HDKey;
  (* [derive] on an extended public key: no child for a hardened index *)
  xpub_derive : HDKey -> list Z -> option HDKey;
  hd_to_public : HDKey -> HDKey;
  hd_key : HDKey -> PubKey;
  to_base58 : HDKey -> string;
  (* embit.script, embit.finalizer *)
  script_type : Script -> option string;
  p2wpkh : HDKey -> Script;
  p2wsh : Script -> Script;
  p2sh : Script -> Script;
  address : Script -> Network -> string;
  parse_multisig : Script -> option (Z * list PubKey);
  (* embit.psbt *)
  PSBT_parse : bytes -> option PSBT;
  PSBT_serialize : PSBT -> bytes;
  sign_with : PSBT -> HDKey -> PSBT * Z;
  (* ur, urtypes, krux.baseconv *)
  CRYPTO_PSBT_type : string;
  from_cbor : bytes -> option bytes;
  to_cbor : py_data -> bytes;
  base_encode : bytes -> Z -> bytes;
  base_decode : bytes -> Z -> option bytes;
  (* krux.krux_settings, krux.format, krux.qr *)
  t : string -> string;
  satcomma : Z -> string;
  FORMAT_PMOFN : Z
}.

(** The collaborators of the methods of [Key] that show or pick.
    [randbelow seed n] is the index that [random.choice] draws in a sequence
    of length [n] after [random.seed(seed)]. *)
Class KeyCollaborators : Type := {
  to_base58_version : HDKey -> option bytes -> string;
  randbelow : Z -> Z -> Z
}.

(** * key.py *)

Module Key.

Definition DER_SINGLE : string := "m/%dh/%dh/%dh".
Definition DER_MULTI : string := "m/%dh/%dh/%dh/2h".
Definition HARDENED_STR_REPLACE : string := "'".

Definition SINGLESIG_SCRIPT_PURPOSE : dict string Z :=
  [ ("p2pkh", 44); ("p2sh-p2wpkh", 49); ("p2wpkh", 84); ("p2tr", 86) ].

Definition MULTISIG_SCRIPT_PURPOSE : Z := 48.

Record Key : Type := {
  key_mnemonic : string;
  key_multisig : bool;
  key_network : Network;
  key_passphrase : string;
  key_account_index : Z;
  key_script_type : string;
  key_root : HDKey;
  key_fingerprint : bytes;
  key_derivation : string;
  key_account : HDKey
}.

(** [Key.get_default_derivation] *)
Definition get_default_derivation (multisig : bool) (network : Network)
    (account : Z) (script_type : string) : result string :=
  let der_format := if multisig then DER_MULTI else DER_SINGLE in
  purpose <-
    (if multisig then Ok MULTISIG_SCRIPT_PURPOSE
     else match dict_get String.eqb SINGLESIG_SCRIPT_PURPOSE script_type with
          | Some p => Ok p
          | None => Raise (KeyError script_type)
          end) ;;
  pct_format der_format [ArgInt purpose; ArgInt (net_bip32 network); ArgInt account].

(** [Key.format_derivation] *)
Definition format_derivation (derivation : string) (pretty : bool) : result string :=
  let formatted_txt := if pretty then "↳ %s" else "%s" in
  s <- pct_format formatted_txt [ArgStr derivation] ;;
  Ok (str_replace "h" HARDENED_STR_REPLACE s).

(** [Key.derivation_str] *)
Definition derivation_str (self : Key) (pretty : bool) : result string :=
  let formatted_txt := if pretty then "↳ %s" else "%s" in
  s <- pct_format formatted_txt [ArgStr (key_derivation self)] ;;
  Ok (str_replace "h" HARDENED_STR_REPLACE s).

Section WithCollaborators.
Context `{Collaborators}.

(** [Key.__init__], for a mnemonic and a passphrase from which the key
    library makes a root key: what the constructor computes when
    [mnemonic_to_seed], [from_seed], [child] and [derive] return. *)
Definition __init__ (mnemonic : string) (multisig : bool) (network : Network)
    (passphrase : string) (account_index : Z) (script_type : string) : result Key :=
  let script_type := if negb multisig then script_type else "p2wsh" in
  let root := HDKey_from_seed (mnemonic_to_seed mnemonic passphrase) (net_xprv network) in
  let fingerprint := hd_fingerprint (hd_child root 0) in
  derivation <- get_default_derivation multisig network account_index script_type ;;
  let account := hd_to_public (hd_derive root (PathStr derivation)) in
  Ok {| key_mnemonic := mnemonic; key_multisig := multisig; key_network := network;
        key_passphrase := passphrase; key_account_index := account_index;
        key_script_type := script_type; key_root := root;
        key_fingerprint := fingerprint; key_derivation := derivation;
        key_account := account |}.

(** [WORDLIST.index(x)] *)
Fixpoint wordlist_index_from (l : list string) (x : string) (i : Z) : result Z :=
  match l with
  | [] => Raise (ValueError "is not in list")
  | w :: l' => if String.eqb w x then Ok i else wordlist_index_from l' x (i + 1)
  end.

Definition WORDLIST_index (x : string) : result Z := wordlist_index_from WORDLIST x 0.

(** [Key.get_final_word_candidates] *)
Definition get_final_word_candidates (words : list string) : result (list string) :=
  if negb (len words =? 11) && negb (len words =? 23)
  then Raise (ValueError "must provide 11 or 23 words")
  else
    indices <- map_result WORDLIST_index words ;;
    let accu := fold_left (fun accu index => Z.shiftl accu 11 + index) indices 0 in
    (* in bits: final entropy, needed entropy, checksum *)
    let len_target := (len words * 11 + 11) / 33 * 32 in
    let len_needed := len_target - len words * 11 in
    let len_cksum := len_target / 32 in
    for_each
      (fun candidates i =>
         let entropy := Z.shiftl accu len_needed + i in
         entropy_bytes <- to_bytes_big entropy (len_target / 8) ;;
         let ck_bytes := sha256 entropy_bytes in
         let cksum := Z.shiftr (from_bytes_big ck_bytes) (256 - len_cksum) in
         last_word <- list_index WORDLIST (Z.shiftl i len_cksum + cksum) ;;
         Ok (candidates ++ [last_word]))
      (range (2 ^ len_needed)) [].

(** *** Notions used to state the properties of this module *)

(** A key was constructed, [self.derivation] is [with_h] and
    [self.derivation_str()] shows it as [with_quote]. *)
Definition has_default_path (r : result Key) (with_h with_quote : string) : Prop :=
  exists k, r = Ok k /\ key_derivation k = with_h /\ derivation_str k false = Ok with_quote.

(** The number of entropy bits that [n] known words leave open
    ([len_needed] above). *)
Definition needed_bits (n : Z) : Z := (n * 11 + 11) / 33 * 32 - n * 11.

(** BIP-39 validity of a full mnemonic: its words are in the word list and,
    reading their 11-bit indices as one number, the low [total/33] bits
    (the checksum field) are the top bits of the SHA-256 of the remaining
    high bits (the entropy) packed big-endian. *)
Definition mnemonic_is_valid (mnemonic : list string) : bool :=
  match map_result WORDLIST_index mnemonic with
  | Raise _ => false
  | Ok indices =>
      let n := fold_left (fun a i => a * 2048 + i) indices 0 in
      let total_bits := 11 * len mnemonic in
      let checksum_bits := total_bits / 33 in
      let entropy_bits := total_bits - checksum_bits in
      match to_bytes_big (n / 2 ^ checksum_bits) (entropy_bits / 8) with
      | Raise _ => false
      | Ok entropy =>
          from_bytes_big (sha256 entropy) / 2 ^ (256 - checksum_bits)
          =? n mod 2 ^ checksum_bits
      end
  end.

End WithCollaborators.

(** [Key.format_fingerprint] *)
Definition format_fingerprint (fingerprint : bytes) (pretty : bool) : result string :=
  let formatted_txt := if pretty then "⊚ %s" else "%s" in
  pct_format formatted_txt [ArgStr (hexlify fingerprint)].

(** [Key.fingerprint_hex_str] *)
Definition fingerprint_hex_str (self : Key) (pretty : bool) : result string :=
  let formatted_txt := if pretty then "⊚ %s" else "%s" in
  pct_format formatted_txt [ArgStr (hexlify (key_fingerprint self))].

Section WithKeyCollaborators.
Context {C : Collaborators} {K : KeyCollaborators}.

(** [Key.xpub] *)
Definition xpub (self : Key) (version : option bytes) : string :=
  to_base58_version (key_account self) version.

(** [Key.get_xpub] *)
Definition get_xpub (self : Key) (path : string) : HDKey :=
  hd_to_public (hd_derive (key_root self) (PathStr path)).

(** [Key.account_pubkey_str] *)
Definition account_pubkey_str (self : Key) (version : option bytes) : string :=
  to_base58_version (key_account self) version.

(** [Key.key_expression] *)
Definition key_expression (self : Key) (version : option bytes) : result string :=
  fingerprint <- fingerprint_hex_str self false ;;
  pct_format "[%s%s]%s"
    [ArgStr fingerprint;
     (* remove leading m, necessary for creating a descriptor *)
     ArgStr (str_tail (key_derivation self));
     ArgStr (account_pubkey_str self version)].

(** [Key.pick_final_word]; [ticks] is the reading of [time.ticks_ms()]. *)
Definition pick_final_word (ticks entropy : Z) (words : list string) : result string :=
  if negb (len words =? 11) && negb (len words =? 23)
  then Raise (ValueError "must provide 11 or 23 words")
  else
    let seed := ticks + entropy in
    candidates <- get_final_word_candidates words ;;
    list_index candidates (randbelow seed (len candidates)).

End WithKeyCollaborators.

(** *** Notions used to state further properties of this module *)

(** [h] shown as the quote, any other character as it is. *)
Definition quote_h (c : ascii) : ascii := if Ascii.eqb c "h" then "'"%char else c.

(** The characters of [str(n)] and of the hexadecimal form of bytes. *)
Definition is_digit_or_minus (c : ascii) : bool :=
  let n := Z.of_nat (nat_of_ascii c) in ((48 <=? n) && (n <=? 57)) || (n =? 45).

Definition is_hex_digit (c : ascii) : bool :=
  let n := Z.of_nat (nat_of_ascii c) in
  ((48 <=? n) && (n <=? 57)) || ((97 <=? n) && (n <=? 102)).

(** The script types with a single-sig purpose. *)
Definition single_sig_type (script_type : string) : bool :=
  existsb (String.eqb script_type) ["p2pkh"; "p2sh-p2wpkh"; "p2wpkh"; "p2tr"].

End Key.

(** * psbt.py *)

Module Psbt.

(** The policy dictionary: ["type"] is always set by [get_policy]; ["m"],
    ["n"] and ["cosigners"] are present after [policy.update] only. *)
Record Policy : Type := {
  policy_type : string;
  policy_m : option Z;
  policy_n : option Z;
  policy_cosigners : option (list string)
}.

(** [==] on policy dictionaries. *)
Definition policy_eqb (p q : Policy) : bool :=
  String.eqb (policy_type p) (policy_type q)
  && option_eqb Z.eqb (policy_m p) (policy_m q)
  && option_eqb Z.eqb (policy_n p) (policy_n q)
  && option_eqb (list_eqb String.eqb) (policy_cosigners p) (policy_cosigners q).

(** [a == b] where either side may be [None]. *)
Definition opt_policy_eqb (a b : option Policy) : bool := option_eqb policy_eqb a b.

(** The wallet (krux.wallet, not part of these sources): the attributes and
    the results of the methods that psbt.py reads. *)
Record KeyOrigin : Type := {
  origin_fingerprint : bytes;
  origin_derivation : list Z
}.

Record DescriptorKey : Type := {
  dk_origin : option KeyOrigin;
  dk_key : HDKey
}.

Record Descriptor : Type := {
  descriptor_key : option DescriptorKey;
  descriptor_keys : list DescriptorKey
}.

Record Wallet : Type := {
  wallet_key : Key.Key;
  wallet_is_multisig : bool;
  wallet_is_loaded : bool;
  wallet_policy : option Policy;
  wallet_descriptor : option Descriptor
}.

Inductive RegistryType : Type := CRYPTO_PSBT.

Record PSBTSigner : Type := {
  wallet : Wallet;
  base_encoding : option Z;
  ur_type : option RegistryType;
  qr_format : Z;
  psbt : PSBT;
  policy : option Policy
}.

(** The [psbt_data] argument of the constructor. *)
Inductive psbt_input : Type :=
| InUR (ur : UR)
| InStr (s : string)
| InBytes (b : bytes).

(** The payload returned by [psbt_qr]. *)
Inductive qr_payload : Type :=
| QRUR (ur : UR)
| QRData (d : py_data).

Definition newline : string := String (ascii_of_nat 10) EmptyString.

Definition is_some {A : Type} (o : option A) : bool :=
  match o with Some _ => true | None => false end.

(** A library call that raises when it has no result. *)
Definition lib_call {A : Type} (o : option A) : result A :=
  match o with
  | Some a => Ok a
  | None => Raise (ValueError "raised by a library")
  end.

(** [try: r except: handler] *)
Definition try_except {A : Type} (r : result A) (handler : result A) : result A :=
  match r with
  | Ok a => Ok a
  | Raise _ => handler
  end.

(** [PSBT(tx)]: embit's constructor gives one blank scope per [vin] and
    per [vout] and no global xpubs. *)
Definition blank_scope : Scope :=
  {| witness_utxo := None; witness_script := None; redeem_script := None;
     bip32_derivations := []; partial_sigs := [] |}.

Definition PSBT_new (tx : Transaction) : PSBT :=
  {| psbt_tx := tx;
     psbt_inputs := map (fun _ => blank_scope) (vin tx);
     psbt_outputs := map (fun _ => blank_scope) (vout tx);
     psbt_xpubs := [] |}.

Section WithCollaborators.
Context `{Collaborators}.

(** [is_multisig] *)
Definition is_multisig (policy : option Policy) : result bool :=
  match policy with
  | None => Raise (TypeError "argument of type 'NoneType' is not iterable")
  | Some policy =>
      Ok (str_contains "p2wsh" (policy_type policy)
          && is_some (policy_m policy)
          && is_some (policy_n policy)
          && is_some (policy_cosigners policy))
  end.

(** The three nested tests of the inner loop of [get_cosigners].
    [xpub.derive] is called once the first two hold, and what it raises is
    not caught. *)
Definition xpub_matches (pubkey : PubKey) (der : DerivationPath)
    (entry : HDKey * DerivationPath) : result bool :=
  let '(xpub, origin_der) := entry in
  (* check fingerprint *)
  if bytes_eqb (fingerprint origin_der) (fingerprint der) then
    (* check derivation - last two indexes give pub from xpub *)
    if list_Z_eqb (derivation origin_der) (slice_to_minus2 (derivation der)) then
      (* check that it derives to pubkey actually *)
      child <- lib_call (xpub_derive xpub (slice_from_minus2 (derivation der))) ;;
      Ok (bytes_eqb (hd_key child) pubkey)
    else Ok false
  else Ok false.

(** [for xpub in xpubs: ... break]: the first xpub that passes the tests. *)
Fixpoint first_match (pubkey : PubKey) (der : DerivationPath)
    (xpubs : dict HDKey DerivationPath) : result (option HDKey) :=
  match xpubs with
  | [] => Ok None
  | (xpub, origin_der) :: rest =>
      found <- xpub_matches pubkey der (xpub, origin_der) ;;
      if found then Ok (Some xpub) else first_match pubkey der rest
  end.

(** [get_cosigners] *)
Definition get_cosigners (pubkeys : list PubKey)
    (derivations : dict PubKey DerivationPath)
    (xpubs : dict HDKey DerivationPath) : result (list string) :=
  cosigners <-
    for_each
      (fun cosigners pubkey =>
         match dict_get bytes_eqb derivations pubkey with
         | None => Raise (ValueError "missing derivation")
         | Some der =>
             found <- first_match pubkey der xpubs ;;
             match found with
             | Some xpub => Ok (cosigners ++ [to_base58 xpub])
             | None => Ok cosigners
             end
         end)
      pubkeys [] ;;
  if negb (len cosigners =? len pubkeys)
  then Raise (ValueError "cannot get all cosigners")
  else Ok (sorted cosigners).

Definition opt_str_eqb (o : option string) (s : string) : bool :=
  match o with Some x => String.eqb x s | None => false end.

(** [get_policy] *)
Definition get_policy (scope : Scope) (scriptpubkey : Script)
    (xpubs : dict HDKey DerivationPath) : result Policy :=
  let script_type0 := script_type scriptpubkey in
  let script_type1 :=
    if opt_str_eqb script_type0 "p2sh" then
      if is_some (witness_script scope) then Some "p2sh-p2wsh"
      else
        match redeem_script scope with
        | Some rs =>
            if opt_str_eqb (script_type rs) "p2wpkh" then Some "p2sh-p2wpkh"
            else script_type0
        | None => script_type0
        end
    else script_type0 in
  match script_type1 with
  | None => Raise (TypeError "argument of type 'NoneType' is not iterable")
  | Some st =>
      let policy := {| policy_type := st; policy_m := None; policy_n := None;
                       policy_cosigners := None |} in
      if str_contains "p2wsh" st then
        match witness_script scope with
        | Some ws =>
            ' (m, pubkeys) <- lib_call (parse_multisig ws) ;;
            cosigners <- get_cosigners pubkeys (bip32_derivations scope) xpubs ;;
            Ok {| policy_type := st; policy_m := Some m;
                  policy_n := Some (len cosigners);
                  policy_cosigners := Some cosigners |}
        | None => Ok policy
        end
      else Ok policy
  end.

(** [PSBTSigner.xpubs] *)
Definition xpubs (self : PSBTSigner) : result (dict HDKey DerivationPath) :=
  match psbt_xpubs (psbt self) with
  | _ :: _ => Ok (psbt_xpubs (psbt self))
  | [] =>
      match wallet_descriptor (wallet self) with
      | None => Raise (ValueError "missing xpubs")
      | Some descriptor =>
          let descriptor_keys :=
            match descriptor_key descriptor with
            | Some k => [k]
            | None => descriptor_keys descriptor
            end in
          Ok (fold_left
                (fun xpubs dk =>
                   match dk_origin dk with
                   | Some origin =>
                       (* Pure xpub descriptors (Blue Wallet) don't have origin data *)
                       dict_set bytes_eqb xpubs (dk_key dk)
                         {| fingerprint := origin_fingerprint origin;
                            derivation := origin_derivation origin |}
                   | None => xpubs
                   end)
                descriptor_keys [])
      end
  end.

(** The decoding cascade at the head of [PSBTSigner.__init__]: the parsed
    PSBT with the values left in [base_encoding] and [ur_type]. *)
Definition parse_psbt_data (psbt_data : psbt_input) (qr_format : Z)
  : result (PSBT * option Z * option RegistryType) :=
  match psbt_data with
  | InUR ur =>
      try_except
        (d <- lib_call (from_cbor (UR_cbor ur)) ;;
         p <- lib_call (PSBT_parse d) ;;
         Ok (p, None, Some CRYPTO_PSBT))
        (Raise (ValueError "invalid PSBT"))
  | InStr _ | InBytes _ =>
      (* Process as bytes *)
      let psbt_data :=
        match psbt_data with
        | InStr s => list_byte_of_string s
        | InBytes b => b
        | InUR _ => []
        end in
      try_except
        (p <- lib_call (PSBT_parse psbt_data) ;;
         Ok (p, (if qr_format =? FORMAT_PMOFN then Some 64 else None), None))
        (try_except
           (d <- lib_call (base_decode psbt_data 64) ;;
            p <- lib_call (PSBT_parse d) ;;
            Ok (p, Some 64, None))
           (try_except
              (d <- lib_call (base_decode psbt_data 58) ;;
               p <- lib_call (PSBT_parse d) ;;
               Ok (p, Some 58, None))
              (try_except
                 (d <- lib_call (base_decode psbt_data 43) ;;
                  p <- lib_call (PSBT_parse d) ;;
                  Ok (p, Some 43, None))
                 (Raise (ValueError "invalid PSBT")))))
  end.

(** [get_policy(inp, inp.witness_utxo.script_pubkey, xpubs)]: the policy
    inferred from one input. *)
Definition input_policy (xpubs : dict HDKey DerivationPath) (inp : Scope) : result Policy :=
  match witness_utxo inp with
  | Some utxo => get_policy inp (script_pubkey utxo) xpubs
  | None => Raise (AttributeError "'NoneType' object has no attribute 'script_pubkey'")
  end.

(** One turn of the loop over [self.psbt.inputs] in [__init__]; the state
    is [self.policy]. *)
Definition check_input (xpubs : dict HDKey DerivationPath)
    (policy : option Policy) (inp : Scope) : result (option Policy) :=
  (* get policy of the input *)
  inp_policy <-
    try_except (input_policy xpubs inp) (Raise (ValueError "Unable to get policy")) ;;
  match policy with
  (* if policy is None - assign current *)
  | None => Ok (Some inp_policy)
  (* otherwise check that everything in the policy is the same *)
  | Some p =>
      if negb (policy_eqb p inp_policy)
      then Raise (ValueError "mixed inputs in the tx")
      else Ok policy
  end.

(** The validation part of [__init__], after the PSBT is parsed. *)
Definition validate (self : PSBTSigner) : result PSBTSigner :=
  xpubs <- xpubs self ;;
  policy <- for_each (check_input xpubs) (psbt_inputs (psbt self)) None ;;
  let self := {| wallet := wallet self; base_encoding := base_encoding self;
                 ur_type := ur_type self; qr_format := qr_format self;
                 psbt := psbt self; policy := policy |} in
  m1 <- is_multisig policy ;;
  if m1 && negb (wallet_is_multisig (wallet self)) then Raise (ValueError "multisig tx")
  else
    m2 <- is_multisig policy ;;
    if negb m2 && wallet_is_multisig (wallet self) then Raise (ValueError "not multisig tx")
    else
      if wallet_is_loaded (wallet self) then
        if negb (opt_policy_eqb (wallet_policy (wallet self)) policy)
        then Raise (ValueError "policy mismatch")
        else Ok self
      else Ok self.

(** [PSBTSigner.__init__] *)
Definition __init__ (wallet : Wallet) (psbt_data : psbt_input) (qr_format : Z)
  : result PSBTSigner :=
  ' (parsed, ur) <- parse_psbt_data psbt_data qr_format ;;
  let '(p, enc) := parsed in
  validate {| wallet := wallet; base_encoding := enc; ur_type := ur;
              qr_format := qr_format; psbt := p; policy := None |}.

(** The locals of [outputs] that its loop updates.  [sc] is assigned only
    inside [if out_policy == self.policy], so it is unbound until an output
    first takes that branch and keeps its last value afterwards. *)
Record outputs_locals : Type := {
  sc : option Script;
  self_transfer_list : list (string * Z);
  change_list : list (string * Z);
  spend_list : list (string * Z);
  self_amount : Z;
  change_amount : Z;
  spend_amount : Z
}.

Definition outputs_locals_init : outputs_locals :=
  {| sc := None; self_transfer_list := []; change_list := []; spend_list := [];
     self_amount := 0; change_amount := 0; spend_amount := 0 |}.

(** The body of [if out_policy == self.policy]: the value assigned to [sc]. *)
Definition rebuild_script (self : PSBTSigner) (out : Scope) : result Script :=
  match policy self with
  | None => Raise (TypeError "'NoneType' object is not subscriptable")
  | Some self_policy =>
      (* empty script by default *)
      let sc := {| data := [] |} in
      (* [script.p2wsh(None)] fails on reading the script of [None] *)
      let p2wsh_of_witness_script (k : Script -> Script) :=
        match witness_script out with
        | Some ws => Ok (k (p2wsh ws))
        | None => Raise (AttributeError "'NoneType' object has no attribute 'data'")
        end in
      (* multisig, we know witness script *)
      if String.eqb (policy_type self_policy) "p2wsh" then
        p2wsh_of_witness_script (fun s => s)
      else if String.eqb (policy_type self_policy) "p2sh-p2wsh" then
        p2wsh_of_witness_script p2sh
      (* single-sig *)
      else if str_contains "pkh" (policy_type self_policy) then
        match dict_values (bip32_derivations out) with
        | d0 :: _ =>
            let der := derivation d0 in
            let my_hd_prvkey := hd_derive (Key.key_root (wallet_key (wallet self))) (PathList der) in
            if String.eqb (policy_type self_policy) "p2wpkh" then Ok (p2wpkh my_hd_prvkey)
            else if String.eqb (policy_type self_policy) "p2sh-p2wpkh"
                 then Ok (p2sh (p2wpkh my_hd_prvkey))
                 else Ok sc
        | [] => Ok sc
        end
      else Ok sc
  end.

(** [is addr_type change?] *)
Definition is_change (out : Scope) : result bool :=
  match dict_values (bip32_derivations out) with
  | d0 :: _ => x <- list_index (derivation d0) 3 ;; Ok (x =? 1)
  | [] => Ok false
  end.

(** One turn of [for i, out in enumerate(self.psbt.outputs)]. *)
Definition outputs_step (self : PSBTSigner) (xpubs : dict HDKey DerivationPath)
    (st : outputs_locals) (i_out : Z * Scope) : result outputs_locals :=
  let '(i, out) := i_out in
  vout_i <- list_index (vout (psbt_tx (psbt self))) i ;;
  out_policy <- get_policy out (script_pubkey vout_i) xpubs ;;
  (* if policy is the same - probably change *)
  sc' <- (if opt_policy_eqb (Some out_policy) (policy self)
          then s <- rebuild_script self out ;; Ok (Some s)
          else Ok (sc st)) ;;
  sc_now <- match sc' with
            | Some s => Ok s
            | None => Raise (UnboundLocalError "sc")
            end ;;
  let entry := (address (script_pubkey vout_i) (Key.key_network (wallet_key (wallet self))),
                value vout_i) in
  (* Address is from my wallet *)
  if bytes_eqb (data sc_now) (data (script_pubkey vout_i)) then
    change <- is_change out ;;
    if change then
      Ok {| sc := sc'; self_transfer_list := self_transfer_list st;
            change_list := change_list st ++ [entry]; spend_list := spend_list st;
            self_amount := self_amount st;
            change_amount := change_amount st + value vout_i;
            spend_amount := spend_amount st |}
    else
      Ok {| sc := sc'; self_transfer_list := self_transfer_list st ++ [entry];
            change_list := change_list st; spend_list := spend_list st;
            self_amount := self_amount st + value vout_i;
            change_amount := change_amount st;
            spend_amount := spend_amount st |}
  else (* Address is from other wallet *)
    Ok {| sc := sc'; self_transfer_list := self_transfer_list st;
          change_list := change_list st; spend_list := spend_list st ++ [entry];
          self_amount := self_amount st; change_amount := change_amount st;
          spend_amount := spend_amount st + value vout_i |}.

(** The first loop of [outputs]: [inp_amount]. *)
Definition inputs_amount (self : PSBTSigner) : result Z :=
  for_each
    (fun inp_amount inp =>
       match witness_utxo inp with
       | Some utxo => Ok (inp_amount + value utxo)
       | None => Raise (AttributeError "'NoneType' object has no attribute 'value'")
       end)
    (psbt_inputs (psbt self)) 0.

(** The classification loop of [outputs]. *)
Definition classify_outputs (self : PSBTSigner) : result outputs_locals :=
  xpubs <- xpubs self ;;
  for_each (outputs_step self xpubs) (enumerate (psbt_outputs (psbt self)))
           outputs_locals_init.

(** [t("B%s") % satcomma(amount)] *)
Definition btc_str (amount : Z) : result string :=
  pct_format (t "₿%s") [ArgStr (satcomma amount)].

(** [fee = inp_amount - spend_amount - self_amount - change_amount] *)
Definition fee_of (inp_amount : Z) (st : outputs_locals) : Z :=
  inp_amount - spend_amount st - self_amount st - change_amount st.

(** The messages of one of the three lists. *)
Definition list_messages (fmt : string) (l : list (string * Z)) : result (list string) :=
  map_result
    (fun i_out : Z * (string * Z) =>
       let '(i, out) := i_out in
       a <- pct_format (t fmt) [ArgInt (i + 1); ArgStr (fst out)] ;;
       b <- btc_str (snd out) ;;
       Ok (a +s+ b))
    (enumerate l).

(** [PSBTSigner.outputs] *)
Definition outputs (self : PSBTSigner) : result (list string) :=
  inp_amount <- inputs_amount self ;;
  a <- pct_format (t "Inputs (%d): ") [ArgInt (len (psbt_inputs (psbt self)))] ;;
  b <- btc_str inp_amount ;;
  let resume_inputs_str := a +s+ b +s+ newline +s+ newline in
  st <- classify_outputs self ;;
  resume_spend_str <-
    (if len (spend_list st) >? 0 then
       a <- pct_format (t "Spend (%d): ") [ArgInt (len (spend_list st))] ;;
       b <- btc_str (spend_amount st) ;;
       Ok (a +s+ b +s+ newline +s+ newline)
     else Ok "") ;;
  resume_self_or_change_str <-
    (if len (self_transfer_list st) + len (change_list st) >? 0 then
       a <- pct_format (t "Self-transfer or Change (%d): ")
              [ArgInt (len (self_transfer_list st) + len (change_list st))] ;;
       b <- btc_str (self_amount st + change_amount st) ;;
       Ok (a +s+ b +s+ newline +s+ newline)
     else Ok "") ;;
  let fee := fee_of inp_amount st in
  b <- btc_str fee ;;
  let resume_fee_str := t "Fee: " +s+ b in
  (* first screen - resume *)
  let messages :=
    [resume_inputs_str +s+ resume_spend_str +s+ resume_self_or_change_str
     +s+ resume_fee_str] in
  spend <- list_messages ("%d. Spend: " +s+ newline +s+ newline +s+ "%s" +s+ newline +s+ newline)
             (spend_list st) ;;
  self_transfer <-
    list_messages ("%d. Self-transfer: " +s+ newline +s+ newline +s+ "%s" +s+ newline +s+ newline)
      (self_transfer_list st) ;;
  change <- list_messages ("%d. Change: " +s+ newline +s+ newline +s+ "%s" +s+ newline +s+ newline)
              (change_list st) ;;
  Ok (messages ++ spend ++ self_transfer ++ change).

(** [trimmed_psbt.inputs[i].partial_sigs = sigs] *)
Definition set_partial_sigs (p : PSBT) (i : Z) (sigs : dict PubKey bytes) : result PSBT :=
  inp <- list_index (psbt_inputs p) i ;;
  let inp' := {| witness_utxo := witness_utxo inp; witness_script := witness_script inp;
                 redeem_script := redeem_script inp;
                 bip32_derivations := bip32_derivations inp; partial_sigs := sigs |} in
  Ok {| psbt_tx := psbt_tx p;
        psbt_inputs := firstn (Z.to_nat i) (psbt_inputs p) ++ inp'
                       :: skipn (S (Z.to_nat i)) (psbt_inputs p);
        psbt_outputs := psbt_outputs p; psbt_xpubs := psbt_xpubs p |}.

Definition with_psbt (self : PSBTSigner) (p : PSBT) : PSBTSigner :=
  {| wallet := wallet self; base_encoding := base_encoding self; ur_type := ur_type self;
     qr_format := qr_format self; psbt := p; policy := policy self |}.

(** [PSBTSigner.sign]: the signer after the call, and what the call did.
    [sign_with] updates [self.psbt] in place, also when the call raises. *)
Definition sign (self : PSBTSigner) : PSBTSigner * result unit :=
  let '(signed, sigs_added) :=
    sign_with (psbt self) (Key.key_root (wallet_key (wallet self))) in
  let self := with_psbt self signed in
  if sigs_added =? 0 then (self, Raise (ValueError "cannot sign"))
  else
    let trimmed_psbt := PSBT_new (psbt_tx (psbt self)) in
    match for_each (fun trimmed (i_inp : Z * Scope) =>
                      set_partial_sigs trimmed (fst i_inp) (partial_sigs (snd i_inp)))
                   (enumerate (psbt_inputs (psbt self))) trimmed_psbt with
    | Ok trimmed => (with_psbt self trimmed, Ok tt)
    | Raise e => (self, Raise e)
    end.

(** [PSBTSigner.psbt_qr] *)
Definition psbt_qr (self : PSBTSigner) : qr_payload * Z :=
  let psbt_data := DBytes (PSBT_serialize (psbt self)) in
  let psbt_data :=
    match base_encoding self with
    | Some enc =>
        DStr (string_of_list_byte (base_encode (PSBT_serialize (psbt self)) enc))
    | None => psbt_data
    end in
  match ur_type self with
  | Some CRYPTO_PSBT =>
      (QRUR {| UR_type := CRYPTO_PSBT_type; UR_cbor := to_cbor psbt_data |},
       qr_format self)
  | None => (QRData psbt_data, qr_format self)
  end.

(** *** Notions used to state the properties of the signer *)

(** The signer as [__init__] has it after parsing, before validation. *)
Definition parsed_signer (wallet : Wallet) (qr_format : Z) (p : PSBT)
    (enc : option Z) (ur : option RegistryType) : PSBTSigner :=
  {| wallet := wallet; base_encoding := enc; ur_type := ur;
     qr_format := qr_format; psbt := p; policy := None |}.

(** The same PSBT with its inputs in another order. *)
Definition with_inputs (p : PSBT) (inputs : list Scope) : PSBT :=
  {| psbt_tx := psbt_tx p; psbt_inputs := inputs;
     psbt_outputs := psbt_outputs p; psbt_xpubs := psbt_xpubs p |}.

(** The keys [xpubs] reads from a descriptor. *)
Definition keys_of_descriptor (d : Descriptor) : list DescriptorKey :=
  match descriptor_key d with
  | Some k => [k]
  | None => descriptor_keys d
  end.

Definition missing_xpubs : exn := ValueError "missing xpubs".
Definition mixed_inputs : exn := ValueError "mixed inputs in the tx".
Definition unable_to_get_policy : exn := ValueError "Unable to get policy".

(** What a failing call of the key library raises. *)
Definition library_error : exn := ValueError "raised by a library".

(** The first known xpub that [get_cosigners] accepts for a pubkey. *)
Definition matching_xpub (derivations : dict PubKey DerivationPath)
    (xpubs : dict HDKey DerivationPath) (pubkey : PubKey) : option HDKey :=
  match dict_get bytes_eqb derivations pubkey with
  | Some der =>
      match first_match pubkey der xpubs with
      | Ok found => found
      | Raise _ => None
      end
  | None => None
  end.

(** The matches found for a list of pubkeys, in the order of the pubkeys. *)
Definition matches_found (derivations : dict PubKey DerivationPath)
    (xpubs : dict HDKey DerivationPath) (pubkeys : list PubKey) : list HDKey :=
  flat_map (fun pk => match matching_xpub derivations xpubs pk with
                      | Some x => [x]
                      | None => []
                      end) pubkeys.

(** The change flag of a BIP-32 path of a wallet address: the last two
    indexes lead from the account xpub to the pubkey (see [get_cosigners]),
    the first of them is the change flag and the second the address index. *)
Definition change_flag (der : list Z) : option Z :=
  match slice_from_minus2 der with
  | [change; _] => Some change
  | _ => None
  end.

(** A hardened index. *)
Definition hardened (i : Z) : Z := i + 2 ^ 31.

Definition sum_values (l : list TxOut) : Z :=
  fold_right (fun o acc => value o + acc) 0 l.

Definition utxo_value (inp : Scope) : Z :=
  match witness_utxo inp with Some utxo => value utxo | None => 0 end.

Definition sum_input_values (l : list Scope) : Z :=
  fold_right (fun inp acc => utxo_value inp + acc) 0 l.

(** The total of a list of (address, amount) pairs. *)
Definition sum_amounts (l : list (string * Z)) : Z :=
  fold_right (fun e acc => snd e + acc) 0 l.

(** The three totals of [outputs] are the totals of its three lists. *)
Definition accounted (st : outputs_locals) : Prop :=
  spend_amount st = sum_amounts (spend_list st)
  /\ self_amount st = sum_amounts (self_transfer_list st)
  /\ change_amount st = sum_amounts (change_list st).

Definition classified_total (st : outputs_locals) : Z :=
  spend_amount st + self_amount st + change_amount st.

Definition classified_count (st : outputs_locals) : nat :=
  (List.length (spend_list st) + List.length (self_transfer_list st)
   + List.length (change_list st))%nat.

(** What [sign] keeps of a PSBT: the transaction and, per input, the
    partial signatures. *)
Definition only_partial_sigs (inp : Scope) : Scope :=
  {| witness_utxo := None; witness_script := None; redeem_script := None;
     bip32_derivations := []; partial_sigs := partial_sigs inp |}.

Definition trimmed (p : PSBT) : PSBT :=
  {| psbt_tx := psbt_tx p;
     psbt_inputs := map only_partial_sigs (psbt_inputs p);
     psbt_outputs := map (fun _ => blank_scope) (vout (psbt_tx p));
     psbt_xpubs := [] |}.

(** The five encodings a PSBT is accepted in. *)
Inductive encoding : Type :=
| EncUR
| EncRaw
| EncBase (n : Z).

Definition parses (b : bytes) : bool := is_some (PSBT_parse b).

Definition via_base (raw : bytes) (n : Z) : option (encoding * bytes) :=
  match base_decode raw n with
  | Some b => if parses b then Some (EncBase n, b) else None
  | None => None
  end.

Definition or_else {A : Type} (a b : option A) : option A :=
  match a with Some _ => a | None => b end.

(** The encoding detected at decode time, with the PSBT bytes it wraps:
    the first of the five that yields bytes [PSBT.parse] accepts. *)
Definition detected_encoding (d : psbt_input) : option (encoding * bytes) :=
  match d with
  | InUR ur =>
      match from_cbor (UR_cbor ur) with
      | Some b => if parses b then Some (EncUR, b) else None
      | None => None
      end
  | InStr s =>
      let raw := list_byte_of_string s in
      or_else (if parses raw then Some (EncRaw, raw) else None)
        (or_else (via_base raw 64) (or_else (via_base raw 58) (via_base raw 43)))
  | InBytes raw =>
      or_else (if parses raw then Some (EncRaw, raw) else None)
        (or_else (via_base raw 64) (or_else (via_base raw 58) (via_base raw 43)))
  end.

(** The encoding that is recorded for re-emission: raw binary read for a
    PMofN QR code is recorded as Base64. *)
Definition recorded_encoding (e : encoding) (qr_format : Z) : encoding :=
  match e with
  | EncRaw => if qr_format =? FORMAT_PMOFN then EncBase 64 else EncRaw
  | _ => e
  end.

(** What the constructor leaves in [base_encoding] and [ur_type] for an
    encoding. *)
Definition encoding_fields (e : encoding) : option Z * option RegistryType :=
  match e with
  | EncUR => (None, Some CRYPTO_PSBT)
  | EncRaw => (None, None)
  | EncBase n => (Some n, None)
  end.

(** PSBT bytes in an encoding, and back. *)
Definition encode_payload (e : encoding) (b : bytes) : qr_payload :=
  match e with
  | EncUR => QRUR {| UR_type := CRYPTO_PSBT_type; UR_cbor := to_cbor (DBytes b) |}
  | EncRaw => QRData (DBytes b)
  | EncBase n => QRData (DStr (string_of_list_byte (base_encode b n)))
  end.

Definition decode_payload (e : encoding) (payload : qr_payload) : option bytes :=
  match e, payload with
  | EncUR, QRUR ur => from_cbor (UR_cbor ur)
  | EncRaw, QRData (DBytes b) => Some b
  | EncBase n, QRData (DStr s) => base_decode (list_byte_of_string s) n
  | _, _ => None
  end.

End WithCollaborators.

End Psbt.

(** * Sample collaborators

    An instance of [Collaborators] on which the model runs: SHA-256 as
    specified in FIPS 180-4; the script templates and the multisig witness
    script of Bitcoin; small stand-ins for the rest (key derivation by
    concatenation, a hash160 cut from SHA-256, tagged encodings, a word list
    of 2048 generated words, a table of serialised PSBTs). *)

Module SHA256.

Definition w32 (x : Z) : Z := Z.land x 4294967295.
Definition add32 (x y : Z) : Z := w32 (x + y).
Definition rotr (n x : Z) : Z := w32 (Z.lor (Z.shiftr x n) (Z.shiftl x (32 - n))).
Definition Ch (x y z : Z) : Z :=
  Z.lxor (Z.land x y) (Z.land (Z.lxor x 4294967295) z).
Definition Maj (x y z : Z) : Z :=
  Z.lxor (Z.lxor (Z.land x y) (Z.land x z)) (Z.land y z).
Definition Sigma0 (x : Z) : Z := Z.lxor (Z.lxor (rotr 2 x) (rotr 13 x)) (rotr 22 x).
Definition Sigma1 (x : Z) : Z := Z.lxor (Z.lxor (rotr 6 x) (rotr 11 x)) (rotr 25 x).
Definition sigma0 (x : Z) : Z := Z.lxor (Z.lxor (rotr 7 x) (rotr 18 x)) (Z.shiftr x 3).
Definition sigma1 (x : Z) : Z := Z.lxor (Z.lxor (rotr 17 x) (rotr 19 x)) (Z.shiftr x 10).

Definition K : list Z :=
  [1116352408; 1899447441; 3049323471; 3921009573; 961987163; 1508970993;
   2453635748; 2870763221; 3624381080; 310598401; 607225278; 1426881987;
   1925078388; 2162078206; 2614888103; 3248222580; 3835390401; 4022224774;
   264347078; 604807628; 770255983; 1249150122; 1555081692; 1996064986;
   2554220882; 2821834349; 2952996808; 3210313671; 3336571891; 3584528711;
   113926993; 338241895; 666307205; 773529912; 1294757372; 1396182291;
   1695183700; 1986661051; 2177026350; 2456956037; 2730485921; 2820302411;
   3259730800; 3345764771; 3516065817; 3600352804; 4094571909; 275423344;
   430227734; 506948616; 659060556; 883997877; 958139571; 1322822218;
   1537002063; 1747873779; 1955562222; 2024104815; 2227730452; 2361852424;
   2428436474; 2756734187; 3204031479; 3329325298].

Definition H0 : list Z :=
  [1779033703; 3144134277; 1013904242; 2773480762; 1359893119; 2600822924;
   528734635; 1541459225].

(** Big-endian 32-bit words of a byte string. *)
Fixpoint words_of (fuel : nat) (b : bytes) : list Z :=
  match fuel, b with
  | S k, b0 :: b1 :: b2 :: b3 :: rest =>
      (((byte_val b0 * 256 + byte_val b1) * 256 + byte_val b2) * 256 + byte_val b3)
      :: words_of k rest
  | _, _ => []
  end.

Definition bytes_of_word (w : Z) : bytes :=
  [byte_of (Z.shiftr w 24); byte_of (Z.shiftr w 16); byte_of (Z.shiftr w 8); byte_of w].

Definition pad (msg : bytes) : bytes :=
  let n := Z.of_nat (List.length msg) in
  let zeros := Z.to_nat ((55 - n) mod 64) in
  let bits := 8 * n in
  msg ++ [x80] ++ repeat x00 zeros
      ++ bytes_of_word (Z.shiftr bits 32) ++ bytes_of_word bits.

(** One round: the working variables and the window W_t .. W_{t+15} of the
    message schedule. *)
Definition round (st : list Z * list Z) (k : Z) : list Z * list Z :=
  match st with
  | ([a; b; c; d; e; f; g; h], w) =>
      let wt := nth 0 w 0 in
      let t1 := add32 (add32 (add32 (add32 h (Sigma1 e)) (Ch e f g)) k) wt in
      let t2 := add32 (Sigma0 a) (Maj a b c) in
      let next := add32 (add32 (add32 (sigma1 (nth 14 w 0)) (nth 9 w 0))
                               (sigma0 (nth 1 w 0))) wt in
      ([add32 t1 t2; a; b; c; add32 d t1; e; f; g], tl w ++ [next])
  | _ => st
  end.

Definition compress (h : list Z) (block : list Z) : list Z :=
  map (fun p => add32 (fst p) (snd p)) (combine h (fst (fold_left round K (h, block)))).

Fixpoint blocks (fuel : nat) (ws : list Z) : list (list Z) :=
  match fuel, ws with
  | S k, _ :: _ => firstn 16 ws :: blocks k (skipn 16 ws)
  | _, _ => []
  end.

Definition digest (msg : bytes) : bytes :=
  let p := pad msg in
  let ws := words_of (List.length p) p in
  flat_map bytes_of_word (fold_left compress (blocks (List.length ws) ws) H0).

End SHA256.

Module Sample.

Definition hash160 (b : bytes) : bytes := firstn 20 (SHA256.digest b).

Definition hd_derive (k : HDKey) (p : path_arg) : HDKey :=
  match p with
  | PathList l => k ++ flat_map SHA256.bytes_of_word l
  | PathStr s => k ++ list_byte_of_string s
  end.

(** No public derivation at a hardened index. *)
Definition xpub_derive (k : HDKey) (l : list Z) : option HDKey :=
  if existsb (fun i => 2 ^ 31 <=? i) l then None else Some (hd_derive k (PathList l)).

Definition hd_key (k : HDKey) : PubKey := x02 :: SHA256.digest k.

Definition hd_fingerprint (k : HDKey) : bytes := firstn 4 (hash160 (hd_key k)).

Definition hex_digit (z : Z) : ascii :=
  ascii_of_nat (Z.to_nat (if z <? 10 then 48 + z else 87 + z)).

Fixpoint hex (b : bytes) : string :=
  match b with
  | [] => EmptyString
  | x :: b' => String (hex_digit (byte_val x / 16)) (String (hex_digit (byte_val x mod 16)) (hex b'))
  end.

Definition to_base58 (k : HDKey) : string := "xpub" +s+ hex (hash160 k).

Definition p2wpkh (k : HDKey) : Script := {| data := x00 :: x14 :: hash160 (hd_key k) |}.
Definition p2wsh (s : Script) : Script := {| data := x00 :: x20 :: SHA256.digest (data s) |}.
Definition p2sh (s : Script) : Script :=
  {| data := xa9 :: x14 :: hash160 (data s) ++ [x87] |}.
Definition p2pkh_of_hash (h : bytes) : Script :=
  {| data := x76 :: xa9 :: x14 :: h ++ [x88; xac] |}.

Definition script_type (s : Script) : option string :=
  let d := data s in
  let n := List.length d in
  if (n =? 25)%nat && bytes_eqb (firstn 3 d) [x76; xa9; x14]
     && bytes_eqb (skipn 23 d) [x88; xac] then Some "p2pkh"
  else if (n =? 23)%nat && bytes_eqb (firstn 2 d) [xa9; x14]
          && bytes_eqb (skipn 22 d) [x87] then Some "p2sh"
  else if (n =? 22)%nat && bytes_eqb (firstn 2 d) [x00; x14] then Some "p2wpkh"
  else if (n =? 34)%nat && bytes_eqb (firstn 2 d) [x00; x20] then Some "p2wsh"
  else if (n =? 34)%nat && bytes_eqb (firstn 2 d) [x51; x20] then Some "p2tr"
  else None.

Definition address (s : Script) (n : Network) : string :=
  "addr" +s+ hex (data s).

(** [OP_m <33:pk> ... <33:pk> OP_n OP_CHECKMULTISIG] *)
Definition multisig_script (m : Z) (keys : list PubKey) : Script :=
  {| data := byte_of (80 + m) :: flat_map (fun k => x21 :: k) keys
             ++ [byte_of (80 + len keys); xae] |}.

Fixpoint parse_keys (fuel : nat) (d : bytes) : list PubKey * bytes :=
  match fuel, d with
  | S k, b :: rest =>
      if Byte.eqb b x21 && (33 <=? List.length rest)%nat then
        let '(keys, tail) := parse_keys k (skipn 33 rest) in
        (firstn 33 rest :: keys, tail)
      else ([], d)
  | _, _ => ([], d)
  end.

Definition parse_multisig (ws : Script) : option (Z * list PubKey) :=
  match data ws with
  | op_m :: rest =>
      match parse_keys (List.length rest) rest with
      | (keys, [op_n; op]) =>
          let m := byte_val op_m - 80 in
          let n := byte_val op_n - 80 in
          if Byte.eqb op xae && (1 <=? m) && (m <=? n) && (n =? len keys) && (n <=? 16)
          then Some (m, keys) else None
      | _ => None
      end
  | [] => None
  end.

(** Signing adds a partial signature for every pubkey of an input that the
    root key derives and that has none yet. *)
Definition signable (root : HDKey) (inp : Scope) : list PubKey :=
  map fst
    (filter (fun e : PubKey * DerivationPath =>
               bytes_eqb (hd_key (hd_derive root (PathList (derivation (snd e))))) (fst e)
               && negb (Psbt.is_some (dict_get bytes_eqb (partial_sigs inp) (fst e))))
            (bip32_derivations inp)).

Definition sign_input (root : HDKey) (inp : Scope) : Scope :=
  {| witness_utxo := witness_utxo inp; witness_script := witness_script inp;
     redeem_script := redeem_script inp; bip32_derivations := bip32_derivations inp;
     partial_sigs :=
       fold_left (fun sigs pk => dict_set bytes_eqb sigs pk (SHA256.digest (root ++ pk)))
                 (signable root inp) (partial_sigs inp) |}.

Definition sign_with (p : PSBT) (root : HDKey) : PSBT * Z :=
  ({| psbt_tx := psbt_tx p; psbt_inputs := map (sign_input root) (psbt_inputs p);
      psbt_outputs := psbt_outputs p; psbt_xpubs := psbt_xpubs p |},
   fold_right (fun inp acc => len (signable root inp) + acc) 0 (psbt_inputs p)).

Definition to_cbor (d : py_data) : bytes :=
  match d with
  | DBytes b => x59 :: b
  | DStr s => x79 :: list_byte_of_string s
  end.

Definition from_cbor (b : bytes) : option bytes :=
  match b with
  | t :: rest => if Byte.eqb t x59 then Some rest else None
  | [] => None
  end.

Definition base_encode (b : bytes) (n : Z) : bytes := byte_of n :: b.

Definition base_decode (b : bytes) (n : Z) : option bytes :=
  match b with
  | t :: rest => if Byte.eqb t (byte_of n) then Some rest else None
  | [] => None
  end.

Definition WORDLIST : list string := map (fun i => "w" +s+ str_of_int i) (range 2048).

Definition testnet : Network := {| net_xprv := [x04; x35; x83; x94]; net_bip32 := 1 |}.

Definition mnemonic_to_seed (mnemonic passphrase : string) : bytes :=
  SHA256.digest (list_byte_of_string (mnemonic +s+ passphrase)).

Definition HDKey_from_seed (seed version : bytes) : HDKey := seed.

(** ** A single-sig (p2wpkh) wallet and two PSBTs spending from it *)

Definition mnemonic1 : string := "w0 w1 w2 w3 w4 w5 w6 w7 w8 w9 w10 w3".

Definition root1 : HDKey := HDKey_from_seed (mnemonic_to_seed mnemonic1 "") (net_xprv testnet).

Definition h (i : Z) : Z := Psbt.hardened i.

Definition derivation_of (root : HDKey) (path : list Z) : PubKey * DerivationPath :=
  (hd_key (hd_derive root (PathList path)),
   {| fingerprint := hd_fingerprint (hd_derive root (PathList [0])); derivation := path |}).

Definition receive_path : list Z := [h 84; h 1; h 0; 0; 7].
Definition change_path : list Z := [h 84; h 1; h 0; 1; 0].

Definition single_input : Scope :=
  {| witness_utxo :=
       Some {| value := 100000;
               script_pubkey := p2wpkh (hd_derive root1 (PathList receive_path)) |};
     witness_script := None; redeem_script := None;
     bip32_derivations := [derivation_of root1 receive_path];
     partial_sigs := [] |}.

Definition change_txout : TxOut :=
  {| value := 39000; script_pubkey := p2wpkh (hd_derive root1 (PathList change_path)) |}.

Definition change_scope : Scope :=
  {| witness_utxo := None; witness_script := None; redeem_script := None;
     bip32_derivations := [derivation_of root1 change_path]; partial_sigs := [] |}.

(** A payment to somebody else's p2pkh address. *)
Definition spend_txout : TxOut :=
  {| value := 60000; script_pubkey := p2pkh_of_hash (hash160 [x01; x02; x03]) |}.

Definition sample_vin : list TxIn := [ {| txid := SHA256.digest [x2a]; prev_index := 0 |} ].

Definition psbt_change_first : PSBT :=
  {| psbt_tx := {| vin := sample_vin; vout := [change_txout; spend_txout] |};
     psbt_inputs := [single_input];
     psbt_outputs := [change_scope; Psbt.blank_scope];
     psbt_xpubs := [] |}.

Definition psbt_spend_first : PSBT :=
  {| psbt_tx := {| vin := sample_vin; vout := [spend_txout; change_txout] |};
     psbt_inputs := [single_input];
     psbt_outputs := [Psbt.blank_scope; change_scope];
     psbt_xpubs := [] |}.

(** ** A 2-of-3 multisig (p2wsh) wallet and a PSBT spending from it *)

Definition root2 : HDKey := HDKey_from_seed (mnemonic_to_seed "cosigner two" "") (net_xprv testnet).
Definition root3 : HDKey := HDKey_from_seed (mnemonic_to_seed "cosigner three" "") (net_xprv testnet).

(** [m/48'/1'/0'/2'], the default multisig derivation of [Key]. *)
Definition account_path : list Z := [h 48; h 1; h 0; h 2].

Definition account_xpub (root : HDKey) : HDKey := hd_derive root (PathList account_path).

Definition cosigner_origin (root : HDKey) : HDKey * DerivationPath :=
  (account_xpub root,
   {| fingerprint := hd_fingerprint (hd_derive root (PathList [0]));
      derivation := account_path |}).

Definition multisig_xpubs : dict HDKey DerivationPath :=
  [cosigner_origin root1; cosigner_origin root2; cosigner_origin root3].

Definition multisig_derivations (tail : list Z) : dict PubKey DerivationPath :=
  map (fun root => derivation_of root (account_path ++ tail)) [root1; root2; root3].

Definition multisig_pubkeys (tail : list Z) : list PubKey :=
  map fst (multisig_derivations tail).

Definition multisig_witness_script (tail : list Z) : Script :=
  multisig_script 2 (map fst (multisig_derivations tail)).

Definition multisig_input : Scope :=
  {| witness_utxo :=
       Some {| value := 51000; script_pubkey := p2wsh (multisig_witness_script [0; 0]) |};
     witness_script := Some (multisig_witness_script [0; 0]);
     redeem_script := None;
     bip32_derivations := multisig_derivations [0; 0];
     partial_sigs := [] |}.

(** The change output: every cosigner's path is [m/48'/1'/0'/2'/1/0]. *)
Definition multisig_change_txout : TxOut :=
  {| value := 50000; script_pubkey := p2wsh (multisig_witness_script [1; 0]) |}.

Definition multisig_change_scope : Scope :=
  {| witness_utxo := None;
     witness_script := Some (multisig_witness_script [1; 0]);
     redeem_script := None;
     bip32_derivations := multisig_derivations [1; 0];
     partial_sigs := [] |}.

Definition psbt_multisig : PSBT :=
  {| psbt_tx := {| vin := sample_vin; vout := [multisig_change_txout] |};
     psbt_inputs := [multisig_input];
     psbt_outputs := [multisig_change_scope];
     psbt_xpubs := multisig_xpubs |}.

(** A PSBT that spends a single-sig and a multisig input together. *)
Definition psbt_mixed : PSBT :=
  {| psbt_tx := {| vin := sample_vin ++ [ {| txid := SHA256.digest [x2b]; prev_index := 1 |} ];
                   vout := [multisig_change_txout] |};
     psbt_inputs := [single_input; multisig_input];
     psbt_outputs := [multisig_change_scope];
     psbt_xpubs := multisig_xpubs |}.

(** The multisig PSBT without its global xpubs. *)
Definition psbt_multisig_no_xpubs : PSBT :=
  {| psbt_tx := psbt_tx psbt_multisig;
     psbt_inputs := psbt_inputs psbt_multisig;
     psbt_outputs := psbt_outputs psbt_multisig;
     psbt_xpubs := [] |}.

(** ** Serialised PSBTs *)

Definition psbt_magic : bytes := [x70; x73; x62; x74; xff].

Definition psbt_table : list (bytes * PSBT) :=
  [ (psbt_magic ++ [x01], psbt_change_first);
    (psbt_magic ++ [x02], psbt_spend_first);
    (psbt_magic ++ [x03], psbt_multisig);
    (psbt_magic ++ [x04], psbt_mixed);
    (psbt_magic ++ [x05], psbt_multisig_no_xpubs) ].

Definition PSBT_parse (b : bytes) : option PSBT :=
  option_map snd (find (fun e => bytes_eqb (fst e) b) psbt_table).

Definition Script_eqb (a b : Script) : bool := bytes_eqb (data a) (data b).

Definition TxOut_eqb (a b : TxOut) : bool :=
  (value a =? value b) && Script_eqb (script_pubkey a) (script_pubkey b).

Definition TxIn_eqb (a b : TxIn) : bool :=
  bytes_eqb (txid a) (txid b) && (prev_index a =? prev_index b).

Definition DerivationPath_eqb (a b : DerivationPath) : bool :=
  bytes_eqb (fingerprint a) (fingerprint b) && list_Z_eqb (derivation a) (derivation b).

Definition entry_eqb {V : Type} (eqb : V -> V -> bool) (a b : bytes * V) : bool :=
  bytes_eqb (fst a) (fst b) && eqb (snd a) (snd b).

Definition Scope_eqb (a b : Scope) : bool :=
  option_eqb TxOut_eqb (witness_utxo a) (witness_utxo b)
  && option_eqb Script_eqb (witness_script a) (witness_script b)
  && option_eqb Script_eqb (redeem_script a) (redeem_script b)
  && list_eqb (entry_eqb DerivationPath_eqb) (bip32_derivations a) (bip32_derivations b)
  && list_eqb (entry_eqb bytes_eqb) (partial_sigs a) (partial_sigs b).

Definition PSBT_eqb (a b : PSBT) : bool :=
  list_eqb TxIn_eqb (vin (psbt_tx a)) (vin (psbt_tx b))
  && list_eqb TxOut_eqb (vout (psbt_tx a)) (vout (psbt_tx b))
  && list_eqb Scope_eqb (psbt_inputs a) (psbt_inputs b)
  && list_eqb Scope_eqb (psbt_outputs a) (psbt_outputs b)
  && list_eqb (entry_eqb DerivationPath_eqb) (psbt_xpubs a) (psbt_xpubs b).

Definition PSBT_serialize (p : PSBT) : bytes :=
  match find (fun e => PSBT_eqb (snd e) p) psbt_table with
  | Some e => fst e
  | None => psbt_magic
  end.

#[export] Instance collaborators : Collaborators :=
  Build_Collaborators
    WORDLIST SHA256.digest mnemonic_to_seed HDKey_from_seed
    (fun k i => hd_derive k (PathList [i])) hd_fingerprint hd_derive xpub_derive
    (fun k => k)
    hd_key to_base58
    script_type p2wpkh p2wsh p2sh address parse_multisig
    PSBT_parse PSBT_serialize sign_with
    "crypto-psbt" from_cbor to_cbor base_encode base_decode
    (fun s => s) str_of_int 1.

(** ** Wallets *)

Definition FORMAT_NONE : Z := 0.

Definition key_of (r : result Key.Key) : Key.Key :=
  match r with
  | Ok k => k
  | Raise _ =>
      {| Key.key_mnemonic := ""; Key.key_multisig := false; Key.key_network := testnet;
         Key.key_passphrase := ""; Key.key_account_index := 0; Key.key_script_type := "";
         Key.key_root := []; Key.key_fingerprint := []; Key.key_derivation := "";
         Key.key_account := [] |}
  end.

Definition single_key : Key.Key := key_of (Key.__init__ mnemonic1 false testnet "" 0 "p2wpkh").

Definition multisig_key : Key.Key := key_of (Key.__init__ mnemonic1 true testnet "" 0 "p2wpkh").

(** A single-sig wallet whose descriptor is a pure xpub, without origin. *)
Definition single_wallet : Psbt.Wallet :=
  {| Psbt.wallet_key := single_key;
     Psbt.wallet_is_multisig := false;
     Psbt.wallet_is_loaded := false;
     Psbt.wallet_policy := None;
     Psbt.wallet_descriptor :=
       Some {| Psbt.descriptor_key :=
                 Some {| Psbt.dk_origin := None; Psbt.dk_key := Key.key_account single_key |};
               Psbt.descriptor_keys := [] |} |}.

Definition multisig_policy : Psbt.Policy :=
  {| Psbt.policy_type := "p2wsh"; Psbt.policy_m := Some 2; Psbt.policy_n := Some 3;
     Psbt.policy_cosigners := Some (sorted (map to_base58 (map fst multisig_xpubs))) |}.

Definition multisig_wallet : Psbt.Wallet :=
  {| Psbt.wallet_key := multisig_key;
     Psbt.wallet_is_multisig := true;
     Psbt.wallet_is_loaded := true;
     Psbt.wallet_policy := Some multisig_policy;
     Psbt.wallet_descriptor := None |}.

(** A multisig wallet whose descriptor lists pure xpubs, without origin. *)
Definition multisig_wallet_no_origin : Psbt.Wallet :=
  {| Psbt.wallet_key := multisig_key;
     Psbt.wallet_is_multisig := true;
     Psbt.wallet_is_loaded := true;
     Psbt.wallet_policy := Some multisig_policy;
     Psbt.wallet_descriptor :=
       Some {| Psbt.descriptor_key := None;
               Psbt.descriptor_keys :=
                 map (fun e => {| Psbt.dk_origin := None; Psbt.dk_key := fst e |})
                     multisig_xpubs |} |}.

(** The signer for the multisig PSBT read as raw bytes for a PMofN QR code. *)
Definition multisig_signer : Psbt.PSBTSigner :=
  {| Psbt.wallet := multisig_wallet; Psbt.base_encoding := Some 64;
     Psbt.ur_type := None; Psbt.qr_format := 1; Psbt.psbt := psbt_multisig;
     Psbt.policy := Some multisig_policy |}.

(** The signers for the two single-sig PSBTs. *)
Definition single_policy : Psbt.Policy :=
  {| Psbt.policy_type := "p2wpkh"; Psbt.policy_m := None; Psbt.policy_n := None;
     Psbt.policy_cosigners := None |}.

Definition signer_change_first : Psbt.PSBTSigner :=
  {| Psbt.wallet := single_wallet; Psbt.base_encoding := None; Psbt.ur_type := None;
     Psbt.qr_format := FORMAT_NONE; Psbt.psbt := psbt_change_first;
     Psbt.policy := Some single_policy |}.

Definition signer_spend_first : Psbt.PSBTSigner :=
  {| Psbt.wallet := single_wallet; Psbt.base_encoding := None; Psbt.ur_type := None;
     Psbt.qr_format := FORMAT_NONE; Psbt.psbt := psbt_spend_first;
     Psbt.policy := Some single_policy |}.

(** The multisig signer for a transaction that pays the change script
    twice; the PSBT describes the first of the two outputs only. *)
Definition signer_change_twice : Psbt.PSBTSigner :=
  {| Psbt.wallet := multisig_wallet; Psbt.base_encoding := None; Psbt.ur_type := None;
     Psbt.qr_format := FORMAT_NONE;
     Psbt.psbt :=
       {| psbt_tx := {| vin := sample_vin;
                        vout := [multisig_change_txout; multisig_change_txout] |};
          psbt_inputs := [multisig_input];
          psbt_outputs := [multisig_change_scope; Psbt.blank_scope];
          psbt_xpubs := multisig_xpubs |};
     Psbt.policy := Some multisig_policy |}.

(** The value a call returned, if it returned. *)
Definition returned {A : Type} (r : result A) : option A :=
  match r with Ok a => Some a | Raise _ => None end.

(** How many outputs are in the spend, self-transfer and change lists. *)
Definition class_counts (r : result Psbt.outputs_locals) : option (nat * nat * nat) :=
  option_map (fun st => (List.length (Psbt.spend_list st),
                         List.length (Psbt.self_transfer_list st),
                         List.length (Psbt.change_list st)))
             (returned r).

#[export] Instance key_collaborators : KeyCollaborators :=
  Build_KeyCollaborators
    (fun k version =>
       match version with
       | Some v => hex v +s+ ":" +s+ hex k
       | None => "xpub" +s+ hex k
       end)
    (fun seed n => if n =? 0 then 0 else seed mod n).

(** ** A legacy (p2pkh) wallet paying to one of its own addresses *)

Definition legacy_path : list Z := [h 44; h 1; h 0; 1; 0].

Definition legacy_txout : TxOut :=
  {| value := 39000;
     script_pubkey := p2pkh_of_hash (hash160 (hd_key (hd_derive root1 (PathList legacy_path)))) |}.

Definition legacy_policy : Psbt.Policy :=
  {| Psbt.policy_type := "p2pkh"; Psbt.policy_m := None; Psbt.policy_n := None;
     Psbt.policy_cosigners := None |}.

Definition legacy_signer : Psbt.PSBTSigner :=
  {| Psbt.wallet := single_wallet; Psbt.base_encoding := None; Psbt.ur_type := None;
     Psbt.qr_format := FORMAT_NONE;
     Psbt.psbt :=
       {| psbt_tx := {| vin := sample_vin; vout := [legacy_txout] |};
          psbt_inputs :=
            [ {| witness_utxo := Some {| value := 40000;
                                         script_pubkey := script_pubkey legacy_txout |};
                 witness_script := None; redeem_script := None;
                 bip32_derivations := [derivation_of root1 legacy_path];
                 partial_sigs := [] |} ];
          psbt_outputs :=
            [ {| witness_utxo := None; witness_script := None; redeem_script := None;
                 bip32_derivations := [derivation_of root1 legacy_path];
                 partial_sigs := [] |} ];
          psbt_xpubs := [] |};
     Psbt.policy := Some legacy_policy |}.

(** The first element of a returned list. *)
Definition first_of {A : Type} (r : result (list A)) : option A :=
  match r with Ok l => hd_error l | Raise _ => None end.

End Sample.

(** * Properties *)

(** ** The result monad, comparisons and strings *)

Lemma bind_ok {A B : Type} (r : result A) (k : A -> result B) (b : B) :
  bind r k = Ok b -> exists a, r = Ok a /\ k a = Ok b.
Proof. destruct r as [a|e]; simpl; [eauto | discriminate]. Qed.

Lemma list_eqb_eq {A : Type} (eqb : A -> A -> bool) :
  (forall x y, eqb x y = true <-> x = y) ->
  forall a b, list_eqb eqb a b = true <-> a = b.
Proof.
  intros Heq a; induction a as [|x a IH]; intros [|y b]; simpl; split;
    try discriminate; try reflexivity.
  - intros Hb. apply andb_true_iff in Hb as [Hx Ha].
    apply Heq in Hx. apply IH in Ha. congruence.
  - intros [= -> ->]. apply andb_true_iff. split; [now apply Heq | now apply IH].
Qed.

Lemma option_eqb_eq {A : Type} (eqb : A -> A -> bool) :
  (forall x y, eqb x y = true <-> x = y) ->
  forall a b, option_eqb eqb a b = true <-> a = b.
Proof.
  intros Heq [x|] [y|]; simpl; split; try discriminate; try reflexivity.
  - intros Hx. apply Heq in Hx. congruence.
  - intros [= ->]. now apply Heq.
Qed.

Lemma byte_eqb_eq (x y : byte) : Byte.eqb x y = true <-> x = y.
Proof. split; [apply Byte.byte_dec_bl | apply Byte.byte_dec_lb]. Qed.

Lemma bytes_eqb_eq (a b : bytes) : bytes_eqb a b = true <-> a = b.
Proof. apply list_eqb_eq, byte_eqb_eq. Qed.

Lemma bytes_eqb_refl (a : bytes) : bytes_eqb a a = true.
Proof. now apply bytes_eqb_eq. Qed.

Lemma policy_eqb_eq (p q : Psbt.Policy) : Psbt.policy_eqb p q = true <-> p = q.
Proof.
  destruct p as [pt pm pn pc], q as [qt qm qn qc]; unfold Psbt.policy_eqb; simpl.
  rewrite !andb_true_iff, String.eqb_eq.
  rewrite !(option_eqb_eq Z.eqb Z.eqb_eq).
  rewrite (option_eqb_eq _ (list_eqb_eq _ String.eqb_eq)).
  split; [intros [[[-> ->] ->] ->]; reflexivity | intros [= -> -> -> ->]; auto].
Qed.

Lemma policy_eqb_neq (p q : Psbt.Policy) : Psbt.policy_eqb p q = false <-> p <> q.
Proof.
  split.
  - intros Hf Heq. apply policy_eqb_eq in Heq. congruence.
  - intros Hne. destruct (Psbt.policy_eqb p q) eqn:E; [|reflexivity].
    apply policy_eqb_eq in E. contradiction.
Qed.

Lemma append_empty_r (s : string) : s +s+ "" = s.
Proof. induction s as [|c s IH]; simpl; [reflexivity | now rewrite IH]. Qed.

Lemma append_assoc (a b c : string) : (a +s+ b) +s+ c = a +s+ (b +s+ c).
Proof. induction a as [|x a IH]; simpl; [reflexivity | now rewrite IH]. Qed.

Lemma str_contains_cons (needle : string) (c : ascii) (hay : string) :
  str_contains needle (String c hay)
  = String.prefix needle (String c hay) || str_contains needle hay.
Proof. reflexivity. Qed.

Lemma prefix_h_cons (c : ascii) (s : string) :
  String.prefix "h" (String c s) = if ascii_dec "h" c then true else false.
Proof.
  change (String.prefix "h" (String c s))
    with (if ascii_dec "h" c then String.prefix "" s else false).
  destruct (ascii_dec "h" c); [now destruct s | reflexivity].
Qed.

Lemma str_replace_h_cons (new : string) (c : ascii) (s : string) :
  str_replace "h" new (String c s)
  = if ascii_dec "h" c then new +s+ str_replace "h" new s
    else String c (str_replace "h" new s).
Proof.
  unfold str_replace.
  change (str_replace_aux "h" new 0 (String c s))
    with (if String.prefix "h" (String c s)
          then new +s+ str_replace_aux "h" new 0 s
          else String c (str_replace_aux "h" new 0 s)).
  rewrite prefix_h_cons. now destruct (ascii_dec "h" c).
Qed.

(** Replacing [h] leaves a prefix without [h] as it is. *)
Lemma str_replace_h_prefix (new s1 s2 : string) :
  str_contains "h" s1 = false ->
  str_replace "h" new (s1 +s+ s2) = s1 +s+ str_replace "h" new s2.
Proof.
  induction s1 as [|c s1 IH]; intros Hno; [reflexivity|].
  rewrite str_contains_cons, prefix_h_cons in Hno.
  apply orb_false_iff in Hno as [Hc Hrest].
  change (String c s1 +s+ s2) with (String c (s1 +s+ s2)).
  rewrite str_replace_h_cons.
  destruct (ascii_dec "h" c); [discriminate|].
  now rewrite IH.
Qed.

Lemma str_replace_h_here (new s : string) :
  str_replace "h" new (String "h" s) = new +s+ str_replace "h" new s.
Proof. rewrite str_replace_h_cons. now destruct (ascii_dec "h" "h"). Qed.

Lemma no_h_cons (c : ascii) (s : string) :
  c <> "h"%char -> str_contains "h" s = false -> str_contains "h" (String c s) = false.
Proof.
  intros Hc Hs. rewrite str_contains_cons, prefix_h_cons, Hs.
  destruct (ascii_dec "h" c); [congruence | reflexivity].
Qed.

Lemma uint_string_no_h (d : Decimal.uint) :
  str_contains "h" (NilEmpty.string_of_uint d) = false.
Proof.
  induction d; [reflexivity | ..]; cbn [NilEmpty.string_of_uint];
    apply no_h_cons; (discriminate || assumption).
Qed.

Lemma str_of_int_no_h (z : Z) : str_contains "h" (str_of_int z) = false.
Proof.
  unfold str_of_int, NilZero.string_of_int, NilZero.string_of_uint.
  destruct (Z.to_int z) as [d|d].
  - destruct d; try reflexivity; apply uint_string_no_h.
  - apply no_h_cons; [discriminate|].
    destruct d; try reflexivity; apply uint_string_no_h.
Qed.

(** ** key.py: default derivation paths *)

Lemma pct_format_percent_s (s : string) : pct_format "%s" [ArgStr s] = Ok s.
Proof. simpl. now rewrite append_empty_r. Qed.

(** The three-level path [m/<purpose>h/<c>h/<a>h] shown with quotes. *)
Lemma derivation_str_three_levels (purpose : string) (c a : Z) :
  str_contains "h" purpose = false ->
  str_replace "h" "'"
    ("m/" +s+ purpose +s+ "h/" +s+ str_of_int c +s+ "h/" +s+ str_of_int a +s+ "h")
  = "m/" +s+ purpose +s+ "'/" +s+ str_of_int c +s+ "'/" +s+ str_of_int a +s+ "'".
Proof.
  intros Hp.
  rewrite (str_replace_h_prefix _ "m/") by reflexivity.
  rewrite (str_replace_h_prefix _ purpose) by exact Hp.
  change ("h/" +s+ ?x) with (String "h" ("/" +s+ x)).
  rewrite str_replace_h_here, (str_replace_h_prefix _ "/") by reflexivity.
  rewrite (str_replace_h_prefix _ (str_of_int c)) by apply str_of_int_no_h.
  change ("h/" +s+ ?x) with (String "h" ("/" +s+ x)).
  rewrite str_replace_h_here, (str_replace_h_prefix _ "/") by reflexivity.
  rewrite (str_replace_h_prefix _ (str_of_int a)) by apply str_of_int_no_h.
  reflexivity.
Qed.

Lemma derivation_str_four_levels (purpose : string) (c a : Z) :
  str_contains "h" purpose = false ->
  str_replace "h" "'"
    ("m/" +s+ purpose +s+ "h/" +s+ str_of_int c +s+ "h/" +s+ str_of_int a +s+ "h/2h")
  = "m/" +s+ purpose +s+ "'/" +s+ str_of_int c +s+ "'/" +s+ str_of_int a +s+ "'/2'".
Proof.
  intros Hp.
  rewrite (str_replace_h_prefix _ "m/") by reflexivity.
  rewrite (str_replace_h_prefix _ purpose) by exact Hp.
  change ("h/" +s+ ?x) with (String "h" ("/" +s+ x)).
  rewrite str_replace_h_here, (str_replace_h_prefix _ "/") by reflexivity.
  rewrite (str_replace_h_prefix _ (str_of_int c)) by apply str_of_int_no_h.
  change ("h/" +s+ ?x) with (String "h" ("/" +s+ x)).
  rewrite str_replace_h_here, (str_replace_h_prefix _ "/") by reflexivity.
  rewrite (str_replace_h_prefix _ (str_of_int a)) by apply str_of_int_no_h.
  reflexivity.
Qed.

(** C8. For every network coin type [c] and account [a], the key that
    [Key.__init__] constructs has the default derivation path
    [m/44'/c'/a'] for p2pkh, [m/49'/c'/a'] for p2sh-p2wpkh, [m/84'/c'/a']
    for p2wpkh and [m/86'/c'/a'] for p2tr, and [m/48'/c'/a'/2'] whenever
    the multisig flag is set, whatever script type is passed.  The path is
    stored with the hardened marker [h] and shown by [derivation_str] with
    the marker [']. *)
Theorem default_derivation_paths `{Collaborators}
    (mnemonic passphrase : string) (network : Network) (account : Z) :
  let c := str_of_int (net_bip32 network) in
  let a := str_of_int account in
  let key multisig script_type :=
    Key.__init__ mnemonic multisig network passphrase account script_type in
  Key.has_default_path (key false "p2pkh")
    ("m/44h/" +s+ c +s+ "h/" +s+ a +s+ "h") ("m/44'/" +s+ c +s+ "'/" +s+ a +s+ "'")
  /\ Key.has_default_path (key false "p2sh-p2wpkh")
    ("m/49h/" +s+ c +s+ "h/" +s+ a +s+ "h") ("m/49'/" +s+ c +s+ "'/" +s+ a +s+ "'")
  /\ Key.has_default_path (key false "p2wpkh")
    ("m/84h/" +s+ c +s+ "h/" +s+ a +s+ "h") ("m/84'/" +s+ c +s+ "'/" +s+ a +s+ "'")
  /\ Key.has_default_path (key false "p2tr")
    ("m/86h/" +s+ c +s+ "h/" +s+ a +s+ "h") ("m/86'/" +s+ c +s+ "'/" +s+ a +s+ "'")
  /\ forall script_type,
      Key.has_default_path (key true script_type)
        ("m/48h/" +s+ c +s+ "h/" +s+ a +s+ "h/2h")
        ("m/48'/" +s+ c +s+ "'/" +s+ a +s+ "'/2'").
Proof.
  intros c a key.
  assert (Hsingle : forall st purpose,
             dict_get String.eqb Key.SINGLESIG_SCRIPT_PURPOSE st = Some purpose ->
             str_contains "h" (str_of_int purpose) = false ->
             Key.has_default_path (key false st)
               ("m/" +s+ str_of_int purpose +s+ "h/" +s+ c +s+ "h/" +s+ a +s+ "h")
               ("m/" +s+ str_of_int purpose +s+ "'/" +s+ c +s+ "'/" +s+ a +s+ "'")).
  { intros st purpose Hst Hp. unfold Key.has_default_path, key, Key.__init__.
    cbn [negb]. unfold Key.get_default_derivation. rewrite Hst.
    eexists; split; [reflexivity|]. split; [reflexivity|].
    unfold Key.derivation_str. cbv [Key.key_derivation].
    rewrite pct_format_percent_s. cbv [bind]. f_equal.
    apply derivation_str_three_levels, Hp. }
  repeat split.
  - apply (Hsingle "p2pkh" 44); reflexivity.
  - apply (Hsingle "p2sh-p2wpkh" 49); reflexivity.
  - apply (Hsingle "p2wpkh" 84); reflexivity.
  - apply (Hsingle "p2tr" 86); reflexivity.
  - intros st. unfold Key.has_default_path, key, Key.__init__.
    eexists; split; [reflexivity|]. split; [reflexivity|].
    unfold Key.derivation_str. cbv [Key.key_derivation].
    rewrite pct_format_percent_s. cbv [bind]. f_equal.
    apply (derivation_str_four_levels "48"). reflexivity.
Qed.

(** ** key.py: the candidates for the final word *)

(** A loop that appends one element per turn. *)
Lemma for_each_collect {A B : Type} (body : list B -> A -> result (list B))
    (P : A -> B -> Prop) (l : list A) :
  (forall acc x, In x l -> exists y, body acc x = Ok (acc ++ [y]) /\ P x y) ->
  forall acc,
  exists ys, for_each body l acc = Ok (acc ++ ys) /\ Forall2 P l ys.
Proof.
  induction l as [|x l IH]; intros Hf acc.
  - exists []. simpl. rewrite app_nil_r. auto.
  - destruct (Hf acc x (or_introl eq_refl)) as (y & Hy & HP).
    destruct (IH (fun a z Hz => Hf a z (or_intror Hz)) (acc ++ [y])) as (ys & Hys & HF).
    exists (y :: ys). simpl. rewrite Hy. simpl. rewrite Hys, <- app_assoc. auto.
Qed.

Lemma map_result_Forall2 {A B : Type} (f : A -> result B) (P : A -> B -> Prop) (l : list A) :
  (forall x, In x l -> exists y, f x = Ok y /\ P x y) ->
  exists ys, map_result f l = Ok ys /\ Forall2 P l ys.
Proof.
  induction l as [|x l IH]; intros Hf.
  - exists []. auto.
  - destruct (Hf x (or_introl eq_refl)) as (y & Hy & HP).
    destruct (IH (fun z Hz => Hf z (or_intror Hz))) as (ys & Hys & HF).
    exists (y :: ys). simpl. rewrite Hy. simpl. rewrite Hys. auto.
Qed.

Lemma map_result_app {A B : Type} (f : A -> result B) (l1 l2 : list A) (y1 y2 : list B) :
  map_result f l1 = Ok y1 -> map_result f l2 = Ok y2 ->
  map_result f (l1 ++ l2) = Ok (y1 ++ y2).
Proof.
  revert y1. induction l1 as [|x l1 IH]; intros y1 H1 H2.
  - simpl in H1. injection H1 as <-. exact H2.
  - simpl in H1. apply bind_ok in H1 as (y & Hy & H1).
    apply bind_ok in H1 as (ys & Hys & H1). injection H1 as <-.
    simpl. rewrite Hy. simpl. rewrite (IH ys Hys H2). reflexivity.
Qed.

Lemma range_spec (n i : Z) : In i (range n) <-> 0 <= i < n.
Proof.
  unfold range. rewrite in_map_iff. split.
  - intros (k & <- & Hk). apply in_seq in Hk. lia.
  - intros Hi. exists (Z.to_nat i). split; [lia|]. apply in_seq. lia.
Qed.

Lemma range_length (n : Z) : 0 <= n -> len (range n) = n.
Proof. intros Hn. unfold len, range. rewrite length_map, length_seq. lia. Qed.

Lemma len_app {A : Type} (l1 l2 : list A) : len (l1 ++ l2) = len l1 + len l2.
Proof. unfold len. rewrite length_app. lia. Qed.

Lemma len_cons {A : Type} (x : A) (l : list A) : len (x :: l) = len l + 1.
Proof. unfold len. change (List.length (x :: l)) with (S (List.length l)). lia. Qed.

Lemma len_nonneg {A : Type} (l : list A) : 0 <= len l.
Proof. unfold len. lia. Qed.

Lemma list_index_nonneg {A : Type} (l : list A) (i : Z) :
  0 <= i ->
  list_index l i = match nth_error l (Z.to_nat i) with
                   | Some x => Ok x
                   | None => Raise (IndexError "list index out of range")
                   end.
Proof.
  intros Hi. unfold list_index.
  destruct (i <? 0) eqn:E; [apply Z.ltb_lt in E; lia|]. now rewrite E.
Qed.

Lemma from_bytes_big_bound (b : bytes) :
  0 <= from_bytes_big b < 256 ^ len b.
Proof.
  unfold from_bytes_big.
  assert (Hgen : forall acc, 0 <= acc ->
            0 <= fold_left (fun acc x => acc * 256 + Z.of_N (Byte.to_N x)) b acc
            < (acc + 1) * 256 ^ len b).
  { induction b as [|x b IH]; intros acc Hacc.
    - simpl. unfold len. simpl. lia.
    - cbn [fold_left]. pose proof (Byte.to_N_bounded x) as Hx.
      assert (0 <= Z.of_N (Byte.to_N x) <= 255) by lia.
      specialize (IH (acc * 256 + Z.of_N (Byte.to_N x)) ltac:(lia)).
      rewrite len_cons, Z.pow_add_r by (pose proof (len_nonneg b); lia).
      assert (0 < 256 ^ len b) by (apply Z.pow_pos_nonneg; [lia | apply len_nonneg]).
      nia. }
  specialize (Hgen 0 ltac:(lia)). lia.
Qed.

Lemma to_bytes_big_ok (n length : Z) :
  0 <= n < 2 ^ (8 * length) -> exists b, to_bytes_big n length = Ok b.
Proof.
  intros Hn. unfold to_bytes_big.
  replace (n <? 0) with false by (symmetry; apply Z.ltb_ge; lia).
  replace (2 ^ (8 * length) <=? n) with false by (symmetry; apply Z.leb_gt; lia).
  simpl. eauto.
Qed.

Section FinalWord.
Context `{Collaborators}.
Hypothesis WORDLIST_length : List.length WORDLIST = 2048%nat.
Hypothesis WORDLIST_NoDup : NoDup WORDLIST.
Hypothesis sha256_length : forall b, List.length (sha256 b) = 32%nat.

Lemma wordlist_index_from_nth (l : list string) (k : nat) (x : string) (i : Z) :
  NoDup l -> nth_error l k = Some x ->
  Key.wordlist_index_from l x i = Ok (i + Z.of_nat k).
Proof.
  revert k i. induction l as [|w l IH]; intros k i Hnd Hk.
  - destruct k; discriminate.
  - inversion Hnd as [|? ? Hnotin Hnd']; subst. destruct k as [|k]; simpl in *.
    + injection Hk as ->. rewrite String.eqb_refl. f_equal. lia.
    + destruct (String.eqb w x) eqn:E.
      * apply String.eqb_eq in E. subst. apply nth_error_In in Hk. contradiction.
      * rewrite (IH k (i + 1) Hnd' Hk). f_equal. lia.
Qed.

Lemma WORDLIST_index_in (x : string) :
  In x WORDLIST -> exists i, Key.WORDLIST_index x = Ok i /\ 0 <= i < 2048.
Proof.
  intros Hin. apply In_nth_error in Hin as (k & Hk).
  exists (Z.of_nat k). unfold Key.WORDLIST_index.
  rewrite (wordlist_index_from_nth _ k x 0 WORDLIST_NoDup Hk). split; [reflexivity|].
  assert (k < List.length WORDLIST)%nat by (apply nth_error_Some; congruence). lia.
Qed.

Lemma WORDLIST_at (i : Z) :
  0 <= i < 2048 ->
  exists w, list_index WORDLIST i = Ok w /\ Key.WORDLIST_index w = Ok i.
Proof.
  intros Hi. rewrite list_index_nonneg by lia.
  destruct (nth_error WORDLIST (Z.to_nat i)) as [w|] eqn:E.
  - exists w. split; [reflexivity|]. unfold Key.WORDLIST_index.
    rewrite (wordlist_index_from_nth _ _ w 0 WORDLIST_NoDup E). f_equal. lia.
  - apply nth_error_None in E. lia.
Qed.

Lemma accu_bound (indices : list Z) :
  Forall (fun i => 0 <= i < 2048) indices ->
  forall acc n, 0 <= acc < 2 ^ n -> 0 <= n ->
  0 <= fold_left (fun a i => a * 2048 + i) indices acc < 2 ^ (n + 11 * len indices).
Proof.
  induction 1 as [|i l Hi Hl IH]; intros acc n Hacc Hn.
  - simpl. unfold len. simpl. now rewrite Z.add_0_r.
  - cbn [fold_left]. replace (n + 11 * len (i :: l)) with ((n + 11) + 11 * len l)
      by (rewrite len_cons; lia).
    apply IH; [|lia]. rewrite Z.pow_add_r by lia. change (2 ^ 11) with 2048. nia.
Qed.

Lemma accu_shiftl (indices : list Z) (acc : Z) :
  fold_left (fun accu index => Z.shiftl accu 11 + index) indices acc
  = fold_left (fun a i => a * 2048 + i) indices acc.
Proof.
  revert acc. induction indices as [|i l IH]; intros acc; [reflexivity|].
  cbn [fold_left]. rewrite IH, Z.shiftl_mul_pow2 by lia. reflexivity.
Qed.

(** The search for [n] known words, with [T], [N] and [C] the values of
    [len_target], [len_needed] and [len_cksum]. *)
Lemma final_word_candidates_at (n T N C : Z) (words : list string) :
  len words = n ->
  negb (n =? 11) && negb (n =? 23) = false ->
  (n * 11 + 11) / 33 * 32 = T -> T - n * 11 = N -> T / 32 = C ->
  11 * (n + 1) / 33 = C -> (11 * (n + 1) - C) / 8 = T / 8 -> 8 * (T / 8) = T ->
  0 <= N -> 0 < C <= 256 -> N + C = 11 ->
  Forall (fun w => In w WORDLIST) words ->
  exists candidates,
    Key.get_final_word_candidates words = Ok candidates
    /\ len candidates = 2 ^ N
    /\ Forall (fun w => Key.mnemonic_is_valid (words ++ [w]) = true) candidates.
Proof.
  intros Hn Hcount HT HN HC HC' HT8 HT8' HN0 HC0 HNC Hwords.
  destruct (map_result_Forall2 Key.WORDLIST_index
              (fun w i => Key.WORDLIST_index w = Ok i /\ 0 <= i < 2048) words)
    as (indices & Hindices & Hall).
  { intros w Hw. rewrite Forall_forall in Hwords.
    destruct (WORDLIST_index_in w (Hwords w Hw)) as (i & Hi & Hb). eauto. }
  assert (Hlen : len indices = n).
  { apply Forall2_length in Hall. unfold len in *. lia. }
  assert (Hbounds : Forall (fun i => 0 <= i < 2048) indices).
  { clear -Hall. induction Hall as [|w i ws ixs [_ Hi] _ IH]; constructor; assumption. }
  pose proof (accu_bound indices Hbounds 0 0 ltac:(simpl; lia) ltac:(lia)) as Haccu.
  rewrite Hlen, Z.add_0_l in Haccu.
  unfold Key.get_final_word_candidates.
  rewrite Hn, Hcount, Hindices. cbn [bind]. cbv zeta.
  rewrite accu_shiftl, HT, HN, HC.
  set (accu := fold_left (fun a i => a * 2048 + i) indices 0) in *.
  assert (H2048 : 2 ^ N * 2 ^ C = 2048).
  { rewrite <- Z.pow_add_r, HNC by lia. reflexivity. }
  assert (HTN : 2 ^ (11 * n) * 2 ^ N = 2 ^ (8 * (T / 8))).
  { rewrite HT8', <- Z.pow_add_r by lia. f_equal. lia. }
  assert (H2N : 0 < 2 ^ N) by (apply Z.pow_pos_nonneg; lia).
  assert (H2C : 0 < 2 ^ C) by (apply Z.pow_pos_nonneg; lia).
  match goal with
  | |- context [for_each ?body _ _] =>
      destruct (for_each_collect body
                  (fun _ w => Key.mnemonic_is_valid (words ++ [w]) = true)
                  (range (2 ^ N))) with (acc := @nil string) as (ys & Hys & Hvalid)
  end.
  - intros acc i Hi. apply range_spec in Hi.
    rewrite Z.shiftl_mul_pow2 by lia.
    destruct (to_bytes_big_ok (accu * 2 ^ N + i) (T / 8)) as (eb & Heb);
      [rewrite <- HTN; nia|].
    rewrite Heb. cbn [bind].
    rewrite Z.shiftr_div_pow2, Z.shiftl_mul_pow2 by lia.
    set (cksum := from_bytes_big (sha256 eb) / 2 ^ (256 - C)).
    assert (Hck : 0 <= cksum < 2 ^ C).
    { pose proof (from_bytes_big_bound (sha256 eb)) as Hb.
      unfold len in Hb. rewrite sha256_length in Hb.
      change (256 ^ Z.of_nat 32) with (2 ^ 256) in Hb.
      assert (0 < 2 ^ (256 - C)) by (apply Z.pow_pos_nonneg; lia).
      unfold cksum. split; [apply Z.div_pos; lia|].
      apply Z.div_lt_upper_bound; [lia|].
      rewrite <- Z.pow_add_r by lia. replace (256 - C + C) with 256 by lia. lia. }
    destruct (WORDLIST_at (i * 2 ^ C + cksum)) as (w & Hw & Hidx); [nia|].
    rewrite Hw. cbn [bind]. exists w. split; [reflexivity|].
    unfold Key.mnemonic_is_valid.
    rewrite (map_result_app _ words [w] indices [i * 2 ^ C + cksum] Hindices)
      by (simpl; rewrite Hidx; reflexivity).
    rewrite fold_left_app. cbn [fold_left]. fold accu.
    rewrite len_app, Hn. change (len [w]) with 1. rewrite HC', HT8.
    replace (accu * 2048 + (i * 2 ^ C + cksum))
      with ((accu * 2 ^ N + i) * 2 ^ C + cksum) by nia.
    rewrite Z.div_add_l, (Z.div_small cksum), Z.add_0_r by lia.
    rewrite Heb. rewrite Z.add_comm, Z.mod_add, Z.mod_small by lia.
    fold cksum. apply Z.eqb_refl.
  - exists ys. rewrite Hys. split; [reflexivity|]. split.
    + apply Forall2_length in Hvalid. unfold len. rewrite <- Hvalid.
      apply range_length. lia.
    + clear -Hvalid. induction Hvalid; constructor; assumption.
Qed.

End FinalWord.

(** C4. Given a word list of 2048 distinct words and a SHA-256 with 32-byte
    digests: for every list of exactly 11 or 23 words of the list,
    [get_final_word_candidates] returns exactly [2 ^ needed_bits] words,
    128 for 11 words and 8 for 23 words, and each of them appended to the
    input gives a mnemonic whose checksum field is the top bits of the
    SHA-256 of its entropy; for any other number of words it raises
    [ValueError("must provide 11 or 23 words")]. *)
Theorem final_word_candidates_valid `{Collaborators} :
  List.length WORDLIST = 2048%nat ->
  NoDup WORDLIST ->
  (forall b, List.length (sha256 b) = 32%nat) ->
  forall words : list string,
    (len words <> 11 /\ len words <> 23 ->
     Key.get_final_word_candidates words
     = Raise (ValueError "must provide 11 or 23 words"))
    /\ (len words = 11 \/ len words = 23 ->
        Forall (fun w => In w WORDLIST) words ->
        exists candidates,
          Key.get_final_word_candidates words = Ok candidates
          /\ len candidates = 2 ^ Key.needed_bits (len words)
          /\ len candidates = (if len words =? 11 then 128 else 8)
          /\ Forall (fun w => Key.mnemonic_is_valid (words ++ [w]) = true) candidates).
Proof.
  intros Hlen Hnodup Hsha words. split.
  - intros [H11 H23]. unfold Key.get_final_word_candidates.
    apply Z.eqb_neq in H11, H23. now rewrite H11, H23.
  - intros [Hn|Hn] Hwords.
    + destruct (final_word_candidates_at Hlen Hnodup Hsha 11 128 7 4 words)
        as (cs & Hcs & Hcount & Hvalid); try reflexivity; try lia; try assumption.
      exists cs. rewrite Hn. repeat split; assumption.
    + destruct (final_word_candidates_at Hlen Hnodup Hsha 23 256 3 8 words)
        as (cs & Hcs & Hcount & Hvalid); try reflexivity; try lia; try assumption.
      exists cs. rewrite Hn. repeat split; assumption.
Qed.

Lemma distinct_NoDup (l : list string) : distinct l = true -> NoDup l.
Proof.
  induction l as [|x l IH]; simpl; intros Hd; constructor.
  - apply andb_true_iff in Hd as [Hx _]. intros Hin.
    apply negb_true_iff in Hx.
    assert (existsb (String.eqb x) l = true)
      by (apply existsb_exists; exists x; split; [assumption | apply String.eqb_refl]).
    congruence.
  - apply andb_true_iff in Hd as [_ Hl]. auto.
Qed.

Lemma sha256_round_length (st : list Z * list Z) (k : Z) :
  List.length (fst st) = 8%nat -> List.length (fst (SHA256.round st k)) = 8%nat.
Proof.
  destruct st as [v w].
  destruct v as [|a [|b [|c [|d [|e [|f [|g [|h [|x v]]]]]]]]]; simpl; intros Hv;
    try discriminate; reflexivity.
Qed.

Lemma sha256_rounds_length (ks : list Z) (st : list Z * list Z) :
  List.length (fst st) = 8%nat ->
  List.length (fst (fold_left SHA256.round ks st)) = 8%nat.
Proof.
  revert st. induction ks as [|k ks IH]; intros st Hst; [exact Hst|].
  cbn [fold_left]. apply IH, sha256_round_length, Hst.
Qed.

Lemma sha256_compress_length (h block : list Z) :
  List.length h = 8%nat -> List.length (SHA256.compress h block) = 8%nat.
Proof.
  intros Hh. unfold SHA256.compress.
  rewrite length_map, length_combine, Hh, sha256_rounds_length by exact Hh.
  reflexivity.
Qed.

Lemma sha256_digest_length (msg : bytes) : List.length (SHA256.digest msg) = 32%nat.
Proof.
  unfold SHA256.digest.
  set (bs := SHA256.blocks _ _).
  assert (Hfold : forall h, List.length h = 8%nat ->
                            List.length (fold_left SHA256.compress bs h) = 8%nat).
  { induction bs as [|b bs IH]; intros h Hh; [exact Hh|].
    cbn [fold_left]. apply IH, sha256_compress_length, Hh. }
  specialize (Hfold SHA256.H0 eq_refl).
  destruct (fold_left SHA256.compress bs SHA256.H0)
    as [|a [|b [|c [|d [|e [|f [|g [|h [|x v]]]]]]]]]; try discriminate.
  reflexivity.
Qed.

Lemma sample_word_in (i : Z) :
  0 <= i < 2048 -> In ("w" +s+ str_of_int i) Sample.WORDLIST.
Proof.
  intros Hi. unfold Sample.WORDLIST. apply in_map_iff. exists i.
  split; [reflexivity | now apply range_spec].
Qed.

Lemma sample_first_candidate :
  Sample.first_of (Key.get_final_word_candidates (H := Sample.collaborators)
                     (repeat "w0" 11)) = Some "w3".
Proof. vm_compute. reflexivity. Qed.

Lemma sample_WORDLIST_NoDup : NoDup Sample.WORDLIST.
Proof. apply distinct_NoDup. vm_compute. reflexivity. Qed.

(** The property at the sample word list and SHA-256, for eleven times the
    first word: the first candidate has index 3. *)
Lemma final_word_candidates_valid_witness :
  let words := repeat "w0" 11 in
  List.length Sample.WORDLIST = 2048%nat
  /\ NoDup Sample.WORDLIST
  /\ (forall b, List.length (SHA256.digest b) = 32%nat)
  /\ Forall (fun w => In w Sample.WORDLIST) words
  /\ exists candidates,
       Key.get_final_word_candidates (H := Sample.collaborators) words = Ok candidates
       /\ len candidates = 128
       /\ hd_error candidates = Some "w3"
       /\ Forall (fun w => Key.mnemonic_is_valid (H := Sample.collaborators)
                             (words ++ [w]) = true) candidates.
Proof.
  intros words. subst words.
  assert (Hlen : List.length Sample.WORDLIST = 2048%nat) by (vm_compute; reflexivity).
  pose proof sample_WORDLIST_NoDup as Hnodup.
  assert (Hwords : Forall (fun w => In w Sample.WORDLIST) (repeat "w0" 11))
    by (repeat constructor; apply (sample_word_in 0); lia).
  split; [exact Hlen|]. split; [exact Hnodup|].
  split; [exact sha256_digest_length|]. split; [exact Hwords|].
  destruct (final_word_candidates_valid (H := Sample.collaborators)
              Hlen Hnodup sha256_digest_length (repeat "w0" 11)) as [_ Hfound].
  destruct (Hfound (or_introl eq_refl) Hwords) as (cs & Hcs & _ & Hcount & Hvalid).
  exists cs. split; [exact Hcs|]. split; [exact Hcount|]. split; [|exact Hvalid].
  pose proof sample_first_candidate as Hrun.
  rewrite Hcs in Hrun. exact Hrun.
Defined.

(** ** psbt.py: [get_cosigners] *)

Lemma insert_sorted_Permutation (x : string) (l : list string) :
  Permutation (x :: l) (insert_sorted x l).
Proof.
  induction l as [|y l IH]; simpl; [reflexivity|].
  destruct (String.leb x y); [reflexivity|].
  rewrite perm_swap. now constructor.
Qed.

Lemma sorted_Permutation (l : list string) : Permutation l (sorted l).
Proof.
  induction l as [|x l IH]; simpl; [constructor|].
  rewrite <- insert_sorted_Permutation. now constructor.
Qed.

Lemma insert_sorted_HdRel (a x : string) (l : list string) :
  str_le a x -> HdRel str_le a l -> HdRel str_le a (insert_sorted x l).
Proof.
  intros Hax Hal. destruct l as [|y l]; simpl; [now constructor|].
  destruct (String.leb x y); constructor; [assumption|].
  now inversion Hal.
Qed.

Lemma insert_sorted_Sorted (x : string) (l : list string) :
  Sorted str_le l -> Sorted str_le (insert_sorted x l).
Proof.
  induction 1 as [|y l Hl IH Hy]; simpl; [repeat constructor|].
  destruct (String.leb x y) eqn:E.
  - constructor; [now constructor | now constructor].
  - constructor; [exact IH|].
    apply insert_sorted_HdRel; [|exact Hy].
    destruct (String.leb_total x y) as [Hxy|Hyx]; [congruence | exact Hyx].
Qed.

Lemma sorted_Sorted (l : list string) : Sorted str_le (sorted l).
Proof.
  induction l as [|x l IH]; simpl; [constructor | now apply insert_sorted_Sorted].
Qed.

Lemma option_ok_inj {A : Type} (x y : A) : Ok x = Ok y -> x = y.
Proof. now intros [= ->]. Qed.

Lemma list_Z_eqb_eq (a b : list Z) : list_Z_eqb a b = true <-> a = b.
Proof. apply list_eqb_eq. exact Z.eqb_eq. Qed.

Section Cosigners.
Context `{Collaborators}.
Variable derivations : dict PubKey DerivationPath.
Variable xpubs : dict HDKey DerivationPath.

(** The fingerprint and the origin path of an xpub of the map are those of
    a derivation without its last two indexes. *)
Let same_origin (der : DerivationPath) (entry : HDKey * DerivationPath) : Prop :=
  fingerprint (snd entry) = fingerprint der
  /\ derivation (snd entry) = slice_to_minus2 (derivation der).

(** Moreover the xpub derives along the last two indexes to the pubkey. *)
Let derives_to (pubkey : PubKey) (der : DerivationPath)
    (entry : HDKey * DerivationPath) : Prop :=
  same_origin der entry
  /\ exists child,
       xpub_derive (fst entry) (slice_from_minus2 (derivation der)) = Some child
       /\ hd_key child = pubkey.

(** The library refuses to derive the xpub along the last two indexes. *)
Let derivation_fails (der : DerivationPath) (entry : HDKey * DerivationPath) : Prop :=
  same_origin der entry
  /\ xpub_derive (fst entry) (slice_from_minus2 (derivation der)) = None.

(** The turn of the loop of [get_cosigners] for one pubkey. *)
Let turn (cosigners : list string) (pubkey : PubKey) : result (list string) :=
  match dict_get bytes_eqb derivations pubkey with
  | None => Raise (ValueError "missing derivation")
  | Some der =>
      found <- Psbt.first_match pubkey der xpubs ;;
      match found with
      | Some xpub => Ok (cosigners ++ [to_base58 xpub])
      | None => Ok cosigners
      end
  end.

(** A pubkey whose turn does not raise. *)
Let scanned (pubkey : PubKey) : Prop :=
  exists der, dict_get bytes_eqb derivations pubkey = Some der
              /\ is_ok (Psbt.first_match pubkey der xpubs) = true.

Lemma xpub_matches_spec (pubkey : PubKey) (der : DerivationPath)
    (entry : HDKey * DerivationPath) :
  match Psbt.xpub_matches pubkey der entry with
  | Ok true => derives_to pubkey der entry
  | Ok false => ~ derives_to pubkey der entry /\ ~ derivation_fails der entry
  | Raise e => e = Psbt.library_error /\ derivation_fails der entry
  end.
Proof.
  destruct entry as [xpub origin]. unfold Psbt.xpub_matches.
  unfold derives_to, derivation_fails, same_origin. cbn [fst snd].
  destruct (bytes_eqb (fingerprint origin) (fingerprint der)) eqn:Ef.
  2: { split; intros [[Hf _] _]; apply bytes_eqb_eq in Hf; congruence. }
  apply bytes_eqb_eq in Ef.
  destruct (list_Z_eqb (derivation origin) (slice_to_minus2 (derivation der))) eqn:Ed.
  2: { split; intros [[_ Hd] _]; apply list_Z_eqb_eq in Hd; congruence. }
  apply list_Z_eqb_eq in Ed.
  destruct (xpub_derive xpub (slice_from_minus2 (derivation der))) as [child|] eqn:Ex;
    cbn [Psbt.lib_call bind].
  - destruct (bytes_eqb (hd_key child) pubkey) eqn:Ek.
    + apply bytes_eqb_eq in Ek. split; [auto|]. exists child. auto.
    + split.
      * intros [_ (child' & [= <-] & Hk)]. apply bytes_eqb_eq in Hk. congruence.
      * intros [_ Hnone]. discriminate.
  - split; [reflexivity | auto].
Qed.

Lemma first_match_spec (pubkey : PubKey) (der : DerivationPath)
    (xs : dict HDKey DerivationPath) :
  match Psbt.first_match pubkey der xs with
  | Ok (Some x) => exists origin, In (x, origin) xs /\ derives_to pubkey der (x, origin)
  | Ok None =>
      forall entry, In entry xs ->
                    ~ derives_to pubkey der entry /\ ~ derivation_fails der entry
  | Raise e =>
      e = Psbt.library_error /\ exists entry, In entry xs /\ derivation_fails der entry
  end.
Proof.
  induction xs as [|[x origin] xs IH]; cbn [Psbt.first_match].
  - intros entry [].
  - pose proof (xpub_matches_spec pubkey der (x, origin)) as Hm.
    destruct (Psbt.xpub_matches pubkey der (x, origin)) as [[|]|e]; cbn [bind].
    + exists origin. split; [now left | exact Hm].
    + destruct (Psbt.first_match pubkey der xs) as [[x'|]|e].
      * destruct IH as (origin' & Hin & Hd). exists origin'. split; [now right | exact Hd].
      * intros entry [<-|Hin]; [exact Hm | now apply IH].
      * destruct IH as (He & entry & Hin & Hf). split; [exact He|].
        exists entry. split; [now right | exact Hf].
    + destruct Hm as (He & Hf). split; [exact He|]. exists (x, origin).
      split; [now left | exact Hf].
Qed.

(** The loop over pubkeys none of whose turns raises. *)
Lemma cosigners_loop_found (pubkeys : list PubKey) (acc : list string) :
  (forall pk, In pk pubkeys -> scanned pk) ->
  for_each turn pubkeys acc
  = Ok (acc ++ map to_base58 (Psbt.matches_found derivations xpubs pubkeys)).
Proof.
  revert acc. induction pubkeys as [|pk pks IH]; intros acc Hall.
  - simpl. now rewrite app_nil_r.
  - cbn [for_each]. unfold turn at 1.
    unfold Psbt.matches_found. cbn [flat_map]. unfold Psbt.matching_xpub at 1.
    destruct (Hall pk (or_introl eq_refl)) as (der & Hder & Hok). rewrite Hder.
    destruct (Psbt.first_match pk der xpubs) as [[x|]|e]; [| |discriminate Hok];
      cbn [bind].
    + rewrite IH by (intros; apply Hall; now right).
      rewrite map_app, <- app_assoc. reflexivity.
    + rewrite IH by (intros; apply Hall; now right). reflexivity.
Qed.

(** The loop returns only if no turn raises, and otherwise raises the error
    of the first turn that does. *)
Lemma cosigners_loop_spec (pubkeys : list PubKey) (acc : list string) :
  match for_each turn pubkeys acc with
  | Ok _ => forall pk, In pk pubkeys -> scanned pk
  | Raise e =>
      (e = ValueError "missing derivation"
       /\ exists pk, In pk pubkeys /\ dict_get bytes_eqb derivations pk = None)
      \/ (e = Psbt.library_error
          /\ exists pk der entry,
               In pk pubkeys /\ dict_get bytes_eqb derivations pk = Some der
               /\ In entry xpubs /\ derivation_fails der entry)
  end.
Proof.
  revert acc. induction pubkeys as [|pk pks IH]; intros acc; cbn [for_each].
  - intros pk [].
  - unfold turn at 1.
    destruct (dict_get bytes_eqb derivations pk) as [der|] eqn:Eder.
    2: { cbn [bind]. left. split; [reflexivity|]. exists pk. split; [now left | exact Eder]. }
    pose proof (first_match_spec pk der xpubs) as Hfirst.
    destruct (Psbt.first_match pk der xpubs) as [found|e] eqn:Efirst; cbn [bind].
    2: { destruct Hfirst as (-> & entry & Hin & Hfail). right. split; [reflexivity|].
         exists pk, der, entry. split; [now left | auto]. }
    assert (Hpk : scanned pk) by (exists der; rewrite Efirst; auto).
    assert (Hrest : forall acc',
               match for_each turn pks acc' with
               | Ok _ => forall pk0, In pk0 (pk :: pks) -> scanned pk0
               | Raise e =>
                   (e = ValueError "missing derivation"
                    /\ exists pk0, In pk0 (pk :: pks)
                                   /\ dict_get bytes_eqb derivations pk0 = None)
                   \/ (e = Psbt.library_error
                       /\ exists pk0 der0 entry,
                            In pk0 (pk :: pks)
                            /\ dict_get bytes_eqb derivations pk0 = Some der0
                            /\ In entry xpubs /\ derivation_fails der0 entry)
               end).
    { intros acc'. specialize (IH acc'). destruct (for_each turn pks acc') as [l|e].
      - intros pk0 [<-|Hin]; [exact Hpk | now apply IH].
      - destruct IH as [(He & pk0 & Hin & Hnone)|(He & pk0 & der0 & entry & Hin & Hrest)].
        + left. split; [exact He|]. exists pk0. split; [now right | exact Hnone].
        + right. split; [exact He|]. exists pk0, der0, entry. split; [now right | exact Hrest]. }
    destruct found as [x|]; apply Hrest.
Qed.

Lemma cosigners_loop_ok (pubkeys : list PubKey) (acc l : list string) :
  for_each turn pubkeys acc = Ok l -> forall pk, In pk pubkeys -> scanned pk.
Proof.
  intros El. pose proof (cosigners_loop_spec pubkeys acc) as Hloop.
  rewrite El in Hloop. exact Hloop.
Qed.

Lemma cosigners_loop_raise (pubkeys : list PubKey) (acc : list string) (e : exn) :
  for_each turn pubkeys acc = Raise e ->
  (e = ValueError "missing derivation"
   /\ exists pk, In pk pubkeys /\ dict_get bytes_eqb derivations pk = None)
  \/ (e = Psbt.library_error
      /\ exists pk der entry,
           In pk pubkeys /\ dict_get bytes_eqb derivations pk = Some der
           /\ In entry xpubs /\ derivation_fails der entry).
Proof.
  intros El. pose proof (cosigners_loop_spec pubkeys acc) as Hloop.
  rewrite El in Hloop. exact Hloop.
Qed.

Lemma matches_found_length (pubkeys : list PubKey) :
  (List.length (Psbt.matches_found derivations xpubs pubkeys) <= List.length pubkeys)%nat.
Proof.
  induction pubkeys as [|pk pks IH]; [apply le_n|].
  unfold Psbt.matches_found in *. cbn [flat_map]. rewrite length_app.
  destruct (Psbt.matching_xpub derivations xpubs pk); simpl; lia.
Qed.

(** When as many matches are found as there are pubkeys, each pubkey has
    its own. *)
Lemma matches_found_all (pubkeys : list PubKey) :
  (forall pk, In pk pubkeys -> scanned pk) ->
  List.length (Psbt.matches_found derivations xpubs pubkeys) = List.length pubkeys ->
  Forall2 (fun pk x =>
             exists der origin,
               dict_get bytes_eqb derivations pk = Some der
               /\ In (x, origin) xpubs
               /\ derives_to pk der (x, origin))
          pubkeys (Psbt.matches_found derivations xpubs pubkeys).
Proof.
  induction pubkeys as [|pk pks IH]; intros Hall Hlen; [constructor|].
  pose proof (matches_found_length pks) as Hle.
  unfold Psbt.matches_found in *. cbn [flat_map] in *. rewrite length_app in Hlen.
  unfold Psbt.matching_xpub at 1 in Hlen. unfold Psbt.matching_xpub at 1.
  destruct (dict_get bytes_eqb derivations pk) as [der|] eqn:E;
    [|simpl in Hlen; lia].
  pose proof (first_match_spec pk der xpubs) as Hfirst.
  destruct (Psbt.first_match pk der xpubs) as [[x|]|e];
    [|simpl in Hlen; lia ..].
  destruct Hfirst as (origin & Hin & Hd). simpl in Hlen.
  constructor; [exists der, origin; auto|].
  apply IH; [intros; apply Hall; now right | lia].
Qed.

(** When fewer matches are found, some pubkey has none. *)
Lemma matches_found_fewer (pubkeys : list PubKey) :
  (forall pk, In pk pubkeys -> scanned pk) ->
  List.length (Psbt.matches_found derivations xpubs pubkeys) <> List.length pubkeys ->
  exists pk der,
    In pk pubkeys /\ dict_get bytes_eqb derivations pk = Some der
    /\ forall entry, In entry xpubs -> ~ derives_to pk der entry.
Proof.
  induction pubkeys as [|pk pks IH]; intros Hall Hlen; [contradiction|].
  unfold Psbt.matches_found in *. cbn [flat_map] in *. rewrite length_app in Hlen.
  unfold Psbt.matching_xpub at 1 in Hlen.
  destruct (Hall pk (or_introl eq_refl)) as (der & Hder & Hok). rewrite Hder in Hlen.
  pose proof (first_match_spec pk der xpubs) as Hfirst.
  destruct (Psbt.first_match pk der xpubs) as [[x|]|e]; [| |discriminate Hok].
  - destruct IH as (pk' & der' & Hin & Hder' & Hnone).
    + intros; apply Hall; now right.
    + simpl in Hlen. lia.
    + exists pk', der'. split; [now right | auto].
  - exists pk, der. split; [now left|]. split; [exact Hder|].
    intros entry Hin. now apply Hfirst.
Qed.

(** What [get_cosigners] returns. *)
Lemma get_cosigners_returns (pubkeys : list PubKey) (cosigners : list string) :
  Psbt.get_cosigners pubkeys derivations xpubs = Ok cosigners ->
  Sorted str_le cosigners
  /\ exists found,
       Permutation (map to_base58 found) cosigners
       /\ Forall2 (fun pk x =>
                     exists der origin,
                       dict_get bytes_eqb derivations pk = Some der
                       /\ In (x, origin) xpubs
                       /\ derives_to pk der (x, origin))
                  pubkeys found.
Proof.
  unfold Psbt.get_cosigners. intros Hc.
  apply bind_ok in Hc as (l & El & Hc).
  pose proof (cosigners_loop_ok pubkeys [] l El) as Hloop.
  pose proof (cosigners_loop_found pubkeys [] Hloop) as Hfound.
  assert (Hl : l = map to_base58 (Psbt.matches_found derivations xpubs pubkeys))
    by (apply option_ok_inj; rewrite <- El; exact Hfound).
  subst l. cbn [bind app] in Hc. unfold len in Hc. rewrite length_map in Hc.
  destruct (Z.eqb_spec
              (Z.of_nat (List.length (Psbt.matches_found derivations xpubs pubkeys)))
              (Z.of_nat (List.length pubkeys))) as [Heq|Hne];
    cbn [negb] in Hc; [|discriminate Hc].
  injection Hc as <-. split; [apply sorted_Sorted|].
  exists (Psbt.matches_found derivations xpubs pubkeys).
  split; [apply sorted_Permutation|].
  apply matches_found_all; [exact Hloop | lia].
Qed.

(** What [get_cosigners] raises. *)
Lemma get_cosigners_raises (pubkeys : list PubKey) (e : exn) :
  Psbt.get_cosigners pubkeys derivations xpubs = Raise e ->
  (e = ValueError "missing derivation"
   /\ exists pk, In pk pubkeys /\ dict_get bytes_eqb derivations pk = None)
  \/ (e = Psbt.library_error
      /\ exists pk der entry,
           In pk pubkeys /\ dict_get bytes_eqb derivations pk = Some der
           /\ In entry xpubs /\ derivation_fails der entry)
  \/ (e = ValueError "cannot get all cosigners"
      /\ (forall pk, In pk pubkeys -> dict_get bytes_eqb derivations pk <> None)
      /\ exists pk der,
           In pk pubkeys /\ dict_get bytes_eqb derivations pk = Some der
           /\ forall entry, In entry xpubs -> ~ derives_to pk der entry).
Proof.
  unfold Psbt.get_cosigners. intros Hc.
  match type of Hc with
  | bind ?loop _ = _ => destruct loop as [l|e0] eqn:El
  end.
  - pose proof (cosigners_loop_ok pubkeys [] l El) as Hloop.
    pose proof (cosigners_loop_found pubkeys [] Hloop) as Hfound.
    assert (Hl : l = map to_base58 (Psbt.matches_found derivations xpubs pubkeys))
      by (apply option_ok_inj; rewrite <- El; exact Hfound).
    subst l. cbn [bind app] in Hc. unfold len in Hc. rewrite length_map in Hc.
    destruct (Z.eqb_spec
                (Z.of_nat (List.length (Psbt.matches_found derivations xpubs pubkeys)))
                (Z.of_nat (List.length pubkeys))) as [Heq|Hne];
      cbn [negb] in Hc; [discriminate Hc|].
    injection Hc as <-. right. right. split; [reflexivity|]. split.
    + intros pk Hin. destruct (Hloop pk Hin) as (der & -> & _). discriminate.
    + apply matches_found_fewer; [exact Hloop | lia].
  - cbn [bind] in Hc. injection Hc as <-.
    destruct (cosigners_loop_raise pubkeys [] e0 El) as [Hmissing|Hlib];
      [now left | right; now left].
Qed.

End Cosigners.

Lemma Forall2_in_l {A B : Type} (P : A -> B -> Prop) (l : list A) (ys : list B) (x : A) :
  Forall2 P l ys -> In x l -> exists y, In y ys /\ P x y.
Proof.
  induction 1 as [|x' y l ys Hxy _ IH]; intros Hin; [contradiction|].
  destruct Hin as [->|Hin]; [exists y; simpl; auto|].
  destruct (IH Hin) as (y' & Hy' & HP). exists y'. simpl. auto.
Qed.

(** C5, as amended.  With "matching" spelled out as in the comments of the
    code (an xpub of the map matches a pubkey when its fingerprint is the
    one of the pubkey's derivation, its origin path is that derivation
    without the last two indexes, and it derives along these two indexes to
    the pubkey): what [get_cosigners] returns is a sorted list of the base58
    strings of one matching xpub per pubkey; it raises whenever some pubkey
    has no derivation entry or no matching xpub, and what it raises is
    [ValueError("missing derivation")] for a pubkey without entry,
    [ValueError("cannot get all cosigners")] when every pubkey has an entry
    and fewer matches are found than there are pubkeys, or the error of
    [xpub.derive] for an xpub with the fingerprint and origin path of a
    derivation whose last two indexes the library does not derive.  When no
    such derivation fails, the first error is raised whenever some pubkey
    has no entry and the second whenever every pubkey has one and the
    number of matches found differs from the number of pubkeys. *)
Theorem get_cosigners_spec `{Collaborators}
    (pubkeys : list PubKey) (derivations : dict PubKey DerivationPath)
    (xpubs : dict HDKey DerivationPath) :
  let same_origin (der : DerivationPath) (entry : HDKey * DerivationPath) :=
    fingerprint (snd entry) = fingerprint der
    /\ derivation (snd entry) = slice_to_minus2 (derivation der) in
  let matches (pk : PubKey) (der : DerivationPath) (entry : HDKey * DerivationPath) :=
    same_origin der entry
    /\ exists child,
         xpub_derive (fst entry) (slice_from_minus2 (derivation der)) = Some child
         /\ hd_key child = pk in
  let derivation_fails (der : DerivationPath) (entry : HDKey * DerivationPath) :=
    same_origin der entry
    /\ xpub_derive (fst entry) (slice_from_minus2 (derivation der)) = None in
  let has_entry (pk : PubKey) := dict_get bytes_eqb derivations pk <> None in
  let has_match (pk : PubKey) :=
    exists der entry,
      dict_get bytes_eqb derivations pk = Some der /\ In entry xpubs
      /\ matches pk der entry in
  let no_failure :=
    forall pk der entry,
      In pk pubkeys -> dict_get bytes_eqb derivations pk = Some der ->
      In entry xpubs -> ~ derivation_fails der entry in
  let found := Psbt.matches_found derivations xpubs pubkeys in
  (forall cosigners,
      Psbt.get_cosigners pubkeys derivations xpubs = Ok cosigners ->
      Sorted str_le cosigners
      /\ exists xs,
           Permutation (map to_base58 xs) cosigners
           /\ Forall2 (fun pk x =>
                         exists der origin,
                           dict_get bytes_eqb derivations pk = Some der
                           /\ In (x, origin) xpubs
                           /\ matches pk der (x, origin))
                      pubkeys xs)
  /\ ((exists pk, In pk pubkeys /\ (~ has_entry pk \/ ~ has_match pk)) ->
      exists e, Psbt.get_cosigners pubkeys derivations xpubs = Raise e)
  /\ (forall e,
        Psbt.get_cosigners pubkeys derivations xpubs = Raise e ->
        (e = ValueError "missing derivation"
         /\ exists pk, In pk pubkeys /\ dict_get bytes_eqb derivations pk = None)
        \/ (e = Psbt.library_error
            /\ exists pk der entry,
                 In pk pubkeys /\ dict_get bytes_eqb derivations pk = Some der
                 /\ In entry xpubs /\ derivation_fails der entry)
        \/ (e = ValueError "cannot get all cosigners"
            /\ (forall pk, In pk pubkeys -> has_entry pk)
            /\ exists pk, In pk pubkeys /\ ~ has_match pk))
  /\ (no_failure ->
      ((exists pk, In pk pubkeys /\ dict_get bytes_eqb derivations pk = None) ->
       Psbt.get_cosigners pubkeys derivations xpubs
       = Raise (ValueError "missing derivation"))
      /\ ((forall pk, In pk pubkeys -> has_entry pk) ->
          (List.length found <> List.length pubkeys
           <-> exists pk, In pk pubkeys /\ ~ has_match pk)
          /\ (List.length found <> List.length pubkeys ->
              Psbt.get_cosigners pubkeys derivations xpubs
              = Raise (ValueError "cannot get all cosigners"))
          /\ (List.length found = List.length pubkeys ->
              exists cosigners,
                Psbt.get_cosigners pubkeys derivations xpubs = Ok cosigners
                /\ Permutation (map to_base58 found) cosigners))).
Proof.
  intros same_origin matches derivation_fails has_entry has_match no_failure found.
  assert (Hreturns : forall cosigners,
             Psbt.get_cosigners pubkeys derivations xpubs = Ok cosigners ->
             Sorted str_le cosigners
             /\ exists xs,
                  Permutation (map to_base58 xs) cosigners
                  /\ Forall2 (fun pk x =>
                                exists der origin,
                                  dict_get bytes_eqb derivations pk = Some der
                                  /\ In (x, origin) xpubs
                                  /\ matches pk der (x, origin))
                             pubkeys xs)
    by exact (get_cosigners_returns derivations xpubs pubkeys).
  assert (Hall : forall cosigners,
             Psbt.get_cosigners pubkeys derivations xpubs = Ok cosigners ->
             forall pk, In pk pubkeys -> has_entry pk /\ has_match pk).
  { intros cs Hcs pk Hin. destruct (Hreturns cs Hcs) as (_ & xs & _ & Hf).
    destruct (Forall2_in_l _ _ _ pk Hf Hin) as (x & _ & der & origin & Hder & Hx & Hm).
    split; [unfold has_entry; congruence|]. exists der, (x, origin). auto. }
  assert (Hraises : forall e,
             Psbt.get_cosigners pubkeys derivations xpubs = Raise e ->
             (e = ValueError "missing derivation"
              /\ exists pk, In pk pubkeys /\ dict_get bytes_eqb derivations pk = None)
             \/ (e = Psbt.library_error
                 /\ exists pk der entry,
                      In pk pubkeys /\ dict_get bytes_eqb derivations pk = Some der
                      /\ In entry xpubs /\ derivation_fails der entry)
             \/ (e = ValueError "cannot get all cosigners"
                 /\ (forall pk, In pk pubkeys -> has_entry pk)
                 /\ exists pk, In pk pubkeys /\ ~ has_match pk)).
  { intros e He.
    destruct (get_cosigners_raises derivations xpubs pubkeys e He)
      as [Hm|[Hl|(Hc & Hentries & pk & der & Hin & Hder & Hnone)]];
      [now left | right; now left |].
    right. right. split; [exact Hc|]. split; [exact Hentries|].
    exists pk. split; [exact Hin|].
    intros (der' & entry & Hder' & Hentry & Hmatch).
    replace der' with der in Hmatch by congruence. exact (Hnone entry Hentry Hmatch). }
  assert (Hfails : (exists pk, In pk pubkeys /\ (~ has_entry pk \/ ~ has_match pk)) ->
                   exists e, Psbt.get_cosigners pubkeys derivations xpubs = Raise e).
  { intros (pk & Hin & Hnot).
    destruct (Psbt.get_cosigners pubkeys derivations xpubs) as [cs|e] eqn:E; [|eauto].
    destruct (Hall cs eq_refl pk Hin) as (Hentry & Hmatch). tauto. }
  split; [exact Hreturns|]. split; [exact Hfails|]. split; [exact Hraises|].
  intros Hnf.
  assert (Hmissing : (exists pk, In pk pubkeys /\ dict_get bytes_eqb derivations pk = None) ->
                     Psbt.get_cosigners pubkeys derivations xpubs
                     = Raise (ValueError "missing derivation")).
  { intros (pk & Hin & Hnone).
    destruct Hfails as (e & He).
    { exists pk. split; [exact Hin|]. left. unfold has_entry. tauto. }
    rewrite He. f_equal.
    destruct (Hraises e He)
      as [(-> & _)|[(_ & pk' & der & entry & Hin' & Hder & Hentry & Hf)
                   |(_ & Hentries & _)]].
    - reflexivity.
    - exfalso. exact (Hnf pk' der entry Hin' Hder Hentry Hf).
    - exfalso. exact (Hentries pk Hin Hnone). }
  split; [exact Hmissing|]. intros Hentries.
  assert (Hscanned : forall pk, In pk pubkeys ->
             exists der, dict_get bytes_eqb derivations pk = Some der
                         /\ is_ok (Psbt.first_match pk der xpubs) = true).
  { intros pk Hin. pose proof (Hentries pk Hin) as Hentry. unfold has_entry in Hentry.
    destruct (dict_get bytes_eqb derivations pk) as [der|] eqn:Hder; [|congruence].
    exists der. split; [reflexivity|].
    pose proof (first_match_spec pk der xpubs) as Hfirst.
    destruct (Psbt.first_match pk der xpubs) as [o|e]; [reflexivity|].
    destruct Hfirst as (_ & entry & Hentry' & Hf).
    exfalso. exact (Hnf pk der entry Hin Hder Hentry' Hf). }
  assert (Hcount : List.length found <> List.length pubkeys
                   <-> exists pk, In pk pubkeys /\ ~ has_match pk).
  { split.
    - intros Hne.
      destruct (matches_found_fewer derivations xpubs pubkeys Hscanned Hne)
        as (pk & der & Hin & Hder & Hnone).
      exists pk. split; [exact Hin|].
      intros (der' & entry & Hder' & Hentry & Hmatch).
      replace der' with der in Hmatch by congruence. exact (Hnone entry Hentry Hmatch).
    - intros (pk & Hin & Hnot) Heq. apply Hnot.
      pose proof (matches_found_all derivations xpubs pubkeys Hscanned Heq) as Hf.
      destruct (Forall2_in_l _ _ _ pk Hf Hin) as (x & _ & der & origin & Hder & Hx & Hm).
      exists der, (x, origin). auto. }
  split; [exact Hcount|].
  assert (Hloop : Psbt.get_cosigners pubkeys derivations xpubs
                  = if negb (len (map to_base58 found) =? len pubkeys)
                    then Raise (ValueError "cannot get all cosigners")
                    else Ok (sorted (map to_base58 found))).
  { pose proof (cosigners_loop_found derivations xpubs pubkeys [] Hscanned) as Hf.
    unfold Psbt.get_cosigners.
    match goal with
    | |- bind ?loop _ = _ =>
        replace loop with (Ok (map to_base58 found))
          by (symmetry; exact Hf)
    end.
    reflexivity. }
  unfold len in Hloop. rewrite length_map in Hloop. split.
  - intros Hne. rewrite Hloop.
    destruct (Z.eqb_spec (Z.of_nat (List.length found)) (Z.of_nat (List.length pubkeys)));
      [lia | reflexivity].
  - intros Heq. rewrite Hloop, Heq, Z.eqb_refl. cbn [negb].
    exists (sorted (map to_base58 found)). split; [reflexivity | apply sorted_Permutation].
Qed.

Lemma all_have_derivation (derivations : dict PubKey DerivationPath) (pubkeys : list PubKey) :
  forallb (fun pk => Psbt.is_some (dict_get bytes_eqb derivations pk)) pubkeys = true ->
  forall pk, In pk pubkeys -> dict_get bytes_eqb derivations pk <> None.
Proof.
  intros Hall pk Hin. rewrite forallb_forall in Hall. specialize (Hall pk Hin).
  destruct (dict_get bytes_eqb derivations pk); [discriminate | discriminate Hall].
Qed.

Lemma sample_cosigners_returned :
  exists cosigners,
    Psbt.get_cosigners (H := Sample.collaborators) (Sample.multisig_pubkeys [0; 0])
      (Sample.multisig_derivations [0; 0]) Sample.multisig_xpubs = Ok cosigners.
Proof.
  destruct (Psbt.get_cosigners (H := Sample.collaborators) (Sample.multisig_pubkeys [0; 0])
              (Sample.multisig_derivations [0; 0]) Sample.multisig_xpubs)
    as [cs|e] eqn:E; [eauto|].
  assert (Hrun : is_ok (Psbt.get_cosigners (H := Sample.collaborators)
                          (Sample.multisig_pubkeys [0; 0])
                          (Sample.multisig_derivations [0; 0]) Sample.multisig_xpubs)
                 = true) by (vm_compute; reflexivity).
  rewrite E in Hrun. discriminate.
Qed.

Lemma sample_pubkeys_length : List.length (Sample.multisig_pubkeys [0; 0]) = 3%nat.
Proof. reflexivity. Qed.

Lemma sample_entry_removed :
  exists pk,
    In pk (Sample.multisig_pubkeys [0; 0])
    /\ dict_get bytes_eqb (tl (Sample.multisig_derivations [0; 0])) pk = None.
Proof.
  exists (hd [] (Sample.multisig_pubkeys [0; 0])). split; [now left|].
  vm_compute. reflexivity.
Qed.

(** The property at the sample 2-of-3 wallet: the three pubkeys of the
    input's witness script are matched by the three global xpubs, and
    without the derivation entry of the first pubkey the call raises. *)
Lemma get_cosigners_spec_witness :
  (exists cosigners,
      Psbt.get_cosigners (H := Sample.collaborators) (Sample.multisig_pubkeys [0; 0])
        (Sample.multisig_derivations [0; 0]) Sample.multisig_xpubs = Ok cosigners
      /\ Sorted str_le cosigners
      /\ List.length cosigners = 3%nat)
  /\ exists e,
       Psbt.get_cosigners (H := Sample.collaborators) (Sample.multisig_pubkeys [0; 0])
         (tl (Sample.multisig_derivations [0; 0])) Sample.multisig_xpubs = Raise e.
Proof.
  split.
  - destruct sample_cosigners_returned as (cs & Hcs). exists cs. split; [exact Hcs|].
    destruct (get_cosigners_spec (H := Sample.collaborators)
                (Sample.multisig_pubkeys [0; 0]) (Sample.multisig_derivations [0; 0])
                Sample.multisig_xpubs) as (Hreturns & _).
    destruct (Hreturns cs Hcs) as (Hsorted & xs & Hperm & Hf).
    split; [exact Hsorted|].
    apply Permutation_length in Hperm. apply Forall2_length in Hf.
    rewrite <- Hperm, length_map, <- Hf. exact sample_pubkeys_length.
  - destruct (get_cosigners_spec (H := Sample.collaborators)
                (Sample.multisig_pubkeys [0; 0]) (tl (Sample.multisig_derivations [0; 0]))
                Sample.multisig_xpubs) as (_ & Hfails & _).
    apply Hfails. destruct sample_entry_removed as (pk & Hin & Hnone).
    exists pk. split; [exact Hin|]. left. intros Hentry. exact (Hentry Hnone).
Defined.

(** C5 as stated fails: the first pubkey's derivation has the fingerprint
    and the origin path of the first xpub and a hardened index among its
    last two, the second pubkey has no derivation entry, and what
    [get_cosigners] raises is the error of the key library, none of the two
    policy errors. *)
Lemma get_cosigners_spec_counterexample :
  let derivations :=
    [Sample.derivation_of Sample.root1 (Sample.account_path ++ [Sample.h 0; 0])] in
  let pubkeys :=
    [fst (Sample.derivation_of Sample.root1 (Sample.account_path ++ [Sample.h 0; 0]));
     fst (Sample.derivation_of Sample.root2 (Sample.account_path ++ [0; 0]))] in
  (exists pk, In pk pubkeys /\ dict_get bytes_eqb derivations pk = None)
  /\ Psbt.get_cosigners (H := Sample.collaborators) pubkeys derivations
       Sample.multisig_xpubs = Raise Psbt.library_error
  /\ Psbt.library_error <> ValueError "missing derivation"
  /\ Psbt.library_error <> ValueError "cannot get all cosigners".
Proof.
  intros derivations pubkeys. split.
  - exists (fst (Sample.derivation_of Sample.root2 (Sample.account_path ++ [0; 0]))).
    split; [right; now left|]. vm_compute. reflexivity.
  - split; [vm_compute; reflexivity|]. split; discriminate.
Qed.

(** ** psbt.py: the validation of the inputs *)

Section InputPolicies.
Context `{Collaborators}.
Variable xs : dict HDKey DerivationPath.

Let yields (inp : Scope) : Prop := is_ok (Psbt.input_policy xs inp) = true.

Lemma check_input_raises (st : option Psbt.Policy) (inp : Scope) (e : exn) :
  Psbt.input_policy xs inp = Raise e ->
  Psbt.check_input xs st inp = Raise Psbt.unable_to_get_policy.
Proof. intros He. unfold Psbt.check_input. now rewrite He. Qed.

Lemma check_input_first (inp : Scope) (q : Psbt.Policy) :
  Psbt.input_policy xs inp = Ok q -> Psbt.check_input xs None inp = Ok (Some q).
Proof. intros Hq. unfold Psbt.check_input. now rewrite Hq. Qed.

Lemma check_input_next (p q : Psbt.Policy) (inp : Scope) :
  Psbt.input_policy xs inp = Ok q ->
  Psbt.check_input xs (Some p) inp
  = if Psbt.policy_eqb p q then Ok (Some p) else Raise Psbt.mixed_inputs.
Proof.
  intros Hq. unfold Psbt.check_input. rewrite Hq. cbn [Psbt.try_except bind].
  now destruct (Psbt.policy_eqb p q).
Qed.

(** With a policy already recorded, an input of another policy stops the
    loop. *)
Lemma inputs_loop_differs (inputs : list Scope) (p : Psbt.Policy) :
  (exists inp q, In inp inputs /\ Psbt.input_policy xs inp = Ok q /\ q <> p) ->
  exists e, for_each (Psbt.check_input xs) inputs (Some p) = Raise e
            /\ (e = Psbt.mixed_inputs \/ e = Psbt.unable_to_get_policy)
            /\ (Forall yields inputs -> e = Psbt.mixed_inputs).
Proof.
  induction inputs as [|inp rest IH]; intros (inp' & q & Hin & Hq & Hne).
  - contradiction.
  - cbn [for_each]. destruct (Psbt.input_policy xs inp) as [q0|e0] eqn:E.
    + rewrite (check_input_next p q0 inp E).
      destruct (Psbt.policy_eqb p q0) eqn:Eqb.
      * apply policy_eqb_eq in Eqb. subst q0. cbn [bind].
        destruct Hin as [->|Hin]; [congruence|].
        destruct IH as (e & He & Hkind & Hall); [eauto|].
        exists e. split; [exact He|]. split; [exact Hkind|].
        intros Hy. apply Hall. now inversion Hy.
      * exists Psbt.mixed_inputs. cbn [bind]. auto.
    + rewrite (check_input_raises (Some p) inp e0 E). cbn [bind].
      exists Psbt.unable_to_get_policy. split; [reflexivity|]. split; [now right|].
      intros Hy. inversion Hy as [|? ? Hinp _]; subst. unfold yields in Hinp.
      rewrite E in Hinp. discriminate.
Qed.

(** From the start, two inputs of different policies stop the loop. *)
Lemma inputs_loop_two_policies (inputs : list Scope) :
  (exists inp1 inp2 p1 p2,
      In inp1 inputs /\ In inp2 inputs
      /\ Psbt.input_policy xs inp1 = Ok p1 /\ Psbt.input_policy xs inp2 = Ok p2
      /\ p1 <> p2) ->
  exists e, for_each (Psbt.check_input xs) inputs None = Raise e
            /\ (e = Psbt.mixed_inputs \/ e = Psbt.unable_to_get_policy)
            /\ (Forall yields inputs -> e = Psbt.mixed_inputs).
Proof.
  intros (inp1 & inp2 & p1 & p2 & Hin1 & Hin2 & Hp1 & Hp2 & Hne).
  destruct inputs as [|inp rest]; [contradiction|].
  cbn [for_each]. destruct (Psbt.input_policy xs inp) as [q0|e0] eqn:E.
  - rewrite (check_input_first inp q0 E). cbn [bind].
    destruct (inputs_loop_differs rest q0) as (e & He & Hkind & Hall).
    { destruct (Psbt.policy_eqb p1 q0) eqn:E1.
      - apply policy_eqb_eq in E1. subst q0.
        destruct Hin2 as [->|Hin2]; [congruence|]. exists inp2, p2. auto.
      - apply policy_eqb_neq in E1.
        destruct Hin1 as [->|Hin1]; [congruence|]. exists inp1, p1. auto. }
    exists e. split; [exact He|]. split; [exact Hkind|].
    intros Hy. apply Hall. now inversion Hy.
  - rewrite (check_input_raises None inp e0 E). cbn [bind].
    exists Psbt.unable_to_get_policy. split; [reflexivity|]. split; [now right|].
    intros Hy. inversion Hy as [|? ? Hinp _]; subst. unfold yields in Hinp.
    rewrite E in Hinp. discriminate.
Qed.

(** An input whose policy cannot be inferred stops the loop, unless a
    mismatch stops it before. *)
Lemma inputs_loop_no_policy (inputs : list Scope) (st : option Psbt.Policy) :
  (exists inp e, In inp inputs /\ Psbt.input_policy xs inp = Raise e) ->
  exists e, for_each (Psbt.check_input xs) inputs st = Raise e
            /\ (e = Psbt.mixed_inputs \/ e = Psbt.unable_to_get_policy).
Proof.
  revert st. induction inputs as [|inp rest IH]; intros st (inp' & e' & Hin & He').
  - contradiction.
  - cbn [for_each]. destruct (Psbt.input_policy xs inp) as [q0|e0] eqn:E.
    + assert (Hrest : exists inp e, In inp rest /\ Psbt.input_policy xs inp = Raise e).
      { destruct Hin as [->|Hin]; [congruence | eauto]. }
      destruct st as [p|].
      * rewrite (check_input_next p q0 inp E).
        destruct (Psbt.policy_eqb p q0); cbn [bind]; [apply IH, Hrest|].
        exists Psbt.mixed_inputs. auto.
      * rewrite (check_input_first inp q0 E). cbn [bind]. apply IH, Hrest.
    + rewrite (check_input_raises st inp e0 E). cbn [bind].
      exists Psbt.unable_to_get_policy. auto.
Qed.

End InputPolicies.

Lemma validate_inputs_raise `{Collaborators} (self : Psbt.PSBTSigner)
    (xs : dict HDKey DerivationPath) (e : exn) :
  Psbt.xpubs self = Ok xs ->
  for_each (Psbt.check_input xs) (psbt_inputs (Psbt.psbt self)) None = Raise e ->
  Psbt.validate self = Raise e.
Proof. intros Hxs He. unfold Psbt.validate. rewrite Hxs. cbn [bind]. now rewrite He. Qed.

Lemma init_is_validate `{Collaborators} (wallet : Psbt.Wallet) (psbt_data : Psbt.psbt_input)
    (qr_format : Z) (p : PSBT) (enc : option Z) (ur : option Psbt.RegistryType) :
  Psbt.parse_psbt_data psbt_data qr_format = Ok (p, enc, ur) ->
  Psbt.__init__ wallet psbt_data qr_format
  = Psbt.validate (Psbt.parsed_signer wallet qr_format p enc ur).
Proof. intros Hp. unfold Psbt.__init__. now rewrite Hp. Qed.

(** C2. When the inputs of an accepted PSBT yield two different policies,
    the constructor raises: [ValueError("mixed inputs in the tx")] when
    every input yields a policy (and otherwise that error or
    [ValueError("Unable to get policy")]), so no signer is returned; the
    same holds for the inputs in any other order. *)
Theorem mixed_inputs_rejected `{Collaborators}
    (wallet : Psbt.Wallet) (psbt_data : Psbt.psbt_input) (qr_format : Z)
    (p : PSBT) (enc : option Z) (ur : option Psbt.RegistryType)
    (xs : dict HDKey DerivationPath) :
  Psbt.parse_psbt_data psbt_data qr_format = Ok (p, enc, ur) ->
  Psbt.xpubs (Psbt.parsed_signer wallet qr_format p enc ur) = Ok xs ->
  (exists inp1 inp2 p1 p2,
      In inp1 (psbt_inputs p) /\ In inp2 (psbt_inputs p)
      /\ Psbt.input_policy xs inp1 = Ok p1 /\ Psbt.input_policy xs inp2 = Ok p2
      /\ p1 <> p2) ->
  let all_yield :=
    Forall (fun inp => is_ok (Psbt.input_policy xs inp) = true) (psbt_inputs p) in
  (exists e, Psbt.__init__ wallet psbt_data qr_format = Raise e
             /\ (e = Psbt.mixed_inputs \/ e = Psbt.unable_to_get_policy)
             /\ (all_yield -> e = Psbt.mixed_inputs))
  /\ forall inputs',
      Permutation (psbt_inputs p) inputs' ->
      exists e,
        Psbt.validate
          (Psbt.parsed_signer wallet qr_format (Psbt.with_inputs p inputs') enc ur)
        = Raise e
        /\ (e = Psbt.mixed_inputs \/ e = Psbt.unable_to_get_policy)
        /\ (all_yield -> e = Psbt.mixed_inputs).
Proof.
  intros Hparse Hxs Htwo all_yield.
  assert (Hperm : forall inputs',
             Permutation (psbt_inputs p) inputs' ->
             exists e,
               Psbt.validate
                 (Psbt.parsed_signer wallet qr_format (Psbt.with_inputs p inputs') enc ur)
               = Raise e
               /\ (e = Psbt.mixed_inputs \/ e = Psbt.unable_to_get_policy)
               /\ (all_yield -> e = Psbt.mixed_inputs)).
  { intros inputs' Hperm.
    destruct (inputs_loop_two_policies xs inputs') as (e & He & Hkind & Hall).
    { destruct Htwo as (i1 & i2 & p1 & p2 & Hin1 & Hin2 & Hp1 & Hp2 & Hne).
      exists i1, i2, p1, p2.
      repeat split; try assumption; eapply Permutation_in; eassumption. }
    exists e. split; [|split; [exact Hkind|]].
    - apply (validate_inputs_raise _ xs); [exact Hxs | exact He].
    - intros Hy. apply Hall. unfold all_yield in Hy.
      rewrite Forall_forall in *. intros inp Hin. apply Hy.
      eapply Permutation_in; [apply Permutation_sym; eassumption | exact Hin]. }
  split; [|exact Hperm].
  rewrite (init_is_validate wallet psbt_data qr_format p enc ur Hparse).
  specialize (Hperm (psbt_inputs p) (Permutation_refl _)).
  destruct p; exact Hperm.
Qed.

Lemma sample_mixed_policies :
  Psbt.input_policy (H := Sample.collaborators) Sample.multisig_xpubs Sample.single_input
  = Ok {| Psbt.policy_type := "p2wpkh"; Psbt.policy_m := None; Psbt.policy_n := None;
          Psbt.policy_cosigners := None |}
  /\ Psbt.input_policy (H := Sample.collaborators) Sample.multisig_xpubs Sample.multisig_input
     = Ok Sample.multisig_policy.
Proof. split; vm_compute; reflexivity. Qed.

(** The property at the sample PSBT with a p2wpkh and a 2-of-3 p2wsh input,
    and with the two inputs swapped. *)
Lemma mixed_inputs_rejected_witness :
  Psbt.__init__ (H := Sample.collaborators) Sample.multisig_wallet
    (Psbt.InBytes (Sample.psbt_magic ++ [x04])) Sample.FORMAT_NONE
  = Raise Psbt.mixed_inputs
  /\ Psbt.validate (H := Sample.collaborators)
       (Psbt.parsed_signer Sample.multisig_wallet Sample.FORMAT_NONE
          (Psbt.with_inputs Sample.psbt_mixed [Sample.multisig_input; Sample.single_input])
          None None)
     = Raise Psbt.mixed_inputs.
Proof.
  destruct sample_mixed_policies as [Hp1 Hp2].
  assert (Hparse : Psbt.parse_psbt_data (H := Sample.collaborators)
                     (Psbt.InBytes (Sample.psbt_magic ++ [x04])) Sample.FORMAT_NONE
                   = Ok (Sample.psbt_mixed, None, None)) by (vm_compute; reflexivity).
  assert (Hxs : Psbt.xpubs
                  (Psbt.parsed_signer Sample.multisig_wallet Sample.FORMAT_NONE
                     Sample.psbt_mixed None None) = Ok Sample.multisig_xpubs)
    by reflexivity.
  assert (Hall : Forall (fun inp => is_ok (Psbt.input_policy (H := Sample.collaborators)
                                             Sample.multisig_xpubs inp) = true)
                        (psbt_inputs Sample.psbt_mixed)).
  { change (psbt_inputs Sample.psbt_mixed)
      with [Sample.single_input; Sample.multisig_input].
    apply Forall_cons; [now rewrite Hp1|].
    apply Forall_cons; [now rewrite Hp2 | apply Forall_nil]. }
  destruct (mixed_inputs_rejected (H := Sample.collaborators) Sample.multisig_wallet
              (Psbt.InBytes (Sample.psbt_magic ++ [x04])) Sample.FORMAT_NONE
              Sample.psbt_mixed None None Sample.multisig_xpubs Hparse Hxs)
    as [(e & He & _ & Hmixed) Hswap].
  { exists Sample.single_input, Sample.multisig_input. eexists. eexists.
    split; [now left|]. split; [right; now left|].
    split; [exact Hp1|]. split; [exact Hp2|].
    intros Heq. apply (f_equal Psbt.policy_type) in Heq. discriminate Heq. }
  split.
  - rewrite He. f_equal. exact (Hmixed Hall).
  - destruct (Hswap [Sample.multisig_input; Sample.single_input])
      as (e' & He' & _ & Hmixed'); [apply perm_swap|].
    rewrite He'. f_equal. exact (Hmixed' Hall).
Defined.

(** ** psbt.py: the xpubs of a wallet without origin data *)

Lemma xpubs_fold_no_origin (keys : list Psbt.DescriptorKey)
    (acc : dict HDKey DerivationPath) :
  (forall k, In k keys -> Psbt.dk_origin k = None) ->
  fold_left
    (fun xpubs dk =>
       match Psbt.dk_origin dk with
       | Some origin =>
           dict_set bytes_eqb xpubs (Psbt.dk_key dk)
             {| fingerprint := Psbt.origin_fingerprint origin;
                derivation := Psbt.origin_derivation origin |}
       | None => xpubs
       end) keys acc = acc.
Proof.
  revert acc. induction keys as [|k keys IH]; intros acc Hnone; [reflexivity|].
  cbn [fold_left]. rewrite (Hnone k (or_introl eq_refl)).
  apply IH. intros k' Hk'. apply Hnone. now right.
Qed.

Lemma xpubs_only_error (self : Psbt.PSBTSigner) (e : exn) :
  Psbt.xpubs self = Raise e ->
  e = Psbt.missing_xpubs
  /\ psbt_xpubs (Psbt.psbt self) = []
  /\ Psbt.wallet_descriptor (Psbt.wallet self) = None.
Proof.
  unfold Psbt.xpubs.
  destruct (psbt_xpubs (Psbt.psbt self)); [|discriminate].
  destruct (Psbt.wallet_descriptor (Psbt.wallet self)); [discriminate|].
  intros [= <-]. auto.
Qed.

Section NoKnownXpubs.
Context `{Collaborators}.

Lemma get_cosigners_no_xpubs (pk : PubKey) (pks : list PubKey)
    (derivations : dict PubKey DerivationPath) :
  exists e, Psbt.get_cosigners (pk :: pks) derivations [] = Raise e.
Proof.
  destruct (Psbt.get_cosigners (pk :: pks) derivations []) as [cs|e] eqn:E; [|eauto].
  destruct (get_cosigners_returns derivations [] (pk :: pks) cs E) as (_ & xs & _ & Hf).
  destruct (Forall2_in_l _ _ _ pk Hf (or_introl eq_refl))
    as (x & _ & der & origin & _ & [] & _).
Qed.

(** Without known xpubs, no policy is inferred from an input that spends a
    P2WSH or P2SH output and carries a multisig witness script. *)
Lemma input_policy_no_xpubs (inp : Scope) (utxo : TxOut) (ws : Script)
    (m : Z) (pk : PubKey) (pks : list PubKey) :
  witness_utxo inp = Some utxo ->
  script_type (script_pubkey utxo) = Some "p2wsh"
  \/ script_type (script_pubkey utxo) = Some "p2sh" ->
  witness_script inp = Some ws ->
  parse_multisig ws = Some (m, pk :: pks) ->
  exists e, Psbt.input_policy [] inp = Raise e.
Proof.
  intros Hutxo Htype Hws Hparse. unfold Psbt.input_policy. rewrite Hutxo.
  unfold Psbt.get_policy.
  destruct (get_cosigners_no_xpubs pk pks (bip32_derivations inp)) as (e & He).
  destruct Htype as [-> | ->]; rewrite Hws; cbn -[Psbt.get_cosigners];
    rewrite Hparse; cbn -[Psbt.get_cosigners]; rewrite He; cbn; eauto.
Qed.

End NoKnownXpubs.

(** C10, as amended.  When the PSBT carries no global xpubs and the wallet
    has a descriptor none of whose keys has origin data, [xpubs] returns the
    empty map; [xpubs] raises nothing but [ValueError("missing xpubs")], and
    only when the PSBT has no xpubs and the wallet no descriptor.  In the
    empty-map case the constructor raises
    [ValueError("Unable to get policy")] or
    [ValueError("mixed inputs in the tx")] as soon as one input spends a
    P2WSH or P2SH output and carries a multisig witness script with at
    least one pubkey. *)
Theorem xpubs_without_origin `{Collaborators}
    (wallet : Psbt.Wallet) (psbt_data : Psbt.psbt_input) (qr_format : Z)
    (p : PSBT) (enc : option Z) (ur : option Psbt.RegistryType)
    (descriptor : Psbt.Descriptor) :
  Psbt.parse_psbt_data psbt_data qr_format = Ok (p, enc, ur) ->
  psbt_xpubs p = [] ->
  Psbt.wallet_descriptor wallet = Some descriptor ->
  (forall k, In k (Psbt.keys_of_descriptor descriptor) -> Psbt.dk_origin k = None) ->
  Psbt.xpubs (Psbt.parsed_signer wallet qr_format p enc ur) = Ok []
  /\ (forall self e,
        Psbt.xpubs self = Raise e ->
        e = Psbt.missing_xpubs
        /\ psbt_xpubs (Psbt.psbt self) = []
        /\ Psbt.wallet_descriptor (Psbt.wallet self) = None)
  /\ (forall inp utxo ws m pk pks,
        In inp (psbt_inputs p) ->
        witness_utxo inp = Some utxo ->
        script_type (script_pubkey utxo) = Some "p2wsh"
        \/ script_type (script_pubkey utxo) = Some "p2sh" ->
        witness_script inp = Some ws ->
        parse_multisig ws = Some (m, pk :: pks) ->
        exists e, Psbt.__init__ wallet psbt_data qr_format = Raise e
                  /\ (e = Psbt.unable_to_get_policy \/ e = Psbt.mixed_inputs)).
Proof.
  intros Hparse Hnox Hdesc Hnone.
  assert (Hxs : Psbt.xpubs (Psbt.parsed_signer wallet qr_format p enc ur) = Ok []).
  { unfold Psbt.xpubs. cbn [Psbt.psbt Psbt.wallet Psbt.parsed_signer].
    rewrite Hnox, Hdesc. f_equal. apply xpubs_fold_no_origin. exact Hnone. }
  split; [exact Hxs|]. split; [exact xpubs_only_error|].
  intros inp utxo ws m pk pks Hin Hutxo Htype Hws Hmulti.
  destruct (input_policy_no_xpubs inp utxo ws m pk pks Hutxo Htype Hws Hmulti)
    as (e0 & He0).
  destruct (inputs_loop_no_policy [] (psbt_inputs p) None) as (e & He & Hkind);
    [eauto|].
  exists e. split; [|tauto].
  rewrite (init_is_validate wallet psbt_data qr_format p enc ur Hparse).
  apply (validate_inputs_raise _ []); [exact Hxs | exact He].
Qed.

(** The property at the sample multisig wallet whose descriptor has no
    origin data, with the multisig PSBT stripped of its global xpubs. *)
Lemma xpubs_without_origin_witness :
  Psbt.xpubs (Psbt.parsed_signer Sample.multisig_wallet_no_origin Sample.FORMAT_NONE
                Sample.psbt_multisig_no_xpubs None None) = Ok []
  /\ exists e,
       Psbt.__init__ (H := Sample.collaborators) Sample.multisig_wallet_no_origin
         (Psbt.InBytes (Sample.psbt_magic ++ [x05])) Sample.FORMAT_NONE = Raise e
       /\ (e = Psbt.unable_to_get_policy \/ e = Psbt.mixed_inputs).
Proof.
  assert (Hparse : Psbt.parse_psbt_data (H := Sample.collaborators)
                     (Psbt.InBytes (Sample.psbt_magic ++ [x05])) Sample.FORMAT_NONE
                   = Ok (Sample.psbt_multisig_no_xpubs, None, None))
    by (vm_compute; reflexivity).
  assert (Hmulti : parse_multisig (Collaborators := Sample.collaborators)
                     (Sample.multisig_witness_script [0; 0])
                   = Some (2, Sample.multisig_pubkeys [0; 0]))
    by (vm_compute; reflexivity).
  assert (Hkeys : exists pk pks, Sample.multisig_pubkeys [0; 0] = pk :: pks)
    by (do 2 eexists; reflexivity).
  destruct Hkeys as (pk & pks & Hkeys). rewrite Hkeys in Hmulti.
  assert (Htype : script_type (Collaborators := Sample.collaborators)
                    (Sample.p2wsh (Sample.multisig_witness_script [0; 0]))
                  = Some "p2wsh") by (vm_compute; reflexivity).
  destruct (xpubs_without_origin (H := Sample.collaborators)
              Sample.multisig_wallet_no_origin
              (Psbt.InBytes (Sample.psbt_magic ++ [x05])) Sample.FORMAT_NONE
              Sample.psbt_multisig_no_xpubs None None
              {| Psbt.descriptor_key := None;
                 Psbt.descriptor_keys :=
                   map (fun e => {| Psbt.dk_origin := None; Psbt.dk_key := fst e |})
                       Sample.multisig_xpubs |}
              Hparse eq_refl eq_refl) as (Hxs & _ & Hfail).
  { intros k Hk. cbn [Psbt.keys_of_descriptor Psbt.descriptor_key Psbt.descriptor_keys] in Hk.
    apply in_map_iff in Hk as (e & <- & _). reflexivity. }
  split; [exact Hxs|].
  apply (Hfail Sample.multisig_input
           {| value := 51000;
              script_pubkey := Sample.p2wsh (Sample.multisig_witness_script [0; 0]) |}
           (Sample.multisig_witness_script [0; 0]) 2 pk pks).
  - now left.
  - reflexivity.
  - left. exact Htype.
  - reflexivity.
  - exact Hmulti.
Defined.

(** C10 as stated fails: a single-sig wallet whose descriptor is a pure
    xpub, and a PSBT without global xpubs and with a p2wpkh input.  [xpubs]
    returns the empty map and the constructor returns a signer. *)
Lemma xpubs_without_origin_counterexample :
  psbt_xpubs Sample.psbt_change_first = []
  /\ (exists d, Psbt.wallet_descriptor Sample.single_wallet = Some d
                /\ forall k, In k (Psbt.keys_of_descriptor d) -> Psbt.dk_origin k = None)
  /\ Psbt.xpubs (Psbt.parsed_signer Sample.single_wallet Sample.FORMAT_NONE
                   Sample.psbt_change_first None None) = Ok []
  /\ ~ (exists e, Psbt.__init__ (H := Sample.collaborators) Sample.single_wallet
                    (Psbt.InBytes (Sample.psbt_magic ++ [x01])) Sample.FORMAT_NONE
                  = Raise e).
Proof.
  split; [reflexivity|]. split.
  - eexists. split; [reflexivity|].
    intros k [<-|[]]. reflexivity.
  - split; [reflexivity|].
    assert (Hok : is_ok (Psbt.__init__ (H := Sample.collaborators) Sample.single_wallet
                           (Psbt.InBytes (Sample.psbt_magic ++ [x01])) Sample.FORMAT_NONE)
                  = true) by (vm_compute; reflexivity).
    intros (e & He). rewrite He in Hok. discriminate Hok.
Qed.

(** ** psbt.py: [sign] *)

Lemma firstn_length_app {A : Type} (l1 l2 : list A) :
  firstn (List.length l1) (l1 ++ l2) = l1.
Proof. induction l1 as [|x l1 IH]; simpl; [now destruct l2 | now rewrite IH]. Qed.

Lemma skipn_length_app {A : Type} (l1 l2 : list A) :
  skipn (List.length l1) (l1 ++ l2) = l2.
Proof. induction l1 as [|x l1 IH]; simpl; [reflexivity | exact IH]. Qed.

Lemma nth_error_length_app {A : Type} (l1 l2 : list A) (x : A) :
  nth_error (l1 ++ x :: l2) (List.length l1) = Some x.
Proof. induction l1 as [|y l1 IH]; simpl; [reflexivity | exact IH]. Qed.

Lemma map_const_repeat {A B : Type} (c : B) (l : list A) :
  map (fun _ => c) l = repeat c (List.length l).
Proof. induction l as [|x l IH]; simpl; [reflexivity | now rewrite IH]. Qed.

Lemma set_partial_sigs_blank (tx : Transaction) (done rest outs : list Scope)
    (xp : dict HDKey DerivationPath) (inp : Scope) :
  Psbt.set_partial_sigs
    {| psbt_tx := tx; psbt_inputs := done ++ Psbt.blank_scope :: rest;
       psbt_outputs := outs; psbt_xpubs := xp |}
    (Z.of_nat (List.length done)) (partial_sigs inp)
  = Ok {| psbt_tx := tx;
          psbt_inputs := (done ++ [Psbt.only_partial_sigs inp]) ++ rest;
          psbt_outputs := outs; psbt_xpubs := xp |}.
Proof.
  unfold Psbt.set_partial_sigs. cbn [psbt_inputs psbt_tx psbt_outputs psbt_xpubs].
  rewrite list_index_nonneg, Nat2Z.id, nth_error_length_app by lia. cbn [bind].
  rewrite firstn_length_app.
  change (done ++ Psbt.blank_scope :: rest) with (done ++ [Psbt.blank_scope] ++ rest).
  rewrite app_assoc.
  replace (S (List.length done)) with (List.length (done ++ [Psbt.blank_scope]))
    by (rewrite length_app; simpl; lia).
  rewrite skipn_length_app, <- app_assoc. reflexivity.
Qed.

(** The loop of [sign] over the inputs left to copy. *)
Lemma trim_loop (tx : Transaction) (outs : list Scope) (xp : dict HDKey DerivationPath)
    (todo done : list Scope) :
  for_each (fun trimmed (i_inp : Z * Scope) =>
              Psbt.set_partial_sigs trimmed (fst i_inp) (partial_sigs (snd i_inp)))
           (combine (map Z.of_nat (seq (List.length done) (List.length todo))) todo)
           {| psbt_tx := tx;
              psbt_inputs := done ++ repeat Psbt.blank_scope (List.length todo);
              psbt_outputs := outs; psbt_xpubs := xp |}
  = Ok {| psbt_tx := tx;
          psbt_inputs := done ++ map Psbt.only_partial_sigs todo;
          psbt_outputs := outs; psbt_xpubs := xp |}.
Proof.
  revert done. induction todo as [|inp todo IH]; intros done; [reflexivity|].
  cbn [List.length seq map combine repeat for_each fst snd].
  rewrite set_partial_sigs_blank. cbn [bind].
  specialize (IH (done ++ [Psbt.only_partial_sigs inp])).
  rewrite length_app in IH. cbn [List.length] in IH.
  replace (List.length done + 1)%nat with (S (List.length done)) in IH by lia.
  rewrite IH, <- app_assoc. reflexivity.
Qed.

Lemma trim_loop_error (l : list (Z * Scope)) (p : PSBT) (e : exn) :
  for_each (fun trimmed (i_inp : Z * Scope) =>
              Psbt.set_partial_sigs trimmed (fst i_inp) (partial_sigs (snd i_inp))) l p
  = Raise e ->
  e = IndexError "list index out of range".
Proof.
  revert p. induction l as [|[i inp] l IH]; intros p; [discriminate|].
  cbn [for_each fst snd]. unfold Psbt.set_partial_sigs at 1.
  destruct (list_index (psbt_inputs p) i) as [x|e0] eqn:E; cbn [bind].
  - apply IH.
  - intros [= <-]. unfold list_index in E.
    destruct (_ <? 0); [congruence|].
    destruct (nth_error _ _); congruence.
Qed.

(** C7. [sign] raises [ValueError("cannot sign")] if and only if
    [sign_with] added no signature.  Otherwise, for a PSBT with one input
    scope per transaction input, it returns and leaves in [self.psbt] the
    trimmed copy: the transaction, for each input only its partial
    signatures, blank output scopes and no global xpubs; the other
    attributes of the signer are unchanged. *)
Theorem sign_trims `{Collaborators} (self : Psbt.PSBTSigner) :
  let signed := fst (sign_with (Psbt.psbt self)
                       (Key.key_root (Psbt.wallet_key (Psbt.wallet self)))) in
  let sigs_added := snd (sign_with (Psbt.psbt self)
                           (Key.key_root (Psbt.wallet_key (Psbt.wallet self)))) in
  (snd (Psbt.sign self) = Raise (ValueError "cannot sign") <-> sigs_added = 0)
  /\ (sigs_added <> 0 ->
      List.length (psbt_inputs signed) = List.length (vin (psbt_tx signed)) ->
      Psbt.sign self = (Psbt.with_psbt self (Psbt.trimmed signed), Ok tt)).
Proof.
  intros signed sigs_added. unfold Psbt.sign.
  destruct (sign_with (Psbt.psbt self) (Key.key_root (Psbt.wallet_key (Psbt.wallet self))))
    as [p n] eqn:E.
  cbn [fst snd] in signed, sigs_added. subst signed sigs_added.
  destruct (Z.eqb_spec n 0) as [Hz|Hnz].
  - split; [tauto | contradiction].
  - cbn [Psbt.psbt Psbt.with_psbt]. split.
    + split; [|contradiction].
      destruct (for_each _ _ _) as [trimmed|e] eqn:L; cbn [snd]; [discriminate|].
      apply trim_loop_error in L. subst e. discriminate.
    + intros _ Hlen. unfold Psbt.PSBT_new, enumerate, range, len.
      rewrite map_const_repeat, <- Hlen, Nat2Z.id.
      rewrite (trim_loop (psbt_tx p) _ [] (psbt_inputs p) []).
      reflexivity.
Qed.

(** The property at the sample multisig signer: the wallet's key signs the
    input, and the PSBT kept has one input with that signature only. *)
Lemma sign_trims_witness :
  snd (sign_with (Collaborators := Sample.collaborators)
         (Psbt.psbt Sample.multisig_signer)
         (Key.key_root (Psbt.wallet_key (Psbt.wallet Sample.multisig_signer)))) = 1
  /\ Psbt.sign (H := Sample.collaborators) Sample.multisig_signer
     = (Psbt.with_psbt Sample.multisig_signer
          (Psbt.trimmed
             (fst (sign_with (Collaborators := Sample.collaborators)
                     (Psbt.psbt Sample.multisig_signer)
                     (Key.key_root (Psbt.wallet_key (Psbt.wallet Sample.multisig_signer)))))),
        Ok tt).
Proof.
  assert (Hadded : snd (sign_with (Collaborators := Sample.collaborators)
                          (Psbt.psbt Sample.multisig_signer)
                          (Key.key_root (Psbt.wallet_key (Psbt.wallet Sample.multisig_signer))))
                   = 1) by (vm_compute; reflexivity).
  split; [exact Hadded|].
  destruct (sign_trims (H := Sample.collaborators) Sample.multisig_signer) as [_ Hok].
  apply Hok.
  - rewrite Hadded. discriminate.
  - reflexivity.
Defined.

(** ** psbt.py: [psbt_qr] gives the PSBT back in the form it was read *)

Lemma validate_keeps `{Collaborators} (self s : Psbt.PSBTSigner) :
  Psbt.validate self = Ok s ->
  Psbt.psbt s = Psbt.psbt self
  /\ Psbt.base_encoding s = Psbt.base_encoding self
  /\ Psbt.ur_type s = Psbt.ur_type self
  /\ Psbt.qr_format s = Psbt.qr_format self
  /\ Psbt.wallet s = Psbt.wallet self.
Proof.
  unfold Psbt.validate. intros Hv.
  apply bind_ok in Hv as (xs & _ & Hv).
  apply bind_ok in Hv as (pol & _ & Hv).
  apply bind_ok in Hv as (m1 & _ & Hv).
  destruct (m1 && _); [discriminate|].
  apply bind_ok in Hv as (m2 & _ & Hv).
  destruct (negb m2 && _); [discriminate|].
  destruct (Psbt.wallet_is_loaded _).
  - destruct (negb _); [discriminate|]. injection Hv as <-. cbn. auto.
  - injection Hv as <-. cbn. auto.
Qed.

Section Decoding.
Context `{Collaborators}.

(** What the decoding cascade returns is the first encoding that applies. *)
Lemma parse_psbt_data_detected (psbt_data : Psbt.psbt_input) (qr_format : Z)
    (p : PSBT) (enc : option Z) (ur : option Psbt.RegistryType) :
  Psbt.parse_psbt_data psbt_data qr_format = Ok (p, enc, ur) ->
  exists e b0,
    Psbt.detected_encoding psbt_data = Some (e, b0)
    /\ PSBT_parse b0 = Some p
    /\ (enc, ur) = Psbt.encoding_fields (Psbt.recorded_encoding e qr_format).
Proof.
  assert (Hbytes : forall raw,
    Psbt.try_except
      (p <- Psbt.lib_call (PSBT_parse raw) ;;
       Ok (p, (if qr_format =? FORMAT_PMOFN then Some 64 else None), None))
      (Psbt.try_except
         (d <- Psbt.lib_call (base_decode raw 64) ;;
          p <- Psbt.lib_call (PSBT_parse d) ;; Ok (p, Some 64, None))
         (Psbt.try_except
            (d <- Psbt.lib_call (base_decode raw 58) ;;
             p <- Psbt.lib_call (PSBT_parse d) ;; Ok (p, Some 58, None))
            (Psbt.try_except
               (d <- Psbt.lib_call (base_decode raw 43) ;;
                p <- Psbt.lib_call (PSBT_parse d) ;; Ok (p, Some 43, None))
               (Raise (ValueError "invalid PSBT")))))
    = Ok (p, enc, ur) ->
    exists e b0,
      Psbt.or_else (if Psbt.parses raw then Some (Psbt.EncRaw, raw) else None)
        (Psbt.or_else (Psbt.via_base raw 64)
           (Psbt.or_else (Psbt.via_base raw 58) (Psbt.via_base raw 43)))
      = Some (e, b0)
      /\ PSBT_parse b0 = Some p
      /\ (enc, ur) = Psbt.encoding_fields (Psbt.recorded_encoding e qr_format)).
  { intros raw. unfold Psbt.via_base, Psbt.parses.
    destruct (PSBT_parse raw) as [q|] eqn:E0; cbn.
    { intros [= <- <- <-]. exists Psbt.EncRaw, raw. split; [reflexivity|].
      split; [exact E0|]. unfold Psbt.recorded_encoding.
      destruct (qr_format =? FORMAT_PMOFN); reflexivity. }
    destruct (base_decode raw 64) as [b64|]; cbn.
    { destruct (PSBT_parse b64) as [q|] eqn:E64; cbn.
      { intros [= <- <- <-]. exists (Psbt.EncBase 64), b64. auto. }
      destruct (base_decode raw 58) as [b58|]; cbn.
      { destruct (PSBT_parse b58) as [q|] eqn:E58; cbn.
        { intros [= <- <- <-]. exists (Psbt.EncBase 58), b58. auto. }
        destruct (base_decode raw 43) as [b43|]; cbn; [|discriminate].
        destruct (PSBT_parse b43) as [q|] eqn:E43; cbn; [|discriminate].
        intros [= <- <- <-]. exists (Psbt.EncBase 43), b43. auto. }
      destruct (base_decode raw 43) as [b43|]; cbn; [|discriminate].
      destruct (PSBT_parse b43) as [q|] eqn:E43; cbn; [|discriminate].
      intros [= <- <- <-]. exists (Psbt.EncBase 43), b43. auto. }
    destruct (base_decode raw 58) as [b58|]; cbn.
    { destruct (PSBT_parse b58) as [q|] eqn:E58; cbn.
      { intros [= <- <- <-]. exists (Psbt.EncBase 58), b58. auto. }
      destruct (base_decode raw 43) as [b43|]; cbn; [|discriminate].
      destruct (PSBT_parse b43) as [q|] eqn:E43; cbn; [|discriminate].
      intros [= <- <- <-]. exists (Psbt.EncBase 43), b43. auto. }
    destruct (base_decode raw 43) as [b43|]; cbn; [|discriminate].
    destruct (PSBT_parse b43) as [q|] eqn:E43; cbn; [|discriminate].
    intros [= <- <- <-]. exists (Psbt.EncBase 43), b43. auto. }
  destruct psbt_data as [u|str|raw]; unfold Psbt.parse_psbt_data, Psbt.detected_encoding.
  - unfold Psbt.parses.
    destruct (from_cbor (UR_cbor u)) as [d|]; cbn; [|discriminate].
    destruct (PSBT_parse d) as [q|] eqn:E; cbn; [|discriminate].
    intros [= <- <- <-]. exists Psbt.EncUR, d. auto.
  - apply Hbytes.
  - apply Hbytes.
Qed.

End Decoding.

(** C9, as amended.  For every PSBT the constructor accepts, in whichever
    of the five encodings, [psbt_qr] before [sign] returns the serialised
    PSBT in the recorded encoding, with the requested QR format: the
    encoding detected at decode time, except that raw binary read for a
    PMofN QR code is returned as Base64.  When the encoding services invert
    their encoders and [PSBT.serialize] gives back the bytes [PSBT.parse]
    read, decoding the payload yields the bytes of the original
    transaction. *)
Theorem psbt_qr_round_trip `{Collaborators}
    (wallet : Psbt.Wallet) (psbt_data : Psbt.psbt_input) (qr_format : Z)
    (self : Psbt.PSBTSigner) :
  Psbt.__init__ wallet psbt_data qr_format = Ok self ->
  exists e b0,
    Psbt.detected_encoding psbt_data = Some (e, b0)
    /\ PSBT_parse b0 = Some (Psbt.psbt self)
    /\ Psbt.psbt_qr self
       = (Psbt.encode_payload (Psbt.recorded_encoding e qr_format)
            (PSBT_serialize (Psbt.psbt self)), qr_format)
    /\ ((forall b n, base_decode (base_encode b n) n = Some b) ->
        (forall b, from_cbor (to_cbor (DBytes b)) = Some b) ->
        (forall b p, PSBT_parse b = Some p -> PSBT_serialize p = b) ->
        Psbt.decode_payload (Psbt.recorded_encoding e qr_format) (fst (Psbt.psbt_qr self))
        = Some b0).
Proof.
  intros Hinit. unfold Psbt.__init__ in Hinit.
  apply bind_ok in Hinit as ([[p enc] ur] & Hparse & Hvalid).
  apply validate_keeps in Hvalid as (Hpsbt & Henc & Hur & Hqr & _).
  cbn [Psbt.psbt Psbt.base_encoding Psbt.ur_type Psbt.qr_format] in Hpsbt, Henc, Hur, Hqr.
  destruct (parse_psbt_data_detected psbt_data qr_format p enc ur Hparse)
    as (e & b0 & Hdet & Hb0 & Hfields).
  exists e, b0. rewrite Hpsbt. split; [exact Hdet|]. split; [exact Hb0|].
  assert (Hqrp : Psbt.psbt_qr self
                 = (Psbt.encode_payload (Psbt.recorded_encoding e qr_format)
                      (PSBT_serialize p), qr_format)).
  { unfold Psbt.psbt_qr. rewrite Hpsbt, Henc, Hur, Hqr.
    destruct (Psbt.recorded_encoding e qr_format); cbn in Hfields;
      injection Hfields as -> ->; reflexivity. }
  split; [exact Hqrp|].
  intros Hbase Hcbor Hser. rewrite Hqrp. cbn [fst].
  rewrite (Hser b0 p Hb0).
  destruct (Psbt.recorded_encoding e qr_format); cbn.
  - apply Hcbor.
  - reflexivity.
  - rewrite list_byte_of_string_of_list_byte. apply Hbase.
Qed.

Lemma sample_base_round_trip (b : bytes) (n : Z) :
  Sample.base_decode (Sample.base_encode b n) n = Some b.
Proof.
  unfold Sample.base_decode, Sample.base_encode.
  now rewrite (proj2 (byte_eqb_eq _ _) eq_refl).
Qed.

Lemma sample_cbor_round_trip (b : bytes) : Sample.from_cbor (Sample.to_cbor (DBytes b)) = Some b.
Proof. reflexivity. Qed.

Lemma sample_serialize_parse (b : bytes) (p : PSBT) :
  Sample.PSBT_parse b = Some p -> Sample.PSBT_serialize p = b.
Proof.
  unfold Sample.PSBT_parse, Sample.psbt_table. cbn [find fst snd].
  repeat match goal with
         | |- context [bytes_eqb ?k b] =>
             let E := fresh "E" in
             destruct (bytes_eqb k b) eqn:E;
             [apply bytes_eqb_eq in E; subst b; intros [= <-]; vm_compute; reflexivity|]
         end.
  discriminate.
Qed.

Lemma sample_multisig_signer :
  Psbt.__init__ (H := Sample.collaborators) Sample.multisig_wallet
    (Psbt.InBytes (Sample.psbt_magic ++ [x03])) 1 = Ok Sample.multisig_signer.
Proof. vm_compute. reflexivity. Qed.

(** The property at the sample multisig PSBT read as raw bytes for a PMofN
    QR code: the payload is its Base64 form and decodes to the bytes read. *)
Lemma psbt_qr_round_trip_witness :
  Psbt.__init__ (H := Sample.collaborators) Sample.multisig_wallet
    (Psbt.InBytes (Sample.psbt_magic ++ [x03])) 1 = Ok Sample.multisig_signer
  /\ exists e b0,
       Psbt.detected_encoding (H := Sample.collaborators)
         (Psbt.InBytes (Sample.psbt_magic ++ [x03])) = Some (e, b0)
       /\ Psbt.decode_payload (H := Sample.collaborators)
            (Psbt.recorded_encoding (H := Sample.collaborators) e 1)
            (fst (Psbt.psbt_qr (H := Sample.collaborators) Sample.multisig_signer))
          = Some b0.
Proof.
  split; [exact sample_multisig_signer|].
  destruct (psbt_qr_round_trip (H := Sample.collaborators) Sample.multisig_wallet
              (Psbt.InBytes (Sample.psbt_magic ++ [x03])) 1 Sample.multisig_signer
              sample_multisig_signer) as (e & b0 & Hdet & _ & _ & Hdecode).
  exists e, b0. split; [exact Hdet|].
  exact (Hdecode sample_base_round_trip sample_cbor_round_trip sample_serialize_parse).
Defined.

(** C9 as stated fails: raw binary is the encoding detected for the sample
    multisig PSBT, but read for a PMofN QR code it is not returned as raw
    binary: the payload is the Base64 text. *)
Lemma psbt_qr_round_trip_counterexample :
  Psbt.__init__ (H := Sample.collaborators) Sample.multisig_wallet
    (Psbt.InBytes (Sample.psbt_magic ++ [x03])) (FORMAT_PMOFN (Collaborators := Sample.collaborators))
  = Ok Sample.multisig_signer
  /\ Psbt.detected_encoding (H := Sample.collaborators)
       (Psbt.InBytes (Sample.psbt_magic ++ [x03]))
     = Some (Psbt.EncRaw, Sample.psbt_magic ++ [x03])
  /\ fst (Psbt.psbt_qr (H := Sample.collaborators) Sample.multisig_signer)
     <> Psbt.encode_payload (H := Sample.collaborators) Psbt.EncRaw
          (Sample.PSBT_serialize (Psbt.psbt Sample.multisig_signer))
  /\ fst (Psbt.psbt_qr (H := Sample.collaborators) Sample.multisig_signer)
     = Psbt.encode_payload (H := Sample.collaborators) (Psbt.EncBase 64)
         (Sample.PSBT_serialize (Psbt.psbt Sample.multisig_signer)).
Proof.
  split; [exact sample_multisig_signer|].
  split; [vm_compute; reflexivity|].
  split; [|reflexivity].
  cbn [Psbt.psbt_qr Psbt.base_encoding Psbt.ur_type Sample.multisig_signer fst
       Psbt.encode_payload].
  discriminate.
Qed.

(** ** psbt.py: [outputs] *)

Lemma sum_amounts_app (l : list (string * Z)) (e : string * Z) :
  Psbt.sum_amounts (l ++ [e]) = Psbt.sum_amounts l + snd e.
Proof. induction l as [|x l IH]; simpl; [lia | rewrite IH; lia]. Qed.

Lemma inputs_amount_loop (inputs : list Scope) (acc a : Z) :
  for_each
    (fun inp_amount inp =>
       match witness_utxo inp with
       | Some utxo => Ok (inp_amount + value utxo)
       | None => Raise (AttributeError "'NoneType' object has no attribute 'value'")
       end) inputs acc = Ok a ->
  a = acc + Psbt.sum_input_values inputs
  /\ Forall (fun inp => witness_utxo inp <> None) inputs.
Proof.
  revert acc. induction inputs as [|inp inputs IH]; intros acc.
  - simpl. intros [= <-]. split; [lia | constructor].
  - cbn [for_each]. unfold Psbt.sum_input_values. cbn [fold_right].
    fold (Psbt.sum_input_values inputs). unfold Psbt.utxo_value.
    destruct (witness_utxo inp) as [utxo|] eqn:E; cbn [bind]; [|discriminate].
    intros Hrest. apply IH in Hrest as [-> Hall]. split; [lia|].
    constructor; [congruence | exact Hall].
Qed.

Section Outputs.
Context `{Collaborators}.
Variable self : Psbt.PSBTSigner.
Variable xs : dict HDKey DerivationPath.

(** One turn of the loop puts the output in exactly one of the three lists
    and adds its value to the total of that list. *)
Lemma outputs_step_accounts (st st' : Psbt.outputs_locals) (i : Z) (out : Scope) :
  Psbt.outputs_step self xs st (i, out) = Ok st' ->
  exists v,
    list_index (vout (psbt_tx (Psbt.psbt self))) i = Ok v
    /\ Psbt.classified_total st' = Psbt.classified_total st + value v
    /\ Psbt.classified_count st' = S (Psbt.classified_count st)
    /\ (Psbt.accounted st -> Psbt.accounted st').
Proof.
  unfold Psbt.outputs_step. intros Hstep.
  apply bind_ok in Hstep as (v & Hv & Hstep). exists v. split; [exact Hv|].
  apply bind_ok in Hstep as (out_policy & _ & Hstep).
  apply bind_ok in Hstep as (sc' & _ & Hstep).
  apply bind_ok in Hstep as (sc_now & _ & Hstep).
  unfold Psbt.classified_total, Psbt.classified_count, Psbt.accounted.
  destruct (bytes_eqb _ _).
  - apply bind_ok in Hstep as (change & _ & Hstep).
    destruct change; injection Hstep as <-; cbn;
      rewrite ?length_app, ?sum_amounts_app; cbn; repeat split; try lia;
      unfold Psbt.sum_amounts in *; intuition lia.
  - injection Hstep as <-; cbn;
      rewrite ?length_app, ?sum_amounts_app; cbn; repeat split; try lia;
      unfold Psbt.sum_amounts in *; intuition lia.
Qed.

Lemma nth_error_skipn_cons {A : Type} (l : list A) (k : nat) (x : A) :
  nth_error l k = Some x -> skipn k l = x :: skipn (S k) l.
Proof.
  revert k. induction l as [|y l IH]; intros [|k]; simpl; try discriminate.
  - now intros [= ->].
  - intros Hk. now rewrite (IH k Hk).
Qed.

Lemma outputs_loop_accounts (outs : list Scope) (k : nat) (st st' : Psbt.outputs_locals) :
  for_each (Psbt.outputs_step self xs)
           (combine (map Z.of_nat (seq k (List.length outs))) outs) st = Ok st' ->
  Psbt.classified_total st'
  = Psbt.classified_total st
    + Psbt.sum_values (firstn (List.length outs) (skipn k (vout (psbt_tx (Psbt.psbt self)))))
  /\ Psbt.classified_count st' = (Psbt.classified_count st + List.length outs)%nat
  /\ (Psbt.accounted st -> Psbt.accounted st').
Proof.
  revert k st. induction outs as [|out outs IH]; intros k st.
  - simpl. intros [= <-]. split; [lia|]. split; [lia | tauto].
  - cbn [List.length seq map combine for_each]. intros Hloop.
    apply bind_ok in Hloop as (st1 & Hstep & Hloop).
    apply outputs_step_accounts in Hstep as (v & Hv & Htotal & Hcount & Hacc).
    apply IH in Hloop as (Htotal' & Hcount' & Hacc').
    rewrite list_index_nonneg, Nat2Z.id in Hv by lia.
    destruct (nth_error _ k) as [v'|] eqn:E; [|discriminate]. injection Hv as ->.
    rewrite (nth_error_skipn_cons _ k v E). cbn [firstn Psbt.sum_values fold_right].
    fold (Psbt.sum_values (firstn (List.length outs)
                             (skipn (S k) (vout (psbt_tx (Psbt.psbt self)))))).
    split; [lia|]. split; [lia | tauto].
Qed.

End Outputs.

Lemma classify_outputs_accounts `{Collaborators} (self : Psbt.PSBTSigner)
    (st : Psbt.outputs_locals) :
  Psbt.classify_outputs self = Ok st ->
  Psbt.accounted st
  /\ (List.length (psbt_outputs (Psbt.psbt self))
      = List.length (vout (psbt_tx (Psbt.psbt self))) ->
      Psbt.classified_total st = Psbt.sum_values (vout (psbt_tx (Psbt.psbt self)))
      /\ Psbt.classified_count st = List.length (vout (psbt_tx (Psbt.psbt self)))).
Proof.
  unfold Psbt.classify_outputs. intros Hc.
  apply bind_ok in Hc as (xs & _ & Hloop).
  unfold enumerate, range, len in Hloop. rewrite Nat2Z.id in Hloop.
  apply outputs_loop_accounts in Hloop as (Htotal & Hcount & Hacc).
  split; [apply Hacc; unfold Psbt.accounted; auto|].
  intros Hlen. rewrite Htotal, Hcount, Hlen. cbn [skipn].
  rewrite firstn_all. split; reflexivity.
Qed.

Lemma pct_format_btc (s : string) : pct_format "₿%s" [ArgStr s] = Ok ("₿" +s+ s).
Proof. simpl. now rewrite append_empty_r. Qed.

Lemma cons_eq_hd {A : Type} (x y : A) (l l' : list A) : x :: l = y :: l' -> x = y.
Proof. intros Heq. exact (f_equal (hd x) Heq). Qed.

(** C6. When [outputs] returns, its first message ends with [t("Fee: ")]
    followed by the text of the fee, [t("₿%s") % satcomma(fee)], which is
    the bitcoin sign followed by [satcomma(fee)] when the sign is not
    translated; the fee is
    [inp_amount - spend_amount - self_amount - change_amount], where
    [inp_amount] is the sum of the inputs' witness-UTXO values and the three
    amounts are the totals of the spend, self-transfer and change lists;
    every output is in exactly one of the three lists, so that for a PSBT
    with one output scope per transaction output the fee is the sum of the
    input values minus the sum of all output values. *)
Theorem outputs_fee `{Collaborators} (self : Psbt.PSBTSigner) (messages : list string) :
  Psbt.outputs self = Ok messages ->
  exists inp_amount st inputs_str spend_str self_or_change_str fee_str rest,
    Psbt.inputs_amount self = Ok inp_amount
    /\ inp_amount = Psbt.sum_input_values (psbt_inputs (Psbt.psbt self))
    /\ Psbt.classify_outputs self = Ok st
    /\ Psbt.accounted st
    /\ pct_format (t "₿%s")
         [ArgStr (satcomma (inp_amount - Psbt.spend_amount st - Psbt.self_amount st
                            - Psbt.change_amount st))] = Ok fee_str
    /\ (t "₿%s" = "₿%s" ->
        fee_str = "₿" +s+ satcomma (inp_amount - Psbt.spend_amount st
                                    - Psbt.self_amount st - Psbt.change_amount st))
    /\ messages
       = (inputs_str +s+ spend_str +s+ self_or_change_str +s+ t "Fee: " +s+ fee_str) :: rest
    /\ (List.length (psbt_outputs (Psbt.psbt self))
        = List.length (vout (psbt_tx (Psbt.psbt self))) ->
        inp_amount - Psbt.spend_amount st - Psbt.self_amount st - Psbt.change_amount st
        = Psbt.sum_input_values (psbt_inputs (Psbt.psbt self))
          - Psbt.sum_values (vout (psbt_tx (Psbt.psbt self)))
        /\ Psbt.classified_count st = List.length (vout (psbt_tx (Psbt.psbt self)))).
Proof.
  unfold Psbt.outputs. intros Hout.
  apply bind_ok in Hout as (inp_amount & Hin & Hout).
  apply bind_ok in Hout as (a & _ & Hout).
  apply bind_ok in Hout as (b & _ & Hout).
  apply bind_ok in Hout as (st & Hst & Hout).
  apply bind_ok in Hout as (spend_str & _ & Hout).
  apply bind_ok in Hout as (self_str & _ & Hout).
  apply bind_ok in Hout as (fee_str & Hfee & Hout).
  apply bind_ok in Hout as (spend & _ & Hout).
  apply bind_ok in Hout as (self_transfer & _ & Hout).
  apply bind_ok in Hout as (change & _ & Hout).
  injection Hout as <-.
  pose proof Hin as Hsum. unfold Psbt.inputs_amount in Hsum.
  apply inputs_amount_loop in Hsum as [Hsum _]. rewrite Z.add_0_l in Hsum.
  destruct (classify_outputs_accounts self st Hst) as [Hacc Hall].
  unfold Psbt.btc_str, Psbt.fee_of in Hfee.
  exists inp_amount, st, (a +s+ b +s+ Psbt.newline +s+ Psbt.newline), spend_str, self_str,
    fee_str, (spend ++ self_transfer ++ change).
  split; [exact Hin|]. split; [exact Hsum|]. split; [exact Hst|]. split; [exact Hacc|].
  split; [exact Hfee|]. split.
  { intros Ht. rewrite Ht, pct_format_btc in Hfee. now injection Hfee as <-. }
  split; [reflexivity|].
  intros Hlen. destruct (Hall Hlen) as [Htotal Hcount]. split; [|exact Hcount].
  unfold Psbt.classified_total in Htotal. rewrite <- Hsum. lia.
Qed.

Lemma sample_outputs_run :
  is_ok (Psbt.outputs (H := Sample.collaborators) Sample.signer_change_first) = true
  /\ Psbt.sum_input_values (psbt_inputs (Psbt.psbt Sample.signer_change_first))
     - Psbt.sum_values (vout (psbt_tx (Psbt.psbt Sample.signer_change_first))) = 1000.
Proof. split; vm_compute; reflexivity. Qed.

Lemma sample_outputs_text :
  match Psbt.outputs (H := Sample.collaborators) Sample.signer_change_first with
  | Ok (first :: _) =>
      first = "Inputs (1): ₿100000" +s+ Psbt.newline +s+ Psbt.newline
              +s+ "Spend (1): ₿60000" +s+ Psbt.newline +s+ Psbt.newline
              +s+ "Self-transfer or Change (1): ₿39000" +s+ Psbt.newline +s+ Psbt.newline
              +s+ "Fee: ₿1000"
  | _ => False
  end.
Proof. vm_compute. reflexivity. Qed.

Lemma sample_fee_text :
  t (Collaborators := Sample.collaborators) "₿%s" = "₿%s"
  /\ t (Collaborators := Sample.collaborators) "Fee: " = "Fee: "
  /\ "₿" +s+ satcomma (Collaborators := Sample.collaborators) 1000 = "₿1000".
Proof. repeat split; vm_compute; reflexivity. Qed.

(** The property at the sample single-sig signer, for a transaction of
    100000 with a change output of 39000 and a payment of 60000: the text
    of the first message, and its end as the theorem gives it. *)
Lemma outputs_fee_witness :
  exists rest inputs_str spend_str self_or_change_str,
    Psbt.outputs (H := Sample.collaborators) Sample.signer_change_first
    = Ok (("Inputs (1): ₿100000" +s+ Psbt.newline +s+ Psbt.newline
           +s+ "Spend (1): ₿60000" +s+ Psbt.newline +s+ Psbt.newline
           +s+ "Self-transfer or Change (1): ₿39000" +s+ Psbt.newline +s+ Psbt.newline
           +s+ "Fee: ₿1000") :: rest)
    /\ "Inputs (1): ₿100000" +s+ Psbt.newline +s+ Psbt.newline
       +s+ "Spend (1): ₿60000" +s+ Psbt.newline +s+ Psbt.newline
       +s+ "Self-transfer or Change (1): ₿39000" +s+ Psbt.newline +s+ Psbt.newline
       +s+ "Fee: ₿1000"
       = inputs_str +s+ spend_str +s+ self_or_change_str +s+ "Fee: " +s+ "₿1000"
    /\ Psbt.sum_input_values (psbt_inputs (Psbt.psbt Sample.signer_change_first))
       - Psbt.sum_values (vout (psbt_tx (Psbt.psbt Sample.signer_change_first))) = 1000.
Proof.
  pose proof sample_outputs_text as Hrun.
  pose proof (proj2 sample_outputs_run) as Hfee.
  destruct sample_fee_text as (Hsign & Hlabel & Htext).
  destruct (Psbt.outputs (H := Sample.collaborators) Sample.signer_change_first)
    as [[|first rest]|e] eqn:E; [destruct Hrun | | destruct Hrun].
  destruct (outputs_fee (H := Sample.collaborators) Sample.signer_change_first
              (first :: rest) E)
    as (inp_amount & st & inputs_str & spend_str & self_str & fee_str & rest'
        & _ & _ & _ & _ & _ & Hstr & Hmsg & Hbalance).
  exists rest, inputs_str, spend_str, self_str.
  apply cons_eq_hd in Hmsg.
  destruct (Hbalance eq_refl) as [Heq _].
  rewrite (Hstr Hsign), Heq, Hfee, Htext, Hlabel in Hmsg.
  rewrite <- Hmsg, <- Hrun.
  split; [reflexivity|]. split; [reflexivity | exact Hfee].
Defined.

(** C1.  [outputs] does not classify as "spend" an output whose policy
    differs from the shared input policy when it is the first output: the
    local [sc], which is assigned only under [if out_policy == self.policy],
    is still unbound when [sc.data] is read, and the call raises
    [UnboundLocalError] instead of returning the messages. *)
Theorem outputs_first_output_other_policy `{Collaborators}
    (self : Psbt.PSBTSigner) (xs : dict HDKey DerivationPath)
    (out : Scope) (outs : list Scope) (v : TxOut) (vs : list TxOut)
    (out_policy : Psbt.Policy) :
  Psbt.xpubs self = Ok xs ->
  psbt_outputs (Psbt.psbt self) = out :: outs ->
  vout (psbt_tx (Psbt.psbt self)) = v :: vs ->
  Psbt.get_policy out (script_pubkey v) xs = Ok out_policy ->
  Psbt.policy self <> Some out_policy ->
  Psbt.classify_outputs self = Raise (UnboundLocalError "sc")
  /\ forall messages, Psbt.outputs self <> Ok messages.
Proof.
  intros Hxs Houts Hvout Hpolicy Hother.
  assert (Hclass : Psbt.classify_outputs self = Raise (UnboundLocalError "sc")).
  { unfold Psbt.classify_outputs. rewrite Hxs, Houts. cbn [bind].
    unfold enumerate, range, len. rewrite Nat2Z.id.
    cbn [List.length seq map combine for_each].
    unfold Psbt.outputs_step at 1. rewrite Hvout.
    change (list_index (v :: vs) (Z.of_nat 0)) with (Ok v). cbn [bind].
    rewrite Hpolicy. cbn [bind].
    assert (Hneq : Psbt.opt_policy_eqb (Some out_policy) (Psbt.policy self) = false).
    { destruct (Psbt.policy self) as [p|]; [|reflexivity].
      cbn. apply policy_eqb_neq. congruence. }
    rewrite Hneq. reflexivity. }
  split; [exact Hclass|].
  intros messages Hout. unfold Psbt.outputs in Hout.
  apply bind_ok in Hout as (inp_amount & _ & Hout).
  apply bind_ok in Hout as (a & _ & Hout).
  apply bind_ok in Hout as (b & _ & Hout).
  apply bind_ok in Hout as (st & Hst & _).
  rewrite Hclass in Hst. discriminate Hst.
Qed.

Lemma sample_spend_first_policy :
  Psbt.get_policy (H := Sample.collaborators) Psbt.blank_scope
    (script_pubkey Sample.spend_txout) []
  = Ok {| Psbt.policy_type := "p2pkh"; Psbt.policy_m := None; Psbt.policy_n := None;
          Psbt.policy_cosigners := None |}.
Proof. vm_compute. reflexivity. Qed.

(** The failing input: the sample single-sig (p2wpkh) signer for a
    transaction whose first output pays a p2pkh address of somebody else and
    whose second output is the change.  The constructor accepts the PSBT and
    [outputs] raises. *)
Lemma outputs_first_output_other_policy_witness :
  Psbt.__init__ (H := Sample.collaborators) Sample.single_wallet
    (Psbt.InBytes (Sample.psbt_magic ++ [x02])) Sample.FORMAT_NONE
  = Ok Sample.signer_spend_first
  /\ Psbt.outputs (H := Sample.collaborators) Sample.signer_spend_first
     = Raise (UnboundLocalError "sc")
  /\ Psbt.classify_outputs (H := Sample.collaborators) Sample.signer_spend_first
     = Raise (UnboundLocalError "sc")
  /\ forall messages,
       Psbt.outputs (H := Sample.collaborators) Sample.signer_spend_first <> Ok messages.
Proof.
  split; [vm_compute; reflexivity|]. split; [vm_compute; reflexivity|].
  apply (outputs_first_output_other_policy (H := Sample.collaborators)
           Sample.signer_spend_first [] Psbt.blank_scope [Sample.change_scope]
           Sample.spend_txout [Sample.change_txout]
           {| Psbt.policy_type := "p2pkh"; Psbt.policy_m := None; Psbt.policy_n := None;
              Psbt.policy_cosigners := None |}).
  - reflexivity.
  - reflexivity.
  - reflexivity.
  - exact sample_spend_first_policy.
  - discriminate.
Defined.

(** In the same order with the change first, [outputs] returns and the
    payment is a "spend": the stale [sc] of the change output is compared
    with the script of the payment. *)
Lemma outputs_change_first_example :
  Sample.class_counts
    (Psbt.classify_outputs (H := Sample.collaborators) Sample.signer_change_first)
  = Some (1%nat, 0%nat, 1%nat).
Proof. vm_compute. reflexivity. Qed.

(** A second output that pays the change script again, without a witness
    script in its scope, has another policy than the inputs; it is not a
    "spend": the [sc] of the first output is still bound and equals its
    script. *)
Lemma outputs_stale_script_example :
  Psbt.get_policy (H := Sample.collaborators) Psbt.blank_scope
    (script_pubkey Sample.multisig_change_txout) Sample.multisig_xpubs
  = Ok {| Psbt.policy_type := "p2wsh"; Psbt.policy_m := None; Psbt.policy_n := None;
          Psbt.policy_cosigners := None |}
  /\ Sample.class_counts
       (Psbt.classify_outputs (H := Sample.collaborators) Sample.signer_change_twice)
     = Some (0%nat, 2%nat, 0%nat).
Proof. split; vm_compute; reflexivity. Qed.

(** ** psbt.py: change or self-transfer *)

(** [is_change] reads the fourth index of the first derivation. *)
Lemma is_change_reads_index_3 (out : Scope) (d0 : DerivationPath)
    (rest : list DerivationPath) (i0 i1 i2 i3 : Z) (tail : list Z) :
  dict_values (bip32_derivations out) = d0 :: rest ->
  derivation d0 = i0 :: i1 :: i2 :: i3 :: tail ->
  Psbt.is_change out = Ok (i3 =? 1).
Proof. intros Hd Hder. unfold Psbt.is_change. rewrite Hd, Hder. reflexivity. Qed.

(** On a single-sig path [purpose'/coin'/account'/change/index] that is
    the change flag. *)
Lemma is_change_single_sig (out : Scope) (d0 : DerivationPath)
    (rest : list DerivationPath) (purpose coin account change index : Z) :
  dict_values (bip32_derivations out) = d0 :: rest ->
  derivation d0 = [purpose; coin; account; change; index] ->
  Psbt.change_flag (derivation d0) = Some change
  /\ Psbt.is_change out = Ok (change =? 1).
Proof.
  intros Hd Hder. split; [now rewrite Hder|].
  now apply (is_change_reads_index_3 out d0 rest purpose coin account change [index]).
Qed.

(** C3.  On the default multisig path [48'/coin'/account'/2'/change/index]
    the change flag is the fifth index, and [outputs] reads the fourth: a
    wallet-owned multisig output whose change flag is 1 is put in the
    self-transfer list, not in the change list. *)
Theorem multisig_change_is_self_transfer `{Collaborators}
    (self : Psbt.PSBTSigner) (xs : dict HDKey DerivationPath)
    (st st' : Psbt.outputs_locals) (i : Z) (out : Scope) (v : TxOut)
    (d0 : DerivationPath) (rest : list DerivationPath) (coin account index : Z)
    (script : Script) :
  Psbt.outputs_step self xs st (i, out) = Ok st' ->
  list_index (vout (psbt_tx (Psbt.psbt self))) i = Ok v ->
  Psbt.sc st' = Some script ->
  data script = data (script_pubkey v) ->
  dict_values (bip32_derivations out) = d0 :: rest ->
  derivation d0 = [Psbt.hardened 48; coin; account; Psbt.hardened 2; 1; index] ->
  Psbt.change_flag (derivation d0) = Some 1
  /\ Psbt.change_list st' = Psbt.change_list st
  /\ Psbt.self_transfer_list st'
     = Psbt.self_transfer_list st
       ++ [(address (script_pubkey v)
              (Key.key_network (Psbt.wallet_key (Psbt.wallet self))), value v)].
Proof.
  intros Hstep Hv Hsc Hdata Hd Hder. split; [now rewrite Hder|].
  unfold Psbt.outputs_step in Hstep. rewrite Hv in Hstep. cbn [bind] in Hstep.
  apply bind_ok in Hstep as (out_policy & _ & Hstep).
  apply bind_ok in Hstep as (sc' & _ & Hstep).
  apply bind_ok in Hstep as (sc_now & Hnow & Hstep).
  rewrite (is_change_reads_index_3 out d0 rest _ _ _ _ _ Hd Hder) in Hstep.
  cbn [bind] in Hstep.
  assert (Hsc' : sc' = Some script).
  { destruct (bytes_eqb _ _); [destruct (_ =? 1)|]; injection Hstep as <-; exact Hsc. }
  subst sc'. injection Hnow as ->.
  rewrite (proj2 (bytes_eqb_eq _ _) Hdata) in Hstep.
  change (Psbt.hardened 2 =? 1) with false in Hstep.
  injection Hstep as <-. split; reflexivity.
Qed.

Lemma sample_multisig_step :
  option_map Psbt.sc
    (Sample.returned
       (Psbt.outputs_step (H := Sample.collaborators) Sample.multisig_signer
          Sample.multisig_xpubs Psbt.outputs_locals_init (0, Sample.multisig_change_scope)))
  = Some (Some (script_pubkey Sample.multisig_change_txout)).
Proof. vm_compute. reflexivity. Qed.

(** The failing input: the change output of the sample 2-of-3 wallet, on
    the path [m/48'/1'/0'/2'/1/0] of every cosigner.  The script rebuilt
    from its witness script is its scriptPubKey, its change flag is 1, and
    it is listed as a self-transfer. *)
Lemma multisig_change_is_self_transfer_witness :
  Psbt.rebuild_script (H := Sample.collaborators) Sample.multisig_signer
    Sample.multisig_change_scope = Ok (script_pubkey Sample.multisig_change_txout)
  /\ option_map (fun d => Psbt.change_flag (derivation d))
       (hd_error (dict_values (bip32_derivations Sample.multisig_change_scope)))
     = Some (Some 1)
  /\ Sample.class_counts
       (Psbt.classify_outputs (H := Sample.collaborators) Sample.multisig_signer)
     = Some (0%nat, 1%nat, 0%nat)
  /\ exists st',
       Psbt.outputs_step (H := Sample.collaborators) Sample.multisig_signer
         Sample.multisig_xpubs Psbt.outputs_locals_init (0, Sample.multisig_change_scope)
       = Ok st'
       /\ Psbt.change_list st' = []
       /\ Psbt.self_transfer_list st'
          = [(Sample.address (script_pubkey Sample.multisig_change_txout) Sample.testnet,
              50000)].
Proof.
  split; [vm_compute; reflexivity|]. split; [reflexivity|].
  split; [vm_compute; reflexivity|].
  pose proof sample_multisig_step as Hsc.
  destruct (Psbt.outputs_step (H := Sample.collaborators) Sample.multisig_signer
              Sample.multisig_xpubs Psbt.outputs_locals_init
              (0, Sample.multisig_change_scope)) as [st'|e] eqn:E; [|discriminate Hsc].
  cbn [Sample.returned option_map] in Hsc. injection Hsc as Hsc.
  exists st'. split; [reflexivity|].
  destruct (multisig_change_is_self_transfer (H := Sample.collaborators)
              Sample.multisig_signer Sample.multisig_xpubs Psbt.outputs_locals_init st'
              0 Sample.multisig_change_scope Sample.multisig_change_txout
              (snd (Sample.derivation_of Sample.root1 (Sample.account_path ++ [1; 0])))
              (map snd (map (fun root => Sample.derivation_of root
                                           (Sample.account_path ++ [1; 0]))
                            [Sample.root2; Sample.root3]))
              (Psbt.hardened 1) (Psbt.hardened 0) 0
              (script_pubkey Sample.multisig_change_txout)
              E eq_refl Hsc eq_refl eq_refl eq_refl) as (_ & Hchange & Hself).
  split; [exact Hchange | exact Hself].
Defined.

(** What one turn of the loop of [outputs] compares: the output is put in
    the spend list exactly when the script bound to [sc] after the turn
    differs from its scriptPubKey; and when the policy of the output is the
    shared one, that script is the one rebuilt for this output. *)
Lemma outputs_step_classes `{Collaborators} (self : Psbt.PSBTSigner)
    (xs : dict HDKey DerivationPath) (st st' : Psbt.outputs_locals)
    (i : Z) (out : Scope) (v : TxOut) (out_policy : Psbt.Policy) :
  Psbt.outputs_step self xs st (i, out) = Ok st' ->
  list_index (vout (psbt_tx (Psbt.psbt self))) i = Ok v ->
  Psbt.get_policy out (script_pubkey v) xs = Ok out_policy ->
  exists script,
    Psbt.sc st' = Some script
    /\ (Psbt.policy self = Some out_policy -> Psbt.rebuild_script self out = Ok script)
    /\ (Psbt.policy self <> Some out_policy -> Psbt.sc st = Some script)
    /\ (bytes_eqb (data script) (data (script_pubkey v)) = false <->
        List.length (Psbt.spend_list st') = S (List.length (Psbt.spend_list st))).
Proof.
  intros Hstep Hv Hpolicy. unfold Psbt.outputs_step in Hstep.
  rewrite Hv in Hstep. cbn [bind] in Hstep. rewrite Hpolicy in Hstep. cbn [bind] in Hstep.
  apply bind_ok in Hstep as (sc' & Hsc' & Hstep).
  apply bind_ok in Hstep as (script & Hnow & Hstep).
  destruct sc' as [s|]; [injection Hnow as ->|discriminate Hnow].
  exists script.
  assert (Hbound : Psbt.sc st' = Some script).
  { destruct (bytes_eqb _ _); [|now injection Hstep as <-].
    apply bind_ok in Hstep as (change & _ & Hstep).
    destruct change; now injection Hstep as <-. }
  split; [exact Hbound|]. split; [|split].
  - intros Hsame. rewrite Hsame in Hsc'. cbn [Psbt.opt_policy_eqb option_eqb] in Hsc'.
    rewrite (proj2 (policy_eqb_eq _ _) eq_refl) in Hsc'.
    apply bind_ok in Hsc' as (s & Hs & Heq). injection Heq as ->. exact Hs.
  - intros Hother.
    assert (Hneq : Psbt.opt_policy_eqb (Some out_policy) (Psbt.policy self) = false).
    { destruct (Psbt.policy self) as [p|]; [|reflexivity].
      cbn. apply policy_eqb_neq. congruence. }
    rewrite Hneq in Hsc'. now injection Hsc' as ->.
  - destruct (bytes_eqb _ _).
    + apply bind_ok in Hstep as (change & _ & Hstep).
      destruct change; injection Hstep as <-; cbn; split; (discriminate || lia).
    + injection Hstep as <-. cbn. rewrite length_app. cbn. split; [lia | reflexivity].
Qed.

(** * Further properties *)

(** ** key.py: showing derivations and fingerprints *)

Lemma str_replace_h_is_map (s : string) :
  str_replace "h" Key.HARDENED_STR_REPLACE s = str_map Key.quote_h s.
Proof.
  induction s as [|c s IH]; [reflexivity|].
  rewrite str_replace_h_cons. cbn [str_map]. unfold Key.quote_h at 1.
  destruct (ascii_dec "h" c) as [<-|Hne].
  - rewrite IH. reflexivity.
  - rewrite IH. replace (Ascii.eqb c "h") with false; [reflexivity|].
    symmetry. apply Ascii.eqb_neq. congruence.
Qed.

Lemma str_map_quote_h_no_h (s : string) : str_contains "h" (str_map Key.quote_h s) = false.
Proof.
  induction s as [|c s IH]; [reflexivity|].
  cbn [str_map]. apply no_h_cons; [|exact IH].
  unfold Key.quote_h. destruct (Ascii.eqb c "h") eqn:E; [discriminate|].
  now apply Ascii.eqb_neq.
Qed.

Lemma str_map_app (f : ascii -> ascii) (a b : string) :
  str_map f (a +s+ b) = str_map f a +s+ str_map f b.
Proof. induction a as [|c a IH]; simpl; [reflexivity | now rewrite IH]. Qed.

(** [format_derivation] and [derivation_str] always return: the text is the
    derivation with every [h] replaced by a quote and every other character
    kept, after the glyph when [pretty] is set; no [h] is left in it. *)
Theorem format_derivation_quotes (derivation : string) (pretty : bool) (self : Key.Key) :
  let glyph := if pretty then "↳ " else "" in
  Key.format_derivation derivation pretty
  = Ok (glyph +s+ str_map Key.quote_h derivation)
  /\ Key.derivation_str self pretty
     = Key.format_derivation (Key.key_derivation self) pretty
  /\ str_contains "h" (glyph +s+ str_map Key.quote_h derivation) = false
  /\ String.length (str_map Key.quote_h derivation) = String.length derivation.
Proof.
  intros glyph. split; [|split; [reflexivity|split]].
  - unfold Key.format_derivation, glyph. destruct pretty.
    + cbn -[str_replace]. rewrite append_empty_r, str_replace_h_is_map. reflexivity.
    + rewrite pct_format_percent_s. cbn [bind]. now rewrite str_replace_h_is_map.
  - unfold glyph. destruct pretty.
    + change ("↳ " +s+ str_map Key.quote_h derivation)
        with (str_map Key.quote_h "↳ " +s+ str_map Key.quote_h derivation).
      rewrite <- str_map_app. apply str_map_quote_h_no_h.
    + apply str_map_quote_h_no_h.
  - induction derivation as [|c d IH]; simpl; [reflexivity | now rewrite IH].
Qed.

Lemma hex_char_inj (a b : Z) :
  0 <= a < 16 -> 0 <= b < 16 -> hex_char a = hex_char b -> a = b.
Proof.
  intros Ha Hb Heq. apply (f_equal nat_of_ascii) in Heq. unfold hex_char in Heq.
  rewrite !nat_ascii_embedding in Heq
    by (destruct (a <? 10) eqn:?, (b <? 10) eqn:?; lia).
  destruct (a <? 10) eqn:Ea, (b <? 10) eqn:Eb;
    try apply Z.ltb_lt in Ea; try apply Z.ltb_ge in Ea;
    try apply Z.ltb_lt in Eb; try apply Z.ltb_ge in Eb; lia.
Qed.

Lemma hex_char_is_hex (a : Z) : 0 <= a < 16 -> Key.is_hex_digit (hex_char a) = true.
Proof.
  intros Ha. unfold Key.is_hex_digit, hex_char.
  rewrite nat_ascii_embedding by (destruct (a <? 10); lia).
  destruct (a <? 10) eqn:Ea; [apply Z.ltb_lt in Ea | apply Z.ltb_ge in Ea];
    rewrite Z2Nat.id by lia; apply orb_true_iff; [left | right];
    apply andb_true_iff; split; apply Z.leb_le; lia.
Qed.

Lemma byte_val_range (x : byte) : 0 <= byte_val x < 256.
Proof. unfold byte_val. pose proof (Byte.to_N_bounded x). lia. Qed.

Lemma byte_val_inj (x y : byte) : byte_val x = byte_val y -> x = y.
Proof.
  unfold byte_val. intros Heq. apply N2Z.inj in Heq.
  pose proof (Byte.of_to_N x) as Hx. rewrite Heq, Byte.of_to_N in Hx. congruence.
Qed.

Lemma hexlify_inj (a b : bytes) : hexlify a = hexlify b -> a = b.
Proof.
  revert b. induction a as [|x a IH]; intros [|y b]; simpl; try discriminate; [reflexivity|].
  intros [= Hhi Hlo Hrest]. f_equal; [|now apply IH].
  pose proof (byte_val_range x). pose proof (byte_val_range y).
  apply hex_char_inj in Hhi;
    [|split; [apply Z.div_pos | apply Z.div_lt_upper_bound]; lia ..].
  apply hex_char_inj in Hlo; [|apply Z.mod_pos_bound; lia ..].
  apply byte_val_inj.
  rewrite (Z.div_mod (byte_val x) 16), (Z.div_mod (byte_val y) 16) by lia. lia.
Qed.

Lemma hexlify_chars (b : bytes) :
  str_forallb Key.is_hex_digit (hexlify b) = true
  /\ String.length (hexlify b) = (2 * List.length b)%nat.
Proof.
  induction b as [|x b [IHc IHl]]; [split; reflexivity|].
  pose proof (byte_val_range x). cbn [hexlify str_forallb String.length List.length].
  rewrite !hex_char_is_hex, IHc, IHl;
    [split; [reflexivity | lia] | apply Z.mod_pos_bound; lia
     | split; [apply Z.div_pos | apply Z.div_lt_upper_bound]; lia].
Qed.

(** [format_fingerprint] and [fingerprint_hex_str] always return: two
    lower-case hexadecimal digits per byte, after the glyph when [pretty] is
    set; different fingerprints are shown differently. *)
Theorem format_fingerprint_hex (pretty : bool) :
  let glyph := if pretty then "⊚ " else "" in
  (forall fingerprint,
      Key.format_fingerprint fingerprint pretty = Ok (glyph +s+ hexlify fingerprint)
      /\ str_forallb Key.is_hex_digit (hexlify fingerprint) = true
      /\ String.length (hexlify fingerprint) = (2 * List.length fingerprint)%nat)
  /\ (forall self,
        Key.fingerprint_hex_str self pretty
        = Key.format_fingerprint (Key.key_fingerprint self) pretty)
  /\ (forall a b,
        Key.format_fingerprint a pretty = Key.format_fingerprint b pretty -> a = b).
Proof.
  intros glyph.
  assert (Hfmt : forall fingerprint,
             Key.format_fingerprint fingerprint pretty = Ok (glyph +s+ hexlify fingerprint)).
  { intros fp. unfold Key.format_fingerprint, glyph. destruct pretty.
    - cbn. now rewrite append_empty_r.
    - apply pct_format_percent_s. }
  split; [|split].
  - intros fp. split; [apply Hfmt | apply hexlify_chars].
  - reflexivity.
  - intros a b. rewrite !Hfmt. intros [= Heq]. apply hexlify_inj.
    unfold glyph in Heq. destruct pretty; [|exact Heq].
    cbn in Heq. now injection Heq.
Qed.

(** ** key.py: script types without a default derivation *)

Lemma pct_format_three_levels (purpose c a : Z) :
  pct_format Key.DER_SINGLE [ArgInt purpose; ArgInt c; ArgInt a]
  = Ok ("m/" +s+ str_of_int purpose +s+ "h/" +s+ str_of_int c +s+ "h/"
        +s+ str_of_int a +s+ "h").
Proof. reflexivity. Qed.

Lemma pct_format_four_levels (purpose c a : Z) :
  pct_format Key.DER_MULTI [ArgInt purpose; ArgInt c; ArgInt a]
  = Ok ("m/" +s+ str_of_int purpose +s+ "h/" +s+ str_of_int c +s+ "h/"
        +s+ str_of_int a +s+ "h/2h").
Proof. reflexivity. Qed.

Lemma single_sig_purpose (st : string) :
  dict_get String.eqb Key.SINGLESIG_SCRIPT_PURPOSE st = None
  <-> Key.single_sig_type st = false.
Proof.
  unfold Key.single_sig_type, Key.SINGLESIG_SCRIPT_PURPOSE. cbn [dict_get existsb].
  rewrite !(String.eqb_sym st).
  destruct (String.eqb "p2pkh" st), (String.eqb "p2sh-p2wpkh" st),
    (String.eqb "p2wpkh" st), (String.eqb "p2tr" st); cbn; split; congruence.
Qed.

Lemma default_derivation_shape (multisig : bool) (network : Network) (account : Z)
    (st d : string) :
  Key.get_default_derivation multisig network account st = Ok d ->
  exists purpose,
    (if multisig then purpose = Key.MULTISIG_SCRIPT_PURPOSE
     else dict_get String.eqb Key.SINGLESIG_SCRIPT_PURPOSE st = Some purpose)
    /\ d = "m/" +s+ str_of_int purpose +s+ "h/" +s+ str_of_int (net_bip32 network)
           +s+ "h/" +s+ str_of_int account +s+ (if multisig then "h/2h" else "h").
Proof.
  unfold Key.get_default_derivation. destruct multisig.
  - cbn [bind]. rewrite pct_format_four_levels. intros [= <-].
    exists Key.MULTISIG_SCRIPT_PURPOSE. split; reflexivity.
  - destruct (dict_get String.eqb Key.SINGLESIG_SCRIPT_PURPOSE st) as [p|]; [|discriminate].
    cbn [bind]. rewrite pct_format_three_levels. intros [= <-].
    exists p. split; reflexivity.
Qed.

(** X3. [get_default_derivation] raises exactly for a single-sig key whose
    script type is none of p2pkh, p2sh-p2wpkh, p2wpkh and p2tr, and what it
    raises is [KeyError(script_type)]; for a multisig key the script type
    is not looked at.  [Key.__init__] calls it after the key library has
    made the root key, so for a single-sig key with such a script type the
    constructor returns no key, whatever the library does before. *)
Theorem default_derivation_unknown_script_type `{Collaborators}
    (mnemonic passphrase : string) (multisig : bool) (network : Network)
    (account : Z) (st : string) :
  (is_ok (Key.get_default_derivation multisig network account st)
   = multisig || Key.single_sig_type st)
  /\ (multisig = false /\ Key.single_sig_type st = false
      <-> Key.get_default_derivation multisig network account st = Raise (KeyError st))
  /\ (forall e,
        Key.get_default_derivation multisig network account st = Raise e ->
        e = KeyError st)
  /\ (forall st',
        Key.get_default_derivation true network account st'
        = Key.get_default_derivation true network account st)
  /\ (multisig = false /\ Key.single_sig_type st = false ->
      forall key,
        Key.__init__ mnemonic multisig network passphrase account st <> Ok key).
Proof.
  assert (Hmulti : forall st',
             Key.get_default_derivation true network account st'
             = Key.get_default_derivation true network account st) by reflexivity.
  assert (Hinit : multisig = false /\ Key.single_sig_type st = false ->
                  forall key,
                    Key.__init__ mnemonic multisig network passphrase account st
                    <> Ok key).
  { intros [-> Hst] key. apply single_sig_purpose in Hst.
    unfold Key.__init__, Key.get_default_derivation. cbn [negb]. rewrite Hst.
    discriminate. }
  unfold Key.get_default_derivation.
  destruct multisig; cbn [negb bind orb].
  - rewrite pct_format_four_levels. cbn [bind is_ok].
    split; [reflexivity|]. split; [split; [intros [? _] |]; discriminate|].
    split; [discriminate|]. split; [exact Hmulti | exact Hinit].
  - pose proof (single_sig_purpose st) as Hp.
    destruct (dict_get String.eqb Key.SINGLESIG_SCRIPT_PURPOSE st) as [p|].
    + cbn [bind]. rewrite pct_format_three_levels. cbn [bind is_ok].
      destruct (Key.single_sig_type st).
      * split; [reflexivity|]. split; [split; [intros [_ ?] |]; discriminate|].
        split; [discriminate|]. split; [exact Hmulti | exact Hinit].
      * exfalso. destruct Hp as [_ Hp]. specialize (Hp eq_refl). discriminate.
    + cbn [bind is_ok]. destruct Hp as [Hp _]. rewrite (Hp eq_refl).
      split; [reflexivity|]. split; [split; auto|].
      split; [now intros e [= <-]|]. split; [exact Hmulti|].
      intros _. apply Hinit. split; [reflexivity | exact (Hp eq_refl)].
Qed.

(** ** key.py: the key expression *)

Lemma str_forallb_app (f : ascii -> bool) (a b : string) :
  str_forallb f (a +s+ b) = str_forallb f a && str_forallb f b.
Proof.
  induction a as [|c a IH]; [reflexivity|].
  cbn [String.append str_forallb]. rewrite IH. apply andb_assoc.
Qed.

Lemma str_forallb_impl (f g : ascii -> bool) (s : string) :
  (forall c, f c = true -> g c = true) ->
  str_forallb f s = true -> str_forallb g s = true.
Proof.
  intros Himp. induction s as [|c s IH]; [reflexivity|].
  cbn [str_forallb]. rewrite !andb_true_iff. intros [Hc Hs]. split; auto.
Qed.

Lemma uint_string_digits (d : Decimal.uint) :
  str_forallb Key.is_digit_or_minus (NilEmpty.string_of_uint d) = true.
Proof.
  induction d; [reflexivity | ..]; cbn [NilEmpty.string_of_uint str_forallb];
    rewrite IHd; reflexivity.
Qed.

Lemma str_of_int_digits (z : Z) :
  str_forallb Key.is_digit_or_minus (str_of_int z) = true.
Proof.
  unfold str_of_int, NilZero.string_of_int, NilZero.string_of_uint.
  destruct (Z.to_int z) as [d|d].
  - destruct d; try reflexivity; apply uint_string_digits.
  - cbn [str_forallb]. apply andb_true_iff. split; [reflexivity|].
    destruct d; try reflexivity; apply uint_string_digits.
Qed.

Lemma str_after_app (c : ascii) (a b : string) :
  str_forallb (fun x => negb (Ascii.eqb x c)) a = true ->
  str_after c (a +s+ String c b) = Some b.
Proof.
  induction a as [|x a IH]; cbn [String.append str_after str_forallb].
  - now rewrite Ascii.eqb_refl.
  - rewrite andb_true_iff. intros [Hx Ha]. apply negb_true_iff in Hx.
    rewrite Hx. now apply IH.
Qed.

Lemma digit_not_bracket (c : ascii) :
  Key.is_digit_or_minus c = true -> negb (Ascii.eqb c "]") = true.
Proof.
  intros Hc. apply negb_true_iff, Ascii.eqb_neq. intros ->. discriminate.
Qed.

Lemma hex_digit_not_bracket (c : ascii) :
  Key.is_hex_digit c = true -> negb (Ascii.eqb c "]") = true.
Proof.
  intros Hc. apply negb_true_iff, Ascii.eqb_neq. intros ->. discriminate.
Qed.

Lemma str_of_int_no_bracket (z : Z) :
  str_forallb (fun x => negb (Ascii.eqb x "]")) (str_of_int z) = true.
Proof.
  apply (str_forallb_impl Key.is_digit_or_minus); [apply digit_not_bracket|].
  apply str_of_int_digits.
Qed.

Lemma key_expression_format (fingerprint tail account : string) :
  pct_format "[%s%s]%s" [ArgStr fingerprint; ArgStr tail; ArgStr account]
  = Ok ("[" +s+ (fingerprint +s+ tail) +s+ "]" +s+ account).
Proof.
  cbn -[String.append]. rewrite append_empty_r.
  cbn [String.append]. rewrite <- append_assoc. reflexivity.
Qed.

(** For a key built by [Key.__init__], [key_expression] returns
    [[<fingerprint><origin path>]<account key>]: the fingerprint in
    hexadecimal, the default derivation without its leading [m] (so starting
    with [/<purpose>h]), and after the first closing bracket exactly what
    [account_pubkey_str] returns for the same version. *)
Theorem key_expression_parts `{Collaborators} `{KeyCollaborators}
    (mnemonic passphrase st : string) (multisig : bool) (network : Network)
    (account : Z) (version : option bytes) (k : Key.Key) :
  Key.__init__ mnemonic multisig network passphrase account st = Ok k ->
  exists purpose origin,
    (if multisig then purpose = Key.MULTISIG_SCRIPT_PURPOSE
     else dict_get String.eqb Key.SINGLESIG_SCRIPT_PURPOSE st = Some purpose)
    /\ origin = hexlify (Key.key_fingerprint k) +s+ "/" +s+ str_of_int purpose +s+ "h/"
                +s+ str_of_int (net_bip32 network) +s+ "h/" +s+ str_of_int account
                +s+ (if multisig then "h/2h" else "h")
    /\ Key.key_expression k version
       = Ok ("[" +s+ origin +s+ "]" +s+ Key.account_pubkey_str k version)
    /\ str_after "]" ("[" +s+ origin +s+ "]" +s+ Key.account_pubkey_str k version)
       = Some (Key.account_pubkey_str k version).
Proof.
  unfold Key.__init__. intros Hinit.
  destruct (Key.get_default_derivation multisig network account
              (if negb multisig then st else "p2wsh")) as [d|e] eqn:Hd; [|discriminate].
  cbn [bind] in Hinit. injection Hinit as <-.
  apply default_derivation_shape in Hd. destruct Hd as (purpose & Hp & ->).
  exists purpose. eexists. split; [|split; [reflexivity|split]].
  - destruct multisig; exact Hp.
  - unfold Key.key_expression, Key.fingerprint_hex_str.
    rewrite pct_format_percent_s. cbn [bind Key.key_derivation Key.key_fingerprint].
    rewrite key_expression_format. reflexivity.
  - cbn [Key.key_fingerprint].
    set (acc := Key.account_pubkey_str _ version).
    change ("[" +s+ ?o +s+ "]" +s+ acc) with (("[" +s+ o) +s+ String "]" acc).
    apply str_after_app.
    rewrite !str_forallb_app, !str_of_int_no_bracket.
    rewrite (str_forallb_impl Key.is_hex_digit _ (hexlify _) hex_digit_not_bracket)
      by apply hexlify_chars.
    destruct multisig; reflexivity.
Qed.

Lemma key_expression_parts_witness :
  let K := Sample.key_collaborators in
  Key.__init__ (H := Sample.collaborators) Sample.mnemonic1 true Sample.testnet "" 0 "p2wpkh"
  = Ok Sample.multisig_key
  /\ exists purpose origin,
       purpose = 48
       /\ origin = hexlify (Key.key_fingerprint Sample.multisig_key) +s+ "/"
                   +s+ str_of_int purpose +s+ "h/"
                   +s+ str_of_int (net_bip32 Sample.testnet) +s+ "h/" +s+ str_of_int 0
                   +s+ "h/2h"
       /\ Key.key_expression Sample.multisig_key None
          = Ok ("[" +s+ origin +s+ "]" +s+ Key.account_pubkey_str Sample.multisig_key None)
       /\ str_after "]"
            ("[" +s+ origin +s+ "]" +s+ Key.account_pubkey_str Sample.multisig_key None)
          = Some (Key.account_pubkey_str Sample.multisig_key None).
Proof.
  split; [vm_compute; reflexivity|].
  apply (key_expression_parts (H := Sample.collaborators) (H0 := Sample.key_collaborators)
           Sample.mnemonic1 "" "p2wpkh" true Sample.testnet 0 None).
  vm_compute. reflexivity.
Defined.

(** ** key.py: the candidates are the valid final words, each once *)

Lemma map_result_app_inv {A B : Type} (f : A -> result B) (l1 l2 : list A) (ys : list B) :
  map_result f (l1 ++ l2) = Ok ys ->
  exists y1 y2, map_result f l1 = Ok y1 /\ map_result f l2 = Ok y2 /\ ys = y1 ++ y2.
Proof.
  revert ys. induction l1 as [|x l1 IH]; intros ys Hys.
  - exists [], ys. auto.
  - cbn [app map_result] in Hys. apply bind_ok in Hys as (y & Hy & Hys).
    apply bind_ok in Hys as (ys' & Hys' & Hys). injection Hys as <-.
    destruct (IH ys' Hys') as (y1 & y2 & H1 & H2 & ->).
    exists (y :: y1), y2. cbn [map_result]. rewrite Hy, H1. auto.
Qed.

Lemma map_result_raises {A B : Type} (f : A -> result B) (e : exn) (l : list A) :
  (forall x r, f x = Raise r -> r = e) ->
  Exists (fun x => is_ok (f x) = false) l -> map_result f l = Raise e.
Proof.
  intros Hf. induction 1 as [x l Hx|x l _ IH]; cbn [map_result].
  - destruct (f x) as [y|r] eqn:E; [discriminate|]. now rewrite (Hf x r E).
  - destruct (f x) as [y|r] eqn:E; cbn [bind].
    + now rewrite IH.
    + now rewrite (Hf x r E).
Qed.

Lemma Forall2_range_nth {B : Type} (P : Z -> B -> Prop) (k : nat) (ys : list B) (a : nat) :
  Forall2 P (map Z.of_nat (seq a k)) ys ->
  forall i, (i < k)%nat -> exists y, nth_error ys i = Some y /\ P (Z.of_nat (a + i)) y.
Proof.
  revert a ys. induction k as [|k IH]; intros a ys HF i Hi; [lia|].
  cbn [seq map] in HF. inversion HF as [|? y ? ys' Hy HF']; subst.
  destruct i as [|i].
  - exists y. rewrite Nat.add_0_r. auto.
  - destruct (IH (S a) ys' HF' i ltac:(lia)) as (y' & Hy' & HP).
    exists y'. replace (a + S i)%nat with (S a + i)%nat by lia. auto.
Qed.

Lemma Forall2_in_r {A B : Type} (P : A -> B -> Prop) (l : list A) (ys : list B) (y : B) :
  Forall2 P l ys -> In y ys -> exists x, In x l /\ P x y.
Proof.
  induction 1 as [|x y' l ys Hxy _ IH]; intros Hin; [contradiction|].
  destruct Hin as [->|Hin]; [exists x; simpl; auto|].
  destruct (IH Hin) as (x' & Hx' & HP). exists x'. simpl. auto.
Qed.

Lemma Forall2_blocks_sorted (c : Z) (k : nat) (js : list Z) (a : nat) :
  0 < c ->
  Forall2 (fun i j => i * c <= j < (i + 1) * c) (map Z.of_nat (seq a k)) js ->
  StronglySorted Z.lt js /\ Forall (fun j => Z.of_nat a * c <= j) js.
Proof.
  intros Hc. revert a js. induction k as [|k IH]; intros a js HF.
  - inversion HF. split; constructor.
  - cbn [seq map] in HF. inversion HF as [|? j ? js' Hj HF']; subst.
    destruct (IH (S a) js' HF') as (Hs & Hlow). split.
    + constructor; [exact Hs|]. eapply Forall_impl; [|exact Hlow].
      intros j' Hj'. cbn beta in Hj'. nia.
    + constructor; [lia|]. eapply Forall_impl; [|exact Hlow].
      intros j' Hj'. cbn beta in Hj'. nia.
Qed.

Lemma StronglySorted_lt_NoDup (l : list Z) : StronglySorted Z.lt l -> NoDup l.
Proof.
  induction 1 as [|x l _ IH Hx]; constructor; [|exact IH].
  intros Hin. rewrite Forall_forall in Hx. specialize (Hx x Hin). lia.
Qed.

Lemma wordlist_index_from_ok `{Collaborators} (l : list string) (x : string) (i j : Z) :
  Key.wordlist_index_from l x i = Ok j ->
  exists k, j = i + Z.of_nat k /\ nth_error l k = Some x.
Proof.
  revert i. induction l as [|w l IH]; intros i Hj; [discriminate|].
  cbn [Key.wordlist_index_from] in Hj. destruct (String.eqb w x) eqn:E.
  - apply String.eqb_eq in E. subst w. injection Hj as <-. exists 0%nat. split; [lia|reflexivity].
  - destruct (IH (i + 1) Hj) as (k & -> & Hk). exists (S k). split; [lia | exact Hk].
Qed.

Lemma wordlist_index_from_raises `{Collaborators} (l : list string) (x : string) (i : Z) (e : exn) :
  Key.wordlist_index_from l x i = Raise e -> e = ValueError "is not in list" /\ ~ In x l.
Proof.
  revert i. induction l as [|w l IH]; intros i Hr.
  - injection Hr as <-. auto.
  - cbn [Key.wordlist_index_from] in Hr. destruct (String.eqb w x) eqn:E; [discriminate|].
    destruct (IH (i + 1) Hr) as (He & Hnot). split; [exact He|].
    intros [->|Hin]; [|contradiction]. rewrite String.eqb_refl in E. discriminate.
Qed.

Lemma WORDLIST_index_ok `{Collaborators} (w : string) (j : Z) :
  Key.WORDLIST_index w = Ok j ->
  0 <= j < len WORDLIST /\ nth_error WORDLIST (Z.to_nat j) = Some w.
Proof.
  intros Hj. apply wordlist_index_from_ok in Hj as (k & -> & Hk).
  rewrite Z.add_0_l, Nat2Z.id. split; [|exact Hk].
  assert (k < List.length WORDLIST)%nat by (apply nth_error_Some; congruence).
  unfold len. lia.
Qed.

Lemma WORDLIST_index_not_in `{Collaborators} (w : string) :
  ~ In w WORDLIST -> Key.WORDLIST_index w = Raise (ValueError "is not in list").
Proof.
  intros Hnot. destruct (Key.WORDLIST_index w) as [j|e] eqn:E.
  - apply WORDLIST_index_ok in E as (_ & Hnth). apply nth_error_In in Hnth. contradiction.
  - apply wordlist_index_from_raises in E as (-> & _). reflexivity.
Qed.

Section FinalWordExact.
Context `{Collaborators}.
Hypothesis WORDLIST_length : List.length WORDLIST = 2048%nat.
Hypothesis WORDLIST_NoDup : NoDup WORDLIST.
Hypothesis sha256_length : forall b, List.length (sha256 b) = 32%nat.

Lemma cksum_bound (eb : bytes) (C : Z) :
  0 < C <= 256 -> 0 <= from_bytes_big (sha256 eb) / 2 ^ (256 - C) < 2 ^ C.
Proof.
  intros HC. pose proof (from_bytes_big_bound (sha256 eb)) as Hb.
  unfold len in Hb. rewrite sha256_length in Hb.
  change (256 ^ Z.of_nat 32) with (2 ^ 256) in Hb.
  assert (0 < 2 ^ (256 - C)) by (apply Z.pow_pos_nonneg; lia).
  split; [apply Z.div_pos; lia|].
  apply Z.div_lt_upper_bound; [lia|].
  rewrite <- Z.pow_add_r by lia. replace (256 - C + C) with 256 by lia. lia.
Qed.

Lemma words_indices (words : list string) :
  Forall (fun w => In w WORDLIST) words ->
  exists indices,
    map_result Key.WORDLIST_index words = Ok indices
    /\ len indices = len words
    /\ Forall (fun i => 0 <= i < 2048) indices.
Proof.
  intros Hwords.
  destruct (map_result_Forall2 Key.WORDLIST_index
              (fun w i => Key.WORDLIST_index w = Ok i /\ 0 <= i < 2048) words)
    as (indices & Hindices & Hall).
  { intros w Hw. rewrite Forall_forall in Hwords.
    destruct (WORDLIST_index_in WORDLIST_length WORDLIST_NoDup w (Hwords w Hw))
      as (i & Hi & Hb). eauto. }
  exists indices. split; [exact Hindices|]. split.
  - apply Forall2_length in Hall. unfold len. lia.
  - clear -Hall. induction Hall as [|w i ws ixs [_ Hi] _ IH]; constructor; assumption.
Qed.

(** The candidate of turn [i] is the word whose index has [i] in its high
    bits and the checksum of the completed entropy in its low bits. *)
Lemma final_word_candidates_exact (n T N C : Z) (words : list string) (indices : list Z) :
  len words = n ->
  negb (n =? 11) && negb (n =? 23) = false ->
  (n * 11 + 11) / 33 * 32 = T -> T - n * 11 = N -> T / 32 = C ->
  8 * (T / 8) = T -> 0 <= N -> 0 < C <= 256 -> N + C = 11 ->
  map_result Key.WORDLIST_index words = Ok indices ->
  len indices = n ->
  Forall (fun i => 0 <= i < 2048) indices ->
  exists candidates,
    Key.get_final_word_candidates words = Ok candidates
    /\ Forall2
         (fun i w =>
            exists eb,
              to_bytes_big (fold_left (fun a i => a * 2048 + i) indices 0 * 2 ^ N + i)
                           (T / 8) = Ok eb
              /\ Key.WORDLIST_index w
                 = Ok (i * 2 ^ C + from_bytes_big (sha256 eb) / 2 ^ (256 - C)))
         (range (2 ^ N)) candidates.
Proof.
  intros Hn Hcount HT HN HC HT8' HN0 HC0 HNC Hindices Hlen Hbounds.
  pose proof (accu_bound WORDLIST_length indices Hbounds 0 0 ltac:(simpl; lia) ltac:(lia)) as Haccu.
  rewrite Hlen, Z.add_0_l in Haccu.
  unfold Key.get_final_word_candidates.
  rewrite Hn, Hcount, Hindices. cbn [bind]. cbv zeta.
  rewrite (accu_shiftl WORDLIST_length), HT, HN, HC.
  set (accu := fold_left (fun a i => a * 2048 + i) indices 0) in *.
  assert (H2048 : 2 ^ N * 2 ^ C = 2048).
  { rewrite <- Z.pow_add_r, HNC by lia. reflexivity. }
  assert (HTN : 2 ^ (11 * n) * 2 ^ N = 2 ^ (8 * (T / 8))).
  { rewrite HT8', <- Z.pow_add_r by lia. f_equal. lia. }
  assert (H2N : 0 < 2 ^ N) by (apply Z.pow_pos_nonneg; lia).
  assert (H2C : 0 < 2 ^ C) by (apply Z.pow_pos_nonneg; lia).
  match goal with
  | |- context [for_each ?body _ _] =>
      destruct (for_each_collect body
                  (fun i w =>
                     exists eb,
                       to_bytes_big (accu * 2 ^ N + i) (T / 8) = Ok eb
                       /\ Key.WORDLIST_index w
                          = Ok (i * 2 ^ C + from_bytes_big (sha256 eb) / 2 ^ (256 - C)))
                  (range (2 ^ N))) with (acc := @nil string) as (ys & Hys & Hexact)
  end.
  - intros acc i Hi. apply range_spec in Hi.
    rewrite Z.shiftl_mul_pow2 by lia.
    destruct (to_bytes_big_ok (accu * 2 ^ N + i) (T / 8)) as (eb & Heb);
      [rewrite <- HTN; nia|].
    rewrite Heb. cbn [bind].
    rewrite Z.shiftr_div_pow2, Z.shiftl_mul_pow2 by lia.
    pose proof (cksum_bound eb C HC0) as Hck.
    destruct (WORDLIST_at WORDLIST_length WORDLIST_NoDup
                (i * 2 ^ C + from_bytes_big (sha256 eb) / 2 ^ (256 - C)))
      as (w & Hw & Hidx); [nia|].
    rewrite Hw. cbn [bind]. exists w. split; [reflexivity|]. exists eb. auto.
  - exists ys. rewrite Hys. split; [reflexivity | exact Hexact].
Qed.

(** Validity of the known words followed by the word of index [j]. *)
Lemma mnemonic_is_valid_last (n T N C : Z) (words : list string) (indices : list Z)
    (w : string) (j : Z) :
  len words = n ->
  11 * (n + 1) / 33 = C -> (11 * (n + 1) - C) / 8 = T / 8 ->
  0 <= N -> 0 < C <= 256 -> N + C = 11 ->
  map_result Key.WORDLIST_index words = Ok indices ->
  Key.WORDLIST_index w = Ok j -> 0 <= j < 2048 ->
  Key.mnemonic_is_valid (words ++ [w]) = true
  <-> exists eb,
        to_bytes_big (fold_left (fun a i => a * 2048 + i) indices 0 * 2 ^ N + j / 2 ^ C)
                     (T / 8) = Ok eb
        /\ from_bytes_big (sha256 eb) / 2 ^ (256 - C) = j mod 2 ^ C.
Proof.
  intros Hn HC' HT8 HN0 HC0 HNC Hindices Hj Hjb.
  assert (H2048 : 2 ^ N * 2 ^ C = 2048).
  { rewrite <- Z.pow_add_r, HNC by lia. reflexivity. }
  assert (H2N : 0 < 2 ^ N) by (apply Z.pow_pos_nonneg; lia).
  assert (H2C : 0 < 2 ^ C) by (apply Z.pow_pos_nonneg; lia).
  unfold Key.mnemonic_is_valid.
  rewrite (map_result_app _ words [w] indices [j] Hindices)
    by (simpl; rewrite Hj; reflexivity).
  rewrite fold_left_app. cbn [fold_left].
  set (accu := fold_left (fun a i => a * 2048 + i) indices 0).
  rewrite len_app, Hn. change (len [w]) with 1. rewrite HC', HT8.
  pose proof (Z.div_mod j (2 ^ C) ltac:(lia)) as Hdm.
  pose proof (Z.mod_pos_bound j (2 ^ C) H2C) as Hmod.
  replace (accu * 2048 + j)
    with ((accu * 2 ^ N + j / 2 ^ C) * 2 ^ C + j mod 2 ^ C)
    by (rewrite Z.mul_add_distr_r, <- Z.mul_assoc, H2048; lia).
  rewrite Z.div_add_l, (Z.div_small (j mod 2 ^ C)), Z.add_0_r by lia.
  rewrite (Z.add_comm _ (j mod 2 ^ C)), Z.mod_add, Z.mod_mod by lia.
  destruct (to_bytes_big (accu * 2 ^ N + j / 2 ^ C) (T / 8)) as [eb|e].
  - rewrite Z.eqb_eq. split; [eauto|]. intros (eb' & [= <-] & Heq). exact Heq.
  - split; [discriminate|]. intros (eb' & Heb & _). discriminate.
Qed.

Lemma final_word_candidates_complete_at (n T N C : Z) (words : list string) :
  len words = n ->
  negb (n =? 11) && negb (n =? 23) = false ->
  (n * 11 + 11) / 33 * 32 = T -> T - n * 11 = N -> T / 32 = C ->
  11 * (n + 1) / 33 = C -> (11 * (n + 1) - C) / 8 = T / 8 -> 8 * (T / 8) = T ->
  0 <= N -> 0 < C <= 256 -> N + C = 11 ->
  Forall (fun w => In w WORDLIST) words ->
  exists candidates indices,
    Key.get_final_word_candidates words = Ok candidates
    /\ len candidates = 2 ^ N
    /\ (forall w, In w candidates <-> Key.mnemonic_is_valid (words ++ [w]) = true)
    /\ map_result Key.WORDLIST_index candidates = Ok indices
    /\ Forall2 (fun i j => i * 2 ^ C <= j < (i + 1) * 2 ^ C) (range (2 ^ N)) indices.
Proof.
  intros Hn Hcount HT HN HC HC' HT8 HT8' HN0 HC0 HNC Hwords.
  destruct (words_indices words Hwords) as (indices & Hindices & Hlen & Hbounds).
  rewrite Hn in Hlen.
  destruct (final_word_candidates_exact n T N C words indices)
    as (cs & Hcs & Hexact); try assumption.
  assert (H2048 : 2 ^ N * 2 ^ C = 2048).
  { rewrite <- Z.pow_add_r, HNC by lia. reflexivity. }
  assert (H2N : 0 < 2 ^ N) by (apply Z.pow_pos_nonneg; lia).
  assert (H2C : 0 < 2 ^ C) by (apply Z.pow_pos_nonneg; lia).
  set (accu := fold_left (fun a i => a * 2048 + i) indices 0) in *.
  assert (Hcount' : len cs = 2 ^ N).
  { apply Forall2_length in Hexact. unfold len. rewrite <- Hexact.
    apply range_length. lia. }
  assert (Hidx : forall l ws,
             Forall2
               (fun i w =>
                  exists eb,
                    to_bytes_big (accu * 2 ^ N + i) (T / 8) = Ok eb
                    /\ Key.WORDLIST_index w
                       = Ok (i * 2 ^ C + from_bytes_big (sha256 eb) / 2 ^ (256 - C)))
               l ws ->
             exists js,
               map_result Key.WORDLIST_index ws = Ok js
               /\ Forall2 (fun i j => i * 2 ^ C <= j < (i + 1) * 2 ^ C) l js).
  { induction 1 as [|i w l ws (eb & _ & Hw) _ IH].
    - exists []. split; [reflexivity | constructor].
    - destruct IH as (js & Hjs & HF).
      exists (i * 2 ^ C + from_bytes_big (sha256 eb) / 2 ^ (256 - C) :: js).
      cbn [map_result]. rewrite Hw, Hjs. split; [reflexivity|].
      constructor; [|exact HF]. pose proof (cksum_bound eb C HC0). nia. }
  specialize (Hidx _ _ Hexact).
  destruct Hidx as (js & Hjs & Hblocks).
  exists cs, js. split; [exact Hcs|]. split; [exact Hcount'|].
  split; [|split; [exact Hjs | exact Hblocks]].
  intros w. split.
  - intros Hin. destruct (Forall2_in_r _ _ _ w Hexact Hin) as (i & Hi & eb & Heb & Hw).
    apply range_spec in Hi. pose proof (cksum_bound eb C HC0) as Hck.
    set (ck := from_bytes_big (sha256 eb) / 2 ^ (256 - C)) in *.
    apply (mnemonic_is_valid_last n T N C words indices w (i * 2 ^ C + ck)
             Hn HC' HT8 HN0 HC0 HNC Hindices Hw ltac:(nia)).
    rewrite Z.div_add_l, (Z.div_small ck), Z.add_0_r by lia.
    rewrite (Z.add_comm (i * 2 ^ C) ck), Z.mod_add, Z.mod_small by lia.
    exists eb. split; [exact Heb | reflexivity].
  - intros Hvalid.
    assert (Hw : exists j, Key.WORDLIST_index w = Ok j).
    { unfold Key.mnemonic_is_valid in Hvalid.
      destruct (map_result Key.WORDLIST_index (words ++ [w])) as [ixs|] eqn:E;
        [|discriminate].
      apply map_result_app_inv in E as (y1 & y2 & _ & H2 & _).
      cbn [map_result] in H2. destruct (Key.WORDLIST_index w) as [j|]; [eauto|discriminate]. }
    destruct Hw as (j & Hj).
    pose proof (WORDLIST_index_ok w j Hj) as (Hjb & Hnth).
    unfold len in Hjb. rewrite WORDLIST_length in Hjb.
    apply (mnemonic_is_valid_last n T N C words indices w j
             Hn HC' HT8 HN0 HC0 HNC Hindices Hj ltac:(lia)) in Hvalid.
    destruct Hvalid as (eb & Heb & Hck).
    assert (Hi : 0 <= j / 2 ^ C < 2 ^ N).
    { split; [apply Z.div_pos; lia|]. apply Z.div_lt_upper_bound; lia. }
    unfold range in Hexact.
    destruct (Forall2_range_nth _ _ _ 0 Hexact (Z.to_nat (j / 2 ^ C)) ltac:(lia))
      as (w' & Hw' & eb' & Heb' & Hidx').
    rewrite Nat.add_0_l, Z2Nat.id in Heb', Hidx' by lia.
    fold accu in Heb, Heb'. rewrite Heb in Heb'. injection Heb' as <-.
    rewrite Hck in Hidx'.
    replace (j / 2 ^ C * 2 ^ C + j mod 2 ^ C) with j in Hidx'
      by (pose proof (Z.div_mod j (2 ^ C) ltac:(lia)); lia).
    apply WORDLIST_index_ok in Hidx' as (_ & Hnth').
    rewrite Hnth in Hnth'. injection Hnth' as <-.
    eapply nth_error_In. exact Hw'.
Qed.

End FinalWordExact.

Lemma index_NoDup `{Collaborators} (cs : list string) (js : list Z) :
  map_result Key.WORDLIST_index cs = Ok js -> NoDup js -> NoDup cs.
Proof.
  revert js. induction cs as [|w cs IH]; intros js Hjs Hnd; [constructor|].
  cbn [map_result] in Hjs. apply bind_ok in Hjs as (j & Hj & Hjs).
  apply bind_ok in Hjs as (js' & Hjs' & Hjs). injection Hjs as <-.
  inversion Hnd as [|? ? Hnotin Hnd']; subst. constructor; [|eauto].
  intros Hin. apply Hnotin. clear -Hin Hj Hjs'.
  revert js' Hjs'. induction cs as [|w' cs IH]; intros js' Hjs'; [contradiction|].
  cbn [map_result] in Hjs'. apply bind_ok in Hjs' as (j' & Hj' & Hjs').
  apply bind_ok in Hjs' as (js'' & Hjs'' & Hjs'). injection Hjs' as <-.
  destruct Hin as [->|Hin]; [left; congruence | right; eauto].
Qed.

Lemma Forall2_impl_r {A B : Type} (P Q : A -> B -> Prop) (l : list A) (ys : list B) :
  (forall x y, P x y -> Q x y) -> Forall2 P l ys -> Forall2 Q l ys.
Proof. intros Himp. induction 1; constructor; auto. Qed.

Lemma sample_WORDLIST_length : List.length Sample.WORDLIST = 2048%nat.
Proof. vm_compute. reflexivity. Qed.

Lemma sample_repeated_word_in (k : nat) :
  Forall (fun w => In w Sample.WORDLIST) (repeat "w0" k).
Proof.
  induction k as [|k IH]; [constructor|].
  cbn [repeat]. constructor; [apply (sample_word_in 0); lia | exact IH].
Qed.


(** With a word list of 2048 distinct words and 32-byte digests: for 11 or
    23 words of the list, the candidates that [get_final_word_candidates]
    returns are exactly the words that complete the given words to a
    mnemonic with a valid checksum, and none of them is listed twice. *)
Theorem final_word_candidates_complete `{Collaborators} :
  List.length WORDLIST = 2048%nat ->
  NoDup WORDLIST ->
  (forall b, List.length (sha256 b) = 32%nat) ->
  forall words : list string,
    len words = 11 \/ len words = 23 ->
    Forall (fun w => In w WORDLIST) words ->
    exists candidates,
      Key.get_final_word_candidates words = Ok candidates
      /\ NoDup candidates
      /\ forall w, In w candidates <-> Key.mnemonic_is_valid (words ++ [w]) = true.
Proof.
  intros Hlen Hnodup Hsha words Hn Hwords.
  assert (Hat : exists C candidates indices,
             0 < 2 ^ C
             /\ Key.get_final_word_candidates words = Ok candidates
             /\ (forall w, In w candidates
                           <-> Key.mnemonic_is_valid (words ++ [w]) = true)
             /\ map_result Key.WORDLIST_index candidates = Ok indices
             /\ Forall2 (fun i j => i * 2 ^ C <= j < (i + 1) * 2 ^ C)
                        (map Z.of_nat (seq 0 (List.length candidates))) indices).
  { destruct Hn as [Hn|Hn].
    - destruct (final_word_candidates_complete_at Hlen Hnodup Hsha 11 128 7 4 words)
        as (cs & js & Hcs & Hcount & Hiff & Hjs & Hblocks);
        try reflexivity; try lia; try assumption.
      exists 4, cs, js. unfold range in Hblocks. unfold len in Hcount.
      replace (List.length cs) with (Z.to_nat (2 ^ 7)) by lia. 
      split; [reflexivity|]. auto.
    - destruct (final_word_candidates_complete_at Hlen Hnodup Hsha 23 256 3 8 words)
        as (cs & js & Hcs & Hcount & Hiff & Hjs & Hblocks);
        try reflexivity; try lia; try assumption.
      exists 8, cs, js. unfold range in Hblocks. unfold len in Hcount.
      replace (List.length cs) with (Z.to_nat (2 ^ 3)) by lia.
      split; [reflexivity|]. auto. }
  destruct Hat as (C & cs & js & HC & Hcs & Hiff & Hjs & Hblocks).
  exists cs. split; [exact Hcs|]. split; [|exact Hiff].
  apply (index_NoDup cs js Hjs), StronglySorted_lt_NoDup.
  eapply Forall2_blocks_sorted; eassumption.
Qed.

Lemma final_word_candidates_complete_witness :
  let words := repeat "w0" 11 in
  List.length Sample.WORDLIST = 2048%nat
  /\ NoDup Sample.WORDLIST
  /\ (forall b, List.length (SHA256.digest b) = 32%nat)
  /\ len words = 11
  /\ Forall (fun w => In w Sample.WORDLIST) words
  /\ exists candidates,
       Key.get_final_word_candidates (H := Sample.collaborators) words = Ok candidates
       /\ NoDup candidates
       /\ forall w, In w candidates
                    <-> Key.mnemonic_is_valid (H := Sample.collaborators)
                          (words ++ [w]) = true.
Proof.
  intros words. subst words.
  pose proof sample_WORDLIST_length as Hlen.
  pose proof (sample_repeated_word_in 11) as Hwords.
  split; [exact Hlen|]. split; [exact sample_WORDLIST_NoDup|].
  split; [exact sha256_digest_length|]. split; [reflexivity|]. split; [exact Hwords|].
  exact (final_word_candidates_complete (H := Sample.collaborators)
           Hlen sample_WORDLIST_NoDup sha256_digest_length (repeat "w0" 11)
           (or_introl eq_refl) Hwords).
Defined.

(** With a word list of 2048 distinct words and 32-byte digests: the
    candidates come in the order of the word list, one from each run of
    [2048 / len(candidates)] consecutive words (16 words for 11 known words,
    256 words for 23). *)
Theorem final_word_candidates_ordered `{Collaborators} :
  List.length WORDLIST = 2048%nat ->
  NoDup WORDLIST ->
  (forall b, List.length (sha256 b) = 32%nat) ->
  forall words : list string,
    len words = 11 \/ len words = 23 ->
    Forall (fun w => In w WORDLIST) words ->
    exists candidates indices,
      Key.get_final_word_candidates words = Ok candidates
      /\ map_result Key.WORDLIST_index candidates = Ok indices
      /\ StronglySorted Z.lt indices
      /\ 2048 / len candidates = (if len words =? 11 then 16 else 256)
      /\ Forall2 (fun i j => j / (2048 / len candidates) = i)
                 (range (len candidates)) indices.
Proof.
  intros Hlen Hnodup Hsha words Hn Hwords.
  assert (Hat : exists C candidates indices,
             0 < 2 ^ C
             /\ 2 ^ C = 2048 / len candidates
             /\ 2 ^ C = (if len words =? 11 then 16 else 256)
             /\ Key.get_final_word_candidates words = Ok candidates
             /\ map_result Key.WORDLIST_index candidates = Ok indices
             /\ Forall2 (fun i j => i * 2 ^ C <= j < (i + 1) * 2 ^ C)
                        (range (len candidates)) indices).
  { destruct Hn as [Hn|Hn].
    - destruct (final_word_candidates_complete_at Hlen Hnodup Hsha 11 128 7 4 words)
        as (cs & js & Hcs & Hcount & Hiff & Hjs & Hblocks);
        try reflexivity; try lia; try assumption.
      exists 4, cs, js. rewrite Hcount, Hn. repeat (split; [reflexivity || assumption|]).
      exact Hblocks.
    - destruct (final_word_candidates_complete_at Hlen Hnodup Hsha 23 256 3 8 words)
        as (cs & js & Hcs & Hcount & Hiff & Hjs & Hblocks);
        try reflexivity; try lia; try assumption.
      exists 8, cs, js. rewrite Hcount, Hn. repeat (split; [reflexivity || assumption|]).
      exact Hblocks. }
  destruct Hat as (C & cs & js & HC & HC' & HC'' & Hcs & Hjs & Hblocks).
  exists cs, js. split; [exact Hcs|]. split; [exact Hjs|]. split; [|split].
  - unfold range in Hblocks. eapply Forall2_blocks_sorted; eassumption.
  - rewrite <- HC'. exact HC''.
  - rewrite <- HC'. eapply Forall2_impl_r; [|exact Hblocks].
    intros i j Hij. cbn beta in Hij. symmetry. apply Z.div_unique with (r := j - i * 2 ^ C); lia.
Qed.

Lemma final_word_candidates_ordered_witness :
  let words := repeat "w0" 23 in
  List.length Sample.WORDLIST = 2048%nat
  /\ NoDup Sample.WORDLIST
  /\ (forall b, List.length (SHA256.digest b) = 32%nat)
  /\ len words = 23
  /\ Forall (fun w => In w Sample.WORDLIST) words
  /\ exists candidates indices,
       Key.get_final_word_candidates (H := Sample.collaborators) words = Ok candidates
       /\ map_result (Key.WORDLIST_index (H := Sample.collaborators)) candidates
          = Ok indices
       /\ StronglySorted Z.lt indices
       /\ 2048 / len candidates = 256
       /\ Forall2 (fun i j => j / (2048 / len candidates) = i)
                  (range (len candidates)) indices.
Proof.
  intros words. subst words.
  pose proof sample_WORDLIST_length as Hlen.
  pose proof (sample_repeated_word_in 23) as Hwords.
  split; [exact Hlen|]. split; [exact sample_WORDLIST_NoDup|].
  split; [exact sha256_digest_length|]. split; [reflexivity|]. split; [exact Hwords|].
  exact (final_word_candidates_ordered (H := Sample.collaborators)
           Hlen sample_WORDLIST_NoDup sha256_digest_length (repeat "w0" 23)
           (or_intror eq_refl) Hwords).
Defined.

(** [get_final_word_candidates] and [pick_final_word], given 11 or 23 words
    one of which is not in the word list, raise the [ValueError] of
    [WORDLIST.index]; no property of the word list is needed. *)
Theorem final_word_unknown_word `{Collaborators} `{KeyCollaborators}
    (ticks entropy : Z) (words : list string) :
  len words = 11 \/ len words = 23 ->
  Exists (fun w => ~ In w WORDLIST) words ->
  Key.get_final_word_candidates words = Raise (ValueError "is not in list")
  /\ Key.pick_final_word ticks entropy words = Raise (ValueError "is not in list").
Proof.
  intros Hn Hex.
  assert (Hcount : negb (len words =? 11) && negb (len words =? 23) = false)
    by (destruct Hn as [-> | ->]; reflexivity).
  assert (Hcs : Key.get_final_word_candidates words = Raise (ValueError "is not in list")).
  { unfold Key.get_final_word_candidates. rewrite Hcount.
    rewrite (map_result_raises Key.WORDLIST_index (ValueError "is not in list")).
    - reflexivity.
    - intros x r Hr. now apply wordlist_index_from_raises in Hr.
    - eapply Exists_impl; [|exact Hex]. intros w Hw. cbn beta.
      now rewrite (WORDLIST_index_not_in w Hw). }
  split; [exact Hcs|].
  unfold Key.pick_final_word. rewrite Hcount, Hcs. reflexivity.
Qed.

Lemma sample_unknown_word : ~ In "zoo" Sample.WORDLIST.
Proof.
  intros Hin.
  assert (Hex : existsb (String.eqb "zoo") Sample.WORDLIST = true)
    by (apply existsb_exists; exists "zoo"; split; [exact Hin | apply String.eqb_refl]).
  vm_compute in Hex. discriminate.
Qed.

Lemma final_word_unknown_word_witness :
  let words := repeat "w0" 10 ++ ["zoo"] in
  len words = 11
  /\ Exists (fun w => ~ In w Sample.WORDLIST) words
  /\ Key.get_final_word_candidates (H := Sample.collaborators) words
     = Raise (ValueError "is not in list")
  /\ Key.pick_final_word (C := Sample.collaborators) (K := Sample.key_collaborators)
       1000 7 words
     = Raise (ValueError "is not in list").
Proof.
  intros words. subst words.
  assert (Hex : Exists (fun w => ~ In w Sample.WORDLIST) (repeat "w0" 10 ++ ["zoo"])).
  { apply Exists_app. right. constructor. exact sample_unknown_word. }
  split; [reflexivity|]. split; [exact Hex|].
  exact (final_word_unknown_word (H := Sample.collaborators)
           (H0 := Sample.key_collaborators) 1000 7 (repeat "w0" 10 ++ ["zoo"])
           (or_introl eq_refl) Hex).
Defined.

(** With a word list of 2048 distinct words, 32-byte digests and a random
    source that draws an index inside the sequence: [pick_final_word] raises
    [ValueError] unless it is given 11 or 23 words, and for 11 or 23 words of
    the list it returns one of the candidates, so a word of the list that
    completes a mnemonic with a valid checksum, whatever the clock and the
    entropy are. *)
Theorem pick_final_word_valid `{Collaborators} `{KeyCollaborators} :
  List.length WORDLIST = 2048%nat ->
  NoDup WORDLIST ->
  (forall b, List.length (sha256 b) = 32%nat) ->
  (forall seed n, 0 < n -> 0 <= randbelow seed n < n) ->
  forall (ticks entropy : Z) (words : list string),
    (len words <> 11 /\ len words <> 23 ->
     Key.pick_final_word ticks entropy words
     = Raise (ValueError "must provide 11 or 23 words"))
    /\ (len words = 11 \/ len words = 23 ->
        Forall (fun w => In w WORDLIST) words ->
        exists w candidates,
          Key.pick_final_word ticks entropy words = Ok w
          /\ Key.get_final_word_candidates words = Ok candidates
          /\ In w candidates
          /\ In w WORDLIST
          /\ Key.mnemonic_is_valid (words ++ [w]) = true).
Proof.
  intros Hlen Hnodup Hsha Hrand ticks entropy words. split.
  - intros [H11 H23]. unfold Key.pick_final_word.
    apply Z.eqb_neq in H11, H23. now rewrite H11, H23.
  - intros Hn Hwords.
    assert (Hcount : negb (len words =? 11) && negb (len words =? 23) = false)
      by (destruct Hn as [-> | ->]; reflexivity).
    assert (Hat : exists candidates,
               Key.get_final_word_candidates words = Ok candidates
               /\ 0 < len candidates
               /\ Forall (fun w => Key.mnemonic_is_valid (words ++ [w]) = true)
                         candidates).
    { destruct Hn as [Hn|Hn].
      - destruct (final_word_candidates_at Hlen Hnodup Hsha 11 128 7 4 words)
          as (cs & Hcs & Hc & Hvalid); try reflexivity; try lia; try assumption.
        exists cs. rewrite Hc. split; [exact Hcs|]. split; [reflexivity | exact Hvalid].
      - destruct (final_word_candidates_at Hlen Hnodup Hsha 23 256 3 8 words)
          as (cs & Hcs & Hc & Hvalid); try reflexivity; try lia; try assumption.
        exists cs. rewrite Hc. split; [exact Hcs|]. split; [reflexivity | exact Hvalid]. }
    destruct Hat as (cs & Hcs & Hpos & Hvalid).
    unfold Key.pick_final_word. rewrite Hcount, Hcs. cbn [bind].
    specialize (Hrand (ticks + entropy) (len cs) Hpos).
    rewrite list_index_nonneg by lia.
    destruct (nth_error cs (Z.to_nat (randbelow (ticks + entropy) (len cs))))
      as [w|] eqn:E.
    + exists w, cs. apply nth_error_In in E.
      rewrite Forall_forall in Hvalid. specialize (Hvalid w E).
      split; [reflexivity|]. split; [reflexivity|]. split; [exact E|].
      split; [|exact Hvalid].
      unfold Key.mnemonic_is_valid in Hvalid.
      destruct (map_result Key.WORDLIST_index (words ++ [w])) as [ixs|] eqn:Eix;
        [|discriminate].
      apply map_result_app_inv in Eix as (y1 & y2 & _ & H2 & _).
      cbn [map_result] in H2.
      destruct (Key.WORDLIST_index w) as [j|] eqn:Ej; [|discriminate].
      apply WORDLIST_index_ok in Ej as (_ & Hnth). eapply nth_error_In, Hnth.
    + apply nth_error_None in E. unfold len in *. lia.
Qed.

Lemma sample_randbelow (seed n : Z) :
  0 < n -> 0 <= randbelow (KeyCollaborators := Sample.key_collaborators) seed n < n.
Proof.
  intros Hn. cbn. destruct (n =? 0) eqn:E; [lia|]. apply Z.mod_pos_bound. exact Hn.
Qed.

Lemma pick_final_word_valid_witness :
  let words := repeat "w0" 23 in
  List.length Sample.WORDLIST = 2048%nat
  /\ NoDup Sample.WORDLIST
  /\ (forall b, List.length (SHA256.digest b) = 32%nat)
  /\ (forall seed n,
        0 < n -> 0 <= randbelow (KeyCollaborators := Sample.key_collaborators) seed n < n)
  /\ len words = 23
  /\ Forall (fun w => In w Sample.WORDLIST) words
  /\ exists w candidates,
       Key.pick_final_word (C := Sample.collaborators) (K := Sample.key_collaborators)
         1000 7 words = Ok w
       /\ Key.get_final_word_candidates (H := Sample.collaborators) words = Ok candidates
       /\ In w candidates
       /\ In w Sample.WORDLIST
       /\ Key.mnemonic_is_valid (H := Sample.collaborators) (words ++ [w]) = true.
Proof.
  intros words. subst words.
  pose proof sample_WORDLIST_length as Hlen.
  pose proof (sample_repeated_word_in 23) as Hwords.
  split; [exact Hlen|]. split; [exact sample_WORDLIST_NoDup|].
  split; [exact sha256_digest_length|]. split; [exact sample_randbelow|].
  split; [reflexivity|]. split; [exact Hwords|].
  destruct (pick_final_word_valid (H := Sample.collaborators)
              (H0 := Sample.key_collaborators)
              Hlen sample_WORDLIST_NoDup sha256_digest_length sample_randbelow
              1000 7 (repeat "w0" 23)) as [_ Hpick].
  exact (Hpick (or_intror eq_refl) Hwords).
Defined.

(** ** psbt.py: what the constructor accepts and what it raises *)

Section Constructor.
Context `{Collaborators}.

Lemma parse_psbt_data_spec (psbt_data : Psbt.psbt_input) (qr_format : Z) :
  Psbt.parse_psbt_data psbt_data qr_format
  = match Psbt.detected_encoding psbt_data with
    | Some (e, b) =>
        match PSBT_parse b with
        | Some p =>
            Ok (p, fst (Psbt.encoding_fields (Psbt.recorded_encoding e qr_format)),
                snd (Psbt.encoding_fields (Psbt.recorded_encoding e qr_format)))
        | None => Raise (ValueError "invalid PSBT")
        end
    | None => Raise (ValueError "invalid PSBT")
    end.
Proof.
  assert (Hbytes : forall raw,
    Psbt.try_except
      (p <- Psbt.lib_call (PSBT_parse raw) ;;
       Ok (p, (if qr_format =? FORMAT_PMOFN then Some 64 else None), None))
      (Psbt.try_except
         (d <- Psbt.lib_call (base_decode raw 64) ;;
          p <- Psbt.lib_call (PSBT_parse d) ;; Ok (p, Some 64, None))
         (Psbt.try_except
            (d <- Psbt.lib_call (base_decode raw 58) ;;
             p <- Psbt.lib_call (PSBT_parse d) ;; Ok (p, Some 58, None))
            (Psbt.try_except
               (d <- Psbt.lib_call (base_decode raw 43) ;;
                p <- Psbt.lib_call (PSBT_parse d) ;; Ok (p, Some 43, None))
               (Raise (ValueError "invalid PSBT")))))
    = match Psbt.or_else (if Psbt.parses raw then Some (Psbt.EncRaw, raw) else None)
              (Psbt.or_else (Psbt.via_base raw 64)
                 (Psbt.or_else (Psbt.via_base raw 58) (Psbt.via_base raw 43))) with
      | Some (e, b) =>
          match PSBT_parse b with
          | Some p =>
              Ok (p, fst (Psbt.encoding_fields (Psbt.recorded_encoding e qr_format)),
                  snd (Psbt.encoding_fields (Psbt.recorded_encoding e qr_format)))
          | None => Raise (ValueError "invalid PSBT")
          end
      | None => Raise (ValueError "invalid PSBT")
      end).
  { intros raw. unfold Psbt.via_base, Psbt.parses.
    destruct (PSBT_parse raw) as [q|] eqn:E0; cbn.
    { rewrite E0. destruct (qr_format =? FORMAT_PMOFN); reflexivity. }
    destruct (base_decode raw 64) as [b64|]; cbn;
      [destruct (PSBT_parse b64) as [q|] eqn:E64; cbn; [now rewrite E64|]|];
      (destruct (base_decode raw 58) as [b58|]; cbn;
       [destruct (PSBT_parse b58) as [q|] eqn:E58; cbn; [now rewrite E58|]|]);
      (destruct (base_decode raw 43) as [b43|]; cbn; [|reflexivity];
       destruct (PSBT_parse b43) as [q|] eqn:E43; cbn; [now rewrite E43 | reflexivity]). }
  destruct psbt_data as [u|str|raw]; unfold Psbt.parse_psbt_data, Psbt.detected_encoding.
  - unfold Psbt.parses.
    destruct (from_cbor (UR_cbor u)) as [d|]; cbn; [|reflexivity].
    destruct (PSBT_parse d) as [q|] eqn:E; cbn; [now rewrite E | reflexivity].
  - apply Hbytes.
  - apply Hbytes.
Qed.

Lemma detected_encoding_parses (psbt_data : Psbt.psbt_input) (e : Psbt.encoding) (b : bytes) :
  Psbt.detected_encoding psbt_data = Some (e, b) -> exists p, PSBT_parse b = Some p.
Proof.
  assert (Hif : forall (e0 : Psbt.encoding) (b0 : bytes),
             (if Psbt.parses b0 then Some (e0, b0) else None) = Some (e, b) ->
             exists p, PSBT_parse b = Some p).
  { intros e0 b0. unfold Psbt.parses. destruct (PSBT_parse b0) as [p|] eqn:E; cbn.
    - intros [= <- <-]. eauto.
    - discriminate. }
  assert (Hbase : forall raw n, Psbt.via_base raw n = Some (e, b) ->
                                exists p, PSBT_parse b = Some p).
  { intros raw n. unfold Psbt.via_base. destruct (base_decode raw n); [apply Hif | discriminate]. }
  assert (Hbytes : forall raw,
             Psbt.or_else (if Psbt.parses raw then Some (Psbt.EncRaw, raw) else None)
               (Psbt.or_else (Psbt.via_base raw 64)
                  (Psbt.or_else (Psbt.via_base raw 58) (Psbt.via_base raw 43)))
             = Some (e, b) -> exists p, PSBT_parse b = Some p).
  { intros raw. unfold Psbt.or_else.
    destruct (if Psbt.parses raw then _ else _) eqn:E0; [intros [= ->]; eapply Hif, E0|].
    destruct (Psbt.via_base raw 64) eqn:E64; [intros [= ->]; eapply Hbase, E64|].
    destruct (Psbt.via_base raw 58) eqn:E58; [intros [= ->]; eapply Hbase, E58|].
    apply Hbase. }
  destruct psbt_data as [u|str|raw]; unfold Psbt.detected_encoding.
  - destruct (from_cbor (UR_cbor u)); [apply Hif | discriminate].
  - apply Hbytes.
  - apply Hbytes.
Qed.

(** The loop over the inputs with a policy recorded. *)
Lemma inputs_loop_same (xs : dict HDKey DerivationPath) (inputs : list Scope)
    (p : Psbt.Policy) (r : option Psbt.Policy) :
  for_each (Psbt.check_input xs) inputs (Some p) = Ok r
  <-> r = Some p /\ Forall (fun inp => Psbt.input_policy xs inp = Ok p) inputs.
Proof.
  induction inputs as [|inp rest IH]; cbn [for_each].
  - split; [intros [= <-]; auto | intros [-> _]; reflexivity].
  - destruct (Psbt.input_policy xs inp) as [q|e] eqn:E.
    + rewrite (check_input_next xs p q inp E).
      destruct (Psbt.policy_eqb p q) eqn:Eqb; cbn [bind].
      * apply policy_eqb_eq in Eqb. subst q. rewrite IH. split.
        -- intros [-> Hall]. split; [reflexivity|]. constructor; assumption.
        -- intros [-> Hall]. split; [reflexivity|]. now inversion Hall.
      * apply policy_eqb_neq in Eqb. split; [discriminate|].
        intros [_ Hall]. inversion Hall; subst. congruence.
    + rewrite (check_input_raises xs (Some p) inp e E). cbn [bind].
      split; [discriminate|]. intros [_ Hall]. inversion Hall; subst. congruence.
Qed.

(** The loop over the inputs from the start. *)
Lemma inputs_loop_accepts (xs : dict HDKey DerivationPath) (inputs : list Scope)
    (r : option Psbt.Policy) :
  for_each (Psbt.check_input xs) inputs None = Ok r
  <-> (inputs = [] /\ r = None)
      \/ exists p, inputs <> [] /\ r = Some p
                   /\ Forall (fun inp => Psbt.input_policy xs inp = Ok p) inputs.
Proof.
  destruct inputs as [|inp rest]; cbn [for_each].
  - split.
    + intros [= <-]. now left.
    + intros [[_ ->]|(p & Hne & _)]; [reflexivity | congruence].
  - destruct (Psbt.input_policy xs inp) as [q|e] eqn:E.
    + rewrite (check_input_first xs inp q E). cbn [bind]. rewrite inputs_loop_same. split.
      * intros [-> Hall]. right. exists q. split; [discriminate|]. split; [reflexivity|].
        constructor; assumption.
      * intros [[Hnil _]|(p & _ & -> & Hall)]; [discriminate|].
        inversion Hall; subst. split; [congruence|]. 
        replace q with p by congruence. assumption.
    + rewrite (check_input_raises xs None inp e E). cbn [bind]. split; [discriminate|].
      intros [[Hnil _]|(p & _ & _ & Hall)]; [discriminate|].
      inversion Hall; subst. congruence.
Qed.

Lemma inputs_loop_errors (xs : dict HDKey DerivationPath) (inputs : list Scope)
    (st : option Psbt.Policy) (e : exn) :
  for_each (Psbt.check_input xs) inputs st = Raise e ->
  e = Psbt.mixed_inputs \/ e = Psbt.unable_to_get_policy.
Proof.
  revert st. induction inputs as [|inp rest IH]; intros st; cbn [for_each]; [discriminate|].
  destruct (Psbt.input_policy xs inp) as [q|e0] eqn:E.
  - destruct st as [p|].
    + rewrite (check_input_next xs p q inp E).
      destruct (Psbt.policy_eqb p q); cbn [bind]; [apply IH|].
      intros [= <-]. now left.
    + rewrite (check_input_first xs inp q E). cbn [bind]. apply IH.
  - rewrite (check_input_raises xs st inp e0 E). cbn [bind]. intros [= <-]. now right.
Qed.

(** The tests of [validate] after the loop, for a policy found. *)
Lemma validate_with_policy (self : Psbt.PSBTSigner) (xs : dict HDKey DerivationPath)
    (pol : Psbt.Policy) :
  Psbt.xpubs self = Ok xs ->
  for_each (Psbt.check_input xs) (psbt_inputs (Psbt.psbt self)) None = Ok (Some pol) ->
  let m := str_contains "p2wsh" (Psbt.policy_type pol)
           && Psbt.is_some (Psbt.policy_m pol)
           && Psbt.is_some (Psbt.policy_n pol)
           && Psbt.is_some (Psbt.policy_cosigners pol) in
  let w := Psbt.wallet self in
  Psbt.validate self
  = if m && negb (Psbt.wallet_is_multisig w) then Raise (ValueError "multisig tx")
    else if negb m && Psbt.wallet_is_multisig w then Raise (ValueError "not multisig tx")
    else if Psbt.wallet_is_loaded w
              && negb (Psbt.opt_policy_eqb (Psbt.wallet_policy w) (Some pol))
    then Raise (ValueError "policy mismatch")
    else Ok {| Psbt.wallet := w; Psbt.base_encoding := Psbt.base_encoding self;
               Psbt.ur_type := Psbt.ur_type self; Psbt.qr_format := Psbt.qr_format self;
               Psbt.psbt := Psbt.psbt self; Psbt.policy := Some pol |}.
Proof.
  intros Hxs Hloop m w. unfold Psbt.validate. rewrite Hxs. cbn [bind]. rewrite Hloop.
  cbn [bind Psbt.is_multisig Psbt.wallet]. fold m. fold w.
  destruct (m && negb (Psbt.wallet_is_multisig w)); [reflexivity|].
  destruct (negb m && Psbt.wallet_is_multisig w); [reflexivity|].
  destruct (Psbt.wallet_is_loaded w); [|reflexivity]. cbn [andb].
  destruct (negb (Psbt.opt_policy_eqb (Psbt.wallet_policy w) (Some pol))); reflexivity.
Qed.

Lemma validate_no_inputs (self : Psbt.PSBTSigner) :
  psbt_inputs (Psbt.psbt self) = [] ->
  Psbt.validate self
  = match Psbt.xpubs self with
    | Ok _ => Raise (TypeError "argument of type 'NoneType' is not iterable")
    | Raise _ => Raise Psbt.missing_xpubs
    end.
Proof.
  intros Hnil. unfold Psbt.validate. destruct (Psbt.xpubs self) as [xs|e] eqn:E.
  - cbn [bind]. rewrite Hnil. reflexivity.
  - apply xpubs_only_error in E as (-> & _). reflexivity.
Qed.

Lemma opt_policy_eqb_some (o : option Psbt.Policy) (pol : Psbt.Policy) :
  Psbt.opt_policy_eqb o (Some pol) = true <-> o = Some pol.
Proof.
  destruct o as [q|]; cbn; [|split; discriminate].
  rewrite policy_eqb_eq. split; congruence.
Qed.

End Constructor.

(** [PSBTSigner.__init__] returns a signer exactly when the data is a PSBT in
    one of the five encodings, the xpubs can be gathered, the PSBT has at
    least one input, every input yields one and the same policy, that policy
    is multisig exactly when the wallet is, and a loaded wallet has that very
    policy; the signer then holds the PSBT, that policy, the wallet, the
    requested QR format and the fields of the recorded encoding. *)
Theorem constructor_accepts `{Collaborators} (wallet : Psbt.Wallet)
    (psbt_data : Psbt.psbt_input) (qr_format : Z) (s : Psbt.PSBTSigner) :
  Psbt.__init__ wallet psbt_data qr_format = Ok s
  <-> exists e b p xs pol,
        Psbt.detected_encoding psbt_data = Some (e, b)
        /\ PSBT_parse b = Some p
        /\ Psbt.xpubs s = Ok xs
        /\ psbt_inputs p <> []
        /\ Forall (fun inp => Psbt.input_policy xs inp = Ok pol) (psbt_inputs p)
        /\ Psbt.is_multisig (Some pol) = Ok (Psbt.wallet_is_multisig wallet)
        /\ (Psbt.wallet_is_loaded wallet = true -> Psbt.wallet_policy wallet = Some pol)
        /\ s = {| Psbt.wallet := wallet;
                  Psbt.base_encoding :=
                    fst (Psbt.encoding_fields (Psbt.recorded_encoding e qr_format));
                  Psbt.ur_type :=
                    snd (Psbt.encoding_fields (Psbt.recorded_encoding e qr_format));
                  Psbt.qr_format := qr_format; Psbt.psbt := p;
                  Psbt.policy := Some pol |}.
Proof.
  unfold Psbt.__init__. rewrite parse_psbt_data_spec.
  destruct (Psbt.detected_encoding psbt_data) as [[e b]|] eqn:Edet.
  2: { split; [discriminate | intros (e & b & p & xs & pol & Hd & _); discriminate]. }
  destruct (PSBT_parse b) as [p|] eqn:Eparse.
  2: { split; [discriminate|]. intros (e' & b' & p & xs & pol & [= <- <-] & Hp & _).
       congruence. }
  cbn [bind].
  set (enc := fst (Psbt.encoding_fields (Psbt.recorded_encoding e qr_format))).
  set (ur := snd (Psbt.encoding_fields (Psbt.recorded_encoding e qr_format))).
  set (self := {| Psbt.wallet := wallet; Psbt.base_encoding := enc; Psbt.ur_type := ur;
                  Psbt.qr_format := qr_format; Psbt.psbt := p; Psbt.policy := None |}).
  assert (Hxpubs : forall pol,
             Psbt.xpubs {| Psbt.wallet := wallet; Psbt.base_encoding := enc;
                           Psbt.ur_type := ur; Psbt.qr_format := qr_format;
                           Psbt.psbt := p; Psbt.policy := pol |} = Psbt.xpubs self)
    by reflexivity.
  split.
  - intros Hv.
    destruct (Psbt.xpubs self) as [xs|ex] eqn:Exs.
    2: { unfold Psbt.validate in Hv. rewrite Exs in Hv. discriminate. }
    destruct (for_each (Psbt.check_input xs) (psbt_inputs p) None) as [r|el] eqn:Eloop.
    2: { unfold Psbt.validate in Hv. rewrite Exs in Hv. cbn [bind] in Hv.
         change (psbt_inputs (Psbt.psbt self)) with (psbt_inputs p) in Hv.
         rewrite Eloop in Hv. discriminate. }
    pose proof Eloop as Hloop. apply inputs_loop_accepts in Hloop.
    destruct Hloop as [[Hnil ->]|(pol & Hne & -> & Hall)].
    { rewrite (validate_no_inputs self Hnil), Exs in Hv. discriminate. }
    rewrite (validate_with_policy self xs pol Exs Eloop) in Hv. cbv zeta in Hv.
    cbn [Psbt.wallet Psbt.base_encoding Psbt.ur_type Psbt.qr_format Psbt.psbt self] in Hv.
    set (m := str_contains "p2wsh" (Psbt.policy_type pol)
              && Psbt.is_some (Psbt.policy_m pol)
              && Psbt.is_some (Psbt.policy_n pol)
              && Psbt.is_some (Psbt.policy_cosigners pol)) in *.
    destruct (m && negb (Psbt.wallet_is_multisig wallet)) eqn:E1; [discriminate|].
    destruct (negb m && Psbt.wallet_is_multisig wallet) eqn:E2; [discriminate|].
    destruct (Psbt.wallet_is_loaded wallet
              && negb (Psbt.opt_policy_eqb (Psbt.wallet_policy wallet) (Some pol)))
      eqn:E3; [discriminate|].
    injection Hv as <-.
    exists e, b, p, xs, pol. rewrite Hxpubs.
    repeat (split; [reflexivity || assumption|]). split; [|split; [|reflexivity]].
    + cbn [Psbt.is_multisig]. fold m. f_equal.
      destruct m, (Psbt.wallet_is_multisig wallet); try reflexivity; discriminate.
    + intros Hloaded. rewrite Hloaded in E3. cbn [andb] in E3.
      apply negb_false_iff in E3. now apply opt_policy_eqb_some.
  - intros (e' & b' & p' & xs & pol & [= <- <-] & Hp & Hxs & Hne & Hall & Hm & Hloaded & ->).
    replace p' with p in * by congruence.
    rewrite Hxpubs in Hxs.
    assert (Eloop : for_each (Psbt.check_input xs) (psbt_inputs (Psbt.psbt self)) None
                    = Ok (Some pol)).
    { apply inputs_loop_accepts. right. exists pol. auto. }
    rewrite (validate_with_policy self xs pol Hxs Eloop). cbv zeta.
    cbn [Psbt.wallet Psbt.base_encoding Psbt.ur_type Psbt.qr_format Psbt.psbt self].
    cbn [Psbt.is_multisig] in Hm. injection Hm as Hm. rewrite Hm.
    destruct (Psbt.wallet_is_multisig wallet); cbn [andb negb];
      (destruct (Psbt.wallet_is_loaded wallet) eqn:El; cbn [andb]; [|reflexivity];
       rewrite (proj2 (opt_policy_eqb_some _ pol) (Hloaded eq_refl)); reflexivity).
Qed.

Lemma xpubs_ok (self : Psbt.PSBTSigner) (xs : dict HDKey DerivationPath) :
  Psbt.xpubs self = Ok xs ->
  psbt_xpubs (Psbt.psbt self) <> [] \/ Psbt.wallet_descriptor (Psbt.wallet self) <> None.
Proof.
  unfold Psbt.xpubs. destruct (psbt_xpubs (Psbt.psbt self)); [|left; discriminate].
  destruct (Psbt.wallet_descriptor (Psbt.wallet self)); [right; discriminate | discriminate].
Qed.

(** When [PSBTSigner.__init__] raises, the error is one of eight: the
    [ValueError]s "invalid PSBT" (exactly when the data is a PSBT in none of
    the five encodings), "missing xpubs" (exactly when the PSBT has no global
    xpubs and the wallet no descriptor), "Unable to get policy", "mixed
    inputs in the tx", "multisig tx", "not multisig tx" and "policy
    mismatch", or the [TypeError] of [is_multisig(None)], exactly when the
    xpubs were gathered and the PSBT has no inputs. *)
Theorem constructor_errors `{Collaborators} (wallet : Psbt.Wallet)
    (psbt_data : Psbt.psbt_input) (qr_format : Z) (e : exn) :
  Psbt.__init__ wallet psbt_data qr_format = Raise e ->
  In e [ValueError "invalid PSBT"; Psbt.missing_xpubs; Psbt.unable_to_get_policy;
        Psbt.mixed_inputs; TypeError "argument of type 'NoneType' is not iterable";
        ValueError "multisig tx"; ValueError "not multisig tx";
        ValueError "policy mismatch"]
  /\ (e = ValueError "invalid PSBT" <-> Psbt.detected_encoding psbt_data = None)
  /\ (e = Psbt.missing_xpubs
      <-> exists enc b p,
            Psbt.detected_encoding psbt_data = Some (enc, b) /\ PSBT_parse b = Some p
            /\ psbt_xpubs p = [] /\ Psbt.wallet_descriptor wallet = None)
  /\ (e = TypeError "argument of type 'NoneType' is not iterable"
      <-> exists enc b p,
            Psbt.detected_encoding psbt_data = Some (enc, b) /\ PSBT_parse b = Some p
            /\ psbt_inputs p = []
            /\ (psbt_xpubs p <> [] \/ Psbt.wallet_descriptor wallet <> None)).
Proof.
  unfold Psbt.__init__. rewrite parse_psbt_data_spec.
  destruct (Psbt.detected_encoding psbt_data) as [[enc b]|] eqn:Edet.
  2: { intros [= <-]. split; [now left|]. split; [tauto|].
       split; (split; [discriminate | intros (? & ? & ? & Hd & _); discriminate]). }
  destruct (detected_encoding_parses psbt_data enc b Edet) as (p & Hp). rewrite Hp.
  cbn [bind].
  set (self := {| Psbt.wallet := wallet; Psbt.psbt := p; Psbt.policy := None;
                  Psbt.base_encoding := _; Psbt.ur_type := _; Psbt.qr_format := _ |}).
  intros Hv.
  assert (Hsome : forall (P : Psbt.encoding -> bytes -> PSBT -> Prop),
             (exists enc' b' p',
                 Some (enc, b) = Some (enc', b') /\ PSBT_parse b' = Some p' /\ P enc' b' p')
             <-> P enc b p).
  { intros P. split.
    - intros (enc' & b' & p' & [= <- <-] & Hp' & HP). now replace p with p' by congruence.
    - intros HP. exists enc, b, p. auto. }
  rewrite (Hsome (fun _ _ p => psbt_xpubs p = [] /\ Psbt.wallet_descriptor wallet = None)).
  rewrite (Hsome (fun _ _ p => psbt_inputs p = []
                               /\ (psbt_xpubs p <> [] \/ Psbt.wallet_descriptor wallet <> None))).
  destruct (Psbt.xpubs self) as [xs|ex] eqn:Exs.
  2: { unfold Psbt.validate in Hv. rewrite Exs in Hv. cbn [bind] in Hv.
       apply xpubs_only_error in Exs as (-> & Hx & Hd). injection Hv as <-.
       unfold self in Hx, Hd. cbn [Psbt.psbt Psbt.wallet] in Hx, Hd.
       split; [right; now left|]. split; [split; discriminate|].
       split; [split; [auto | reflexivity]|]. split; [discriminate|].
       intros (_ & [Hne|Hne]); contradiction. }
  pose proof (xpubs_ok self xs Exs) as Hok.
  unfold self in Hok. cbn [Psbt.psbt Psbt.wallet] in Hok.
  assert (Hnot_missing : ~ (psbt_xpubs p = [] /\ Psbt.wallet_descriptor wallet = None))
    by (intros [Hx Hd]; destruct Hok; contradiction).
  destruct (for_each (Psbt.check_input xs) (psbt_inputs p) None) as [r|el] eqn:Eloop.
  2: { assert (Hne : psbt_inputs p <> []) by (intros Hnil; rewrite Hnil in Eloop; discriminate).
       rewrite (validate_inputs_raise self xs el Exs Eloop) in Hv. injection Hv as <-.
       apply inputs_loop_errors in Eloop.
       split; [destruct Eloop as [-> | ->]; simpl; tauto|].
       split; [split; [destruct Eloop as [-> | ->]; discriminate | discriminate]|].
       split; (split; [destruct Eloop as [-> | ->]; discriminate | tauto]). }
  pose proof Eloop as Hloop. apply inputs_loop_accepts in Hloop.
  destruct Hloop as [[Hnil ->]|(pol & Hne & -> & Hall)].
  - rewrite (validate_no_inputs self Hnil), Exs in Hv. injection Hv as <-.
    split; [simpl; tauto|]. split; [split; discriminate|].
    split; [split; [discriminate | tauto] | split; [auto | reflexivity]].
  - rewrite (validate_with_policy self xs pol Exs Eloop) in Hv. cbv zeta in Hv.
    assert (Hthree : e = ValueError "multisig tx" \/ e = ValueError "not multisig tx"
                     \/ e = ValueError "policy mismatch").
    { destruct (_ && negb _) in Hv; [injection Hv as <-; tauto|].
      destruct (negb _ && _) in Hv; [injection Hv as <-; tauto|].
      destruct (_ && negb _) in Hv; [injection Hv as <-; tauto | discriminate]. }
    split; [destruct Hthree as [-> | [-> | ->]]; simpl; auto 10|].
    split; [split; [destruct Hthree as [-> | [-> | ->]]; discriminate | discriminate]|].
    split; (split; [destruct Hthree as [-> | [-> | ->]]; discriminate | tauto]).
Qed.

Lemma constructor_errors_witness :
  Psbt.__init__ (H := Sample.collaborators) Sample.multisig_wallet
    (Psbt.InBytes (Sample.psbt_magic ++ [x04])) Sample.FORMAT_NONE
  = Raise Psbt.mixed_inputs
  /\ Psbt.detected_encoding (H := Sample.collaborators)
       (Psbt.InBytes (Sample.psbt_magic ++ [x04])) <> None.
Proof.
  assert (Hraise : Psbt.__init__ (H := Sample.collaborators) Sample.multisig_wallet
                     (Psbt.InBytes (Sample.psbt_magic ++ [x04])) Sample.FORMAT_NONE
                   = Raise Psbt.mixed_inputs) by (vm_compute; reflexivity).
  split; [exact Hraise|].
  destruct (constructor_errors (H := Sample.collaborators) Sample.multisig_wallet
              (Psbt.InBytes (Sample.psbt_magic ++ [x04])) Sample.FORMAT_NONE
              Psbt.mixed_inputs Hraise) as (_ & Hinvalid & _).
  intros Hnone. apply Hinvalid in Hnone. discriminate.
Defined.

(** ** psbt.py: the cosigners do not depend on the order of the pubkeys *)

Lemma string_compare_not_gt_trans (a b c : string) :
  String.compare a b <> Gt -> String.compare b c <> Gt -> String.compare a c <> Gt.
Proof.
  revert b c. induction a as [|x a IH]; intros [|y b] [|z c]; cbn [String.compare];
    try congruence.
  unfold Ascii.compare.
  destruct (N.compare_spec (N_of_ascii x) (N_of_ascii y)) as [Hxy|Hxy|Hxy];
    destruct (N.compare_spec (N_of_ascii y) (N_of_ascii z)) as [Hyz|Hyz|Hyz];
    try congruence.
  - rewrite Hxy, Hyz, N.compare_refl. apply IH.
  - intros _ _. rewrite Hxy. apply N.compare_lt_iff in Hyz. now rewrite Hyz.
  - intros _ _. rewrite <- Hyz. apply N.compare_lt_iff in Hxy. now rewrite Hxy.
  - intros _ _. assert (Hxz : (N_of_ascii x < N_of_ascii z)%N) by lia.
    apply N.compare_lt_iff in Hxz. now rewrite Hxz.
Qed.

Lemma str_le_trans (a b c : string) : str_le a b -> str_le b c -> str_le a c.
Proof.
  unfold str_le, String.leb. intros Hab Hbc.
  pose proof (string_compare_not_gt_trans a b c) as Htrans.
  destruct (String.compare a b); try discriminate;
    destruct (String.compare b c); try discriminate;
    destruct (String.compare a c); try reflexivity;
    exfalso; apply Htrans; congruence.
Qed.

Lemma sorted_list_unique (l1 l2 : list string) :
  Permutation l1 l2 -> Sorted str_le l1 -> Sorted str_le l2 -> l1 = l2.
Proof.
  intros Hperm H1 H2.
  apply (Sorted_StronglySorted str_le_trans) in H1, H2.
  revert l2 Hperm H2. induction H1 as [|x l1 Hs1 IH Hx]; intros l2 Hperm H2.
  - apply Permutation_nil in Hperm. now subst.
  - destruct l2 as [|y l2]; [apply Permutation_sym, Permutation_nil in Hperm; discriminate|].
    inversion H2 as [|? ? Hs2 Hy]; subst.
    assert (Heq : x = y).
    { assert (Hin1 : In x (y :: l2)) by (eapply Permutation_in; [exact Hperm | now left]).
      assert (Hin2 : In y (x :: l1))
        by (eapply Permutation_in; [apply Permutation_sym, Hperm | now left]).
      destruct Hin1 as [->|Hin1]; [reflexivity|].
      destruct Hin2 as [->|Hin2]; [reflexivity|].
      rewrite Forall_forall in Hx, Hy.
      apply String.leb_antisym; [apply Hx, Hin2 | apply Hy, Hin1]. }
    subst y. f_equal. apply IH; [|exact Hs2].
    eapply Permutation_cons_inv, Hperm.
Qed.

Lemma sorted_of_Permutation (l1 l2 : list string) :
  Permutation l1 l2 -> sorted l1 = sorted l2.
Proof.
  intros Hperm. apply sorted_list_unique; [|apply sorted_Sorted ..].
  rewrite <- (sorted_Permutation l1), <- (sorted_Permutation l2). exact Hperm.
Qed.

Lemma some_without_derivation (derivations : dict PubKey DerivationPath)
    (pubkeys : list PubKey) :
  forallb (fun pk => Psbt.is_some (dict_get bytes_eqb derivations pk)) pubkeys = false ->
  exists pk, In pk pubkeys /\ dict_get bytes_eqb derivations pk = None.
Proof.
  induction pubkeys as [|pk pks IH]; cbn [forallb]; [discriminate|].
  destruct (dict_get bytes_eqb derivations pk) eqn:E; cbn [Psbt.is_some andb].
  - intros Hf. destruct (IH Hf) as (pk' & Hin & Hnone). exists pk'. split; [now right | exact Hnone].
  - intros _. exists pk. split; [now left | exact E].
Qed.

Section CosignersOrder.
Context `{Collaborators}.
Variable derivations : dict PubKey DerivationPath.
Variable xpubs : dict HDKey DerivationPath.

(** No call of [xpub.derive] that a scan of [xpubs] for one of the pubkeys
    could make is refused by the library. *)
Let no_failure (pubkeys : list PubKey) : Prop :=
  forall pk der entry,
    In pk pubkeys -> dict_get bytes_eqb derivations pk = Some der ->
    In entry xpubs ->
    ~ ((fingerprint (snd entry) = fingerprint der
        /\ derivation (snd entry) = slice_to_minus2 (derivation der))
       /\ xpub_derive (fst entry) (slice_from_minus2 (derivation der)) = None).

Let scanned (pubkey : PubKey) : Prop :=
  exists der, dict_get bytes_eqb derivations pubkey = Some der
              /\ is_ok (Psbt.first_match pubkey der xpubs) = true.

Lemma get_cosigners_scanned (pubkeys : list PubKey) :
  (forall pk, In pk pubkeys -> scanned pk) ->
  Psbt.get_cosigners pubkeys derivations xpubs
  = if negb (len (map to_base58 (Psbt.matches_found derivations xpubs pubkeys))
             =? len pubkeys)
    then Raise (ValueError "cannot get all cosigners")
    else Ok (sorted (map to_base58 (Psbt.matches_found derivations xpubs pubkeys))).
Proof.
  intros Hscanned.
  pose proof (cosigners_loop_found derivations xpubs pubkeys [] Hscanned) as Hf.
  unfold Psbt.get_cosigners.
  match goal with
  | |- bind ?loop _ = _ =>
      replace loop
        with (Ok (map to_base58 (Psbt.matches_found derivations xpubs pubkeys)))
        by (symmetry; exact Hf)
  end.
  reflexivity.
Qed.

Lemma get_cosigners_ok_scanned (pubkeys : list PubKey) (cosigners : list string) :
  Psbt.get_cosigners pubkeys derivations xpubs = Ok cosigners ->
  forall pk, In pk pubkeys -> scanned pk.
Proof.
  unfold Psbt.get_cosigners. intros Hc. apply bind_ok in Hc as (l & El & _).
  exact (cosigners_loop_ok derivations xpubs pubkeys [] l El).
Qed.

Lemma get_cosigners_scanned_order (pubkeys pubkeys' : list PubKey) :
  Permutation pubkeys pubkeys' ->
  (forall pk, In pk pubkeys -> scanned pk) ->
  Psbt.get_cosigners pubkeys' derivations xpubs
  = Psbt.get_cosigners pubkeys derivations xpubs.
Proof.
  intros Hperm Hscanned.
  assert (Hscanned' : forall pk, In pk pubkeys' -> scanned pk).
  { intros pk Hin. apply Hscanned.
    eapply Permutation_in; [apply Permutation_sym, Hperm | exact Hin]. }
  rewrite (get_cosigners_scanned pubkeys Hscanned),
          (get_cosigners_scanned pubkeys' Hscanned').
  assert (Hfound : Permutation
                     (map to_base58 (Psbt.matches_found derivations xpubs pubkeys'))
                     (map to_base58 (Psbt.matches_found derivations xpubs pubkeys))).
  { apply Permutation_map. unfold Psbt.matches_found.
    apply Permutation_flat_map, Permutation_sym, Hperm. }
  unfold len. rewrite (Permutation_length Hfound), (Permutation_length Hperm).
  rewrite (sorted_of_Permutation _ _ Hfound). reflexivity.
Qed.

Lemma no_failure_scanned (pubkeys : list PubKey) :
  no_failure pubkeys ->
  (forall pk, In pk pubkeys -> dict_get bytes_eqb derivations pk <> None) ->
  forall pk, In pk pubkeys -> scanned pk.
Proof.
  intros Hnf Hentries pk Hin. pose proof (Hentries pk Hin) as Hentry.
  destruct (dict_get bytes_eqb derivations pk) as [der|] eqn:Hder; [|congruence].
  exists der. split; [exact Hder|].
  pose proof (first_match_spec pk der xpubs) as Hfirst.
  destruct (Psbt.first_match pk der xpubs) as [o|e]; [reflexivity|].
  destruct Hfirst as (_ & entry & Hentry' & Hf).
  exfalso. exact (Hnf pk der entry Hin Hder Hentry' Hf).
Qed.

Lemma no_failure_missing (pubkeys : list PubKey) :
  no_failure pubkeys ->
  (exists pk, In pk pubkeys /\ dict_get bytes_eqb derivations pk = None) ->
  Psbt.get_cosigners pubkeys derivations xpubs = Raise (ValueError "missing derivation").
Proof.
  intros Hnf (pk & Hin & Hnone).
  destruct (Psbt.get_cosigners pubkeys derivations xpubs) as [cs|e] eqn:E.
  - destruct (get_cosigners_ok_scanned pubkeys cs E pk Hin) as (der & Hder & _).
    congruence.
  - f_equal.
    destruct (get_cosigners_raises derivations xpubs pubkeys e E)
      as [(-> & _)|[(_ & pk' & der & entry & Hin' & Hder & Hentry & Hf)
                   |(_ & Hentries & _)]].
    + reflexivity.
    + exfalso. exact (Hnf pk' der entry Hin' Hder Hentry Hf).
    + exfalso. exact (Hentries pk Hin Hnone).
Qed.

End CosignersOrder.

(** X11. [get_cosigners] and the order of the pubkeys.  A list of cosigners
    returned for the pubkeys in one order is returned for them in any
    order, so the call returns in one order exactly when it does in the
    other.  Which error is raised can depend on the order, through the
    pubkey at which the loop stops; it does not when no xpub with the
    fingerprint and origin path of a pubkey's derivation is one from which
    the library refuses to derive along the last two indexes: then the
    result, value or error, is the same in any order. *)
Theorem get_cosigners_any_order `{Collaborators}
    (pubkeys pubkeys' : list PubKey) (derivations : dict PubKey DerivationPath)
    (xpubs : dict HDKey DerivationPath) :
  Permutation pubkeys pubkeys' ->
  (forall cosigners,
      Psbt.get_cosigners pubkeys derivations xpubs = Ok cosigners ->
      Psbt.get_cosigners pubkeys' derivations xpubs = Ok cosigners)
  /\ is_ok (Psbt.get_cosigners pubkeys' derivations xpubs)
     = is_ok (Psbt.get_cosigners pubkeys derivations xpubs)
  /\ ((forall pk der entry,
          In pk pubkeys -> dict_get bytes_eqb derivations pk = Some der ->
          In entry xpubs ->
          ~ ((fingerprint (snd entry) = fingerprint der
              /\ derivation (snd entry) = slice_to_minus2 (derivation der))
             /\ xpub_derive (fst entry) (slice_from_minus2 (derivation der)) = None)) ->
      Psbt.get_cosigners pubkeys' derivations xpubs
      = Psbt.get_cosigners pubkeys derivations xpubs).
Proof.
  intros Hperm.
  assert (Hok : forall l l' cs,
             Permutation l l' ->
             Psbt.get_cosigners l derivations xpubs = Ok cs ->
             Psbt.get_cosigners l' derivations xpubs = Ok cs).
  { intros l l' cs Hp Hcs.
    rewrite (get_cosigners_scanned_order derivations xpubs l l' Hp
               (get_cosigners_ok_scanned derivations xpubs l cs Hcs)).
    exact Hcs. }
  split; [intros cs; apply Hok, Hperm|]. split.
  - destruct (Psbt.get_cosigners pubkeys derivations xpubs) as [cs|e] eqn:E.
    + now rewrite (Hok _ _ cs Hperm E).
    + destruct (Psbt.get_cosigners pubkeys' derivations xpubs) as [cs'|e'] eqn:E';
        [|reflexivity].
      rewrite (Hok _ _ cs' (Permutation_sym Hperm) E') in E. discriminate.
  - intros Hnf.
    destruct (forallb (fun pk => Psbt.is_some (dict_get bytes_eqb derivations pk)) pubkeys)
      eqn:Eall.
    + apply get_cosigners_scanned_order; [exact Hperm|].
      apply no_failure_scanned; [exact Hnf|].
      exact (all_have_derivation derivations pubkeys Eall).
    + apply some_without_derivation in Eall as (pk & Hin & Hnone).
      rewrite (no_failure_missing derivations xpubs pubkeys Hnf) by eauto.
      apply no_failure_missing.
      * intros pk' der entry Hin'. apply Hnf.
        eapply Permutation_in; [apply Permutation_sym, Hperm | exact Hin'].
      * exists pk. split; [eapply Permutation_in; eassumption | exact Hnone].
Qed.

Lemma sample_pubkeys_reversed :
  List.rev (Sample.multisig_pubkeys [0; 0]) <> Sample.multisig_pubkeys [0; 0].
Proof. vm_compute. discriminate. Qed.

Lemma sample_error_by_order :
  let hardened :=
    Sample.derivation_of Sample.root1 (Sample.account_path ++ [Sample.h 0; 0]) in
  let other :=
    fst (Sample.derivation_of Sample.root2 (Sample.account_path ++ [0; 0])) in
  Psbt.get_cosigners (H := Sample.collaborators) [fst hardened; other] [hardened]
    Sample.multisig_xpubs = Raise Psbt.library_error
  /\ Psbt.get_cosigners (H := Sample.collaborators) [other; fst hardened] [hardened]
       Sample.multisig_xpubs = Raise (ValueError "missing derivation").
Proof. split; vm_compute; reflexivity. Qed.

(** At the sample 2-of-3 wallet the three cosigners are returned for the
    pubkeys in reverse order as well; and with a derivation that the
    library refuses, which error is raised depends on the order. *)
Lemma get_cosigners_any_order_witness :
  let pubkeys := Sample.multisig_pubkeys [0; 0] in
  Permutation pubkeys (List.rev pubkeys)
  /\ List.rev pubkeys <> pubkeys
  /\ (exists cosigners,
         Psbt.get_cosigners (H := Sample.collaborators) pubkeys
           (Sample.multisig_derivations [0; 0]) Sample.multisig_xpubs = Ok cosigners
         /\ Psbt.get_cosigners (H := Sample.collaborators) (List.rev pubkeys)
              (Sample.multisig_derivations [0; 0]) Sample.multisig_xpubs = Ok cosigners)
  /\ (let hardened :=
        Sample.derivation_of Sample.root1 (Sample.account_path ++ [Sample.h 0; 0]) in
      let other :=
        fst (Sample.derivation_of Sample.root2 (Sample.account_path ++ [0; 0])) in
      Psbt.get_cosigners (H := Sample.collaborators) [fst hardened; other] [hardened]
        Sample.multisig_xpubs = Raise Psbt.library_error
      /\ Psbt.get_cosigners (H := Sample.collaborators) [other; fst hardened] [hardened]
           Sample.multisig_xpubs = Raise (ValueError "missing derivation")).
Proof.
  intros pubkeys. split; [apply Permutation_rev|].
  split; [exact sample_pubkeys_reversed|].
  split; [|exact sample_error_by_order].
  destruct sample_cosigners_returned as (cs & Hcs). exists cs. split; [exact Hcs|].
  destruct (get_cosigners_any_order (H := Sample.collaborators) pubkeys (List.rev pubkeys)
              (Sample.multisig_derivations [0; 0]) Sample.multisig_xpubs
              (Permutation_rev pubkeys)) as (Hok & _).
  exact (Hok cs Hcs).
Defined.

(** ** psbt.py: the shape of a policy *)

Lemma sorted_length (l : list string) : List.length (sorted l) = List.length l.
Proof. symmetry. apply Permutation_length, sorted_Permutation. Qed.

Lemma get_cosigners_ok `{Collaborators} (pubkeys : list PubKey)
    (derivations : dict PubKey DerivationPath) (xpubs : dict HDKey DerivationPath)
    (cosigners : list string) :
  Psbt.get_cosigners pubkeys derivations xpubs = Ok cosigners ->
  len cosigners = len pubkeys /\ Sorted str_le cosigners.
Proof.
  unfold Psbt.get_cosigners. intros Hc. apply bind_ok in Hc as (l & _ & Hc).
  destruct (len l =? len pubkeys) eqn:E; cbn [negb] in Hc; [|discriminate].
  injection Hc as <-. apply Z.eqb_eq in E. split; [|apply sorted_Sorted].
  unfold len in *. rewrite sorted_length. exact E.
Qed.

(** A policy that [get_policy] returns has either none or all of the keys
    [m], [n] and [cosigners]: all of them exactly when its type contains
    [p2wsh] and the scope has a witness script, and then [m] is the
    threshold of that script, [n] is the number of pubkeys of the script and
    of cosigners found, and the cosigners are sorted; so [is_multisig] holds
    of it exactly in that case.  A [p2sh] script with a witness script is
    typed [p2sh-p2wsh]. *)
Theorem get_policy_shape `{Collaborators} (scope : Scope) (scriptpubkey : Script)
    (xpubs : dict HDKey DerivationPath) (p : Psbt.Policy) :
  Psbt.get_policy scope scriptpubkey xpubs = Ok p ->
  let expected_multisig :=
    str_contains "p2wsh" (Psbt.policy_type p) && Psbt.is_some (witness_script scope) in
  Psbt.is_multisig (Some p) = Ok expected_multisig
  /\ (expected_multisig = false ->
      Psbt.policy_m p = None /\ Psbt.policy_n p = None /\ Psbt.policy_cosigners p = None)
  /\ (expected_multisig = true ->
      exists ws m pubkeys cosigners,
        witness_script scope = Some ws
        /\ parse_multisig ws = Some (m, pubkeys)
        /\ Psbt.get_cosigners pubkeys (bip32_derivations scope) xpubs = Ok cosigners
        /\ Psbt.policy_m p = Some m
        /\ Psbt.policy_n p = Some (len pubkeys)
        /\ Psbt.policy_cosigners p = Some cosigners
        /\ len cosigners = len pubkeys
        /\ Sorted str_le cosigners)
  /\ (script_type scriptpubkey = Some "p2sh" ->
      Psbt.is_some (witness_script scope) = true -> Psbt.policy_type p = "p2sh-p2wsh").
Proof.
  intros Hp expected_multisig. unfold Psbt.get_policy in Hp.
  assert (Htype : script_type scriptpubkey = Some "p2sh" ->
                  Psbt.is_some (witness_script scope) = true ->
                  Psbt.policy_type p = "p2sh-p2wsh").
  { intros Hst Hws. destruct (witness_script scope) as [ws|]; [|discriminate].
    rewrite Hst in Hp. cbn in Hp.
    destruct (parse_multisig ws) as [[m pubkeys]|]; [|discriminate]. cbn in Hp.
    apply bind_ok in Hp as (cs & _ & Hp). now injection Hp as <-. }
  match type of Hp with
  | match ?ty with _ => _ end = _ => destruct ty as [st|]; [|discriminate]
  end.
  destruct (str_contains "p2wsh" st) eqn:Ec.
  - destruct (witness_script scope) as [ws|] eqn:Ews.
    + destruct (parse_multisig ws) as [[m pubkeys]|] eqn:Epm; [|discriminate].
      cbn [Psbt.lib_call bind] in Hp.
      apply bind_ok in Hp as (cs & Hcs & Hp). injection Hp as <-.
      destruct (get_cosigners_ok pubkeys (bip32_derivations scope) xpubs cs Hcs)
        as (Hlen & Hsorted).
      unfold expected_multisig. cbn [Psbt.policy_type Psbt.is_multisig Psbt.policy_m
        Psbt.policy_n Psbt.policy_cosigners Psbt.is_some]. rewrite Ec. cbn [andb].
      split; [reflexivity|]. split; [discriminate|]. split; [|exact Htype].
      intros _. exists ws, m, pubkeys, cs. rewrite Hlen. auto 10.
    + injection Hp as <-. unfold expected_multisig.
      cbn [Psbt.policy_type Psbt.is_multisig Psbt.policy_m Psbt.policy_n
           Psbt.policy_cosigners Psbt.is_some]. rewrite Ec. cbn [andb].
      split; [reflexivity|]. split; [auto|]. split; [discriminate | exact Htype].
  - injection Hp as <-. unfold expected_multisig.
    cbn [Psbt.policy_type Psbt.is_multisig Psbt.policy_m Psbt.policy_n
         Psbt.policy_cosigners Psbt.is_some]. rewrite Ec. cbn [andb].
    split; [reflexivity|]. split; [auto|]. split; [discriminate | exact Htype].
Qed.

Lemma sample_multisig_input_policy :
  Psbt.get_policy (H := Sample.collaborators) Sample.multisig_input
    (p2wsh (Collaborators := Sample.collaborators) (Sample.multisig_witness_script [0; 0]))
    Sample.multisig_xpubs
  = Ok Sample.multisig_policy.
Proof. vm_compute. reflexivity. Qed.

Lemma get_policy_shape_witness :
  Psbt.get_policy (H := Sample.collaborators) Sample.multisig_input
    (p2wsh (Collaborators := Sample.collaborators) (Sample.multisig_witness_script [0; 0]))
    Sample.multisig_xpubs
  = Ok Sample.multisig_policy
  /\ Psbt.is_multisig (Some Sample.multisig_policy) = Ok true
  /\ exists cosigners,
       Psbt.policy_cosigners Sample.multisig_policy = Some cosigners
       /\ Psbt.policy_n Sample.multisig_policy = Some 3
       /\ len cosigners = 3
       /\ Sorted str_le cosigners.
Proof.
  split; [exact sample_multisig_input_policy|]. split; [reflexivity|].
  destruct (get_policy_shape (H := Sample.collaborators) Sample.multisig_input
              (p2wsh (Collaborators := Sample.collaborators)
                 (Sample.multisig_witness_script [0; 0]))
              Sample.multisig_xpubs Sample.multisig_policy sample_multisig_input_policy)
    as (_ & _ & Hall & _).
  destruct (Hall eq_refl) as (ws & m & pubkeys & cs & _ & _ & _ & _ & Hn & Hcs & Hlen & Hs).
  exists cs. split; [exact Hcs|]. split; [reflexivity|]. split; [|exact Hs].
  rewrite Hlen. cbn [Psbt.policy_n Sample.multisig_policy] in Hn. congruence.
Defined.

(** ** psbt.py: where the xpubs come from *)

Lemma bytes_eqb_sym (a b : bytes) : bytes_eqb a b = bytes_eqb b a.
Proof.
  destruct (bytes_eqb a b) eqn:E1, (bytes_eqb b a) eqn:E2; try reflexivity.
  - apply bytes_eqb_eq in E1. subst. rewrite bytes_eqb_refl in E2. discriminate.
  - apply bytes_eqb_eq in E2. subst. rewrite bytes_eqb_refl in E1. discriminate.
Qed.

Lemma dict_get_set {V : Type} (d : dict bytes V) (k k' : bytes) (v : V) :
  dict_get bytes_eqb (dict_set bytes_eqb d k v) k'
  = if bytes_eqb k k' then Some v else dict_get bytes_eqb d k'.
Proof.
  induction d as [|[k0 v0] d IH]; cbn [dict_set dict_get].
  - destruct (bytes_eqb k k'); reflexivity.
  - destruct (bytes_eqb k0 k) eqn:E0; cbn [dict_get].
    + apply bytes_eqb_eq in E0. subst k0. destruct (bytes_eqb k k'); reflexivity.
    + destruct (bytes_eqb k0 k') eqn:E1; [|exact IH].
      apply bytes_eqb_eq in E1. subst k0. rewrite bytes_eqb_sym, E0. reflexivity.
Qed.

Lemma dict_set_keys {V : Type} (d : dict bytes V) (k : bytes) (v : V) :
  (forall k', In k' (map fst (dict_set bytes_eqb d k v)) <-> k' = k \/ In k' (map fst d))
  /\ (NoDup (map fst d) -> NoDup (map fst (dict_set bytes_eqb d k v))).
Proof.
  induction d as [|[k0 v0] d [IHin IHnd]]; cbn [dict_set map fst].
  - split; [intros k'; simpl; intuition congruence|].
    intros _. constructor; [intros [] | constructor].
  - destruct (bytes_eqb k0 k) eqn:E0; cbn [map fst].
    + apply bytes_eqb_eq in E0. subst k0. split; [|auto].
      intros k'. simpl. intuition congruence.
    + split.
      * intros k'. simpl. rewrite IHin. intuition congruence.
      * intros Hnd. inversion Hnd as [|? ? Hnotin Hnd']; subst.
        constructor; [|auto]. rewrite IHin. intros [->|Hin]; [|contradiction].
        rewrite bytes_eqb_refl in E0. discriminate.
Qed.

Lemma find_app {A : Type} (f : A -> bool) (l1 l2 : list A) :
  find f (l1 ++ l2) = match find f l1 with Some x => Some x | None => find f l2 end.
Proof. induction l1 as [|x l1 IH]; simpl; [reflexivity|]. now destruct (f x). Qed.

(** [xpubs] returns the global xpubs of the PSBT whenever there are some,
    whatever the wallet is.  Otherwise, with a wallet descriptor, it maps
    each key of a descriptor key that carries origin data to the origin of
    the last such descriptor key, and holds no other key and no key twice;
    the descriptor's single key, if set, is the only one read. *)
Theorem xpubs_sources (self : Psbt.PSBTSigner) :
  (psbt_xpubs (Psbt.psbt self) <> [] ->
   Psbt.xpubs self = Ok (psbt_xpubs (Psbt.psbt self)))
  /\ (psbt_xpubs (Psbt.psbt self) = [] ->
      forall descriptor,
        Psbt.wallet_descriptor (Psbt.wallet self) = Some descriptor ->
        exists xs,
          Psbt.xpubs self = Ok xs
          /\ NoDup (map fst xs)
          /\ forall k,
               dict_get bytes_eqb xs k
               = match find (fun dk => bytes_eqb (Psbt.dk_key dk) k
                                       && Psbt.is_some (Psbt.dk_origin dk))
                            (List.rev (Psbt.keys_of_descriptor descriptor)) with
                 | Some dk =>
                     option_map
                       (fun origin =>
                          {| fingerprint := Psbt.origin_fingerprint origin;
                             derivation := Psbt.origin_derivation origin |})
                       (Psbt.dk_origin dk)
                 | None => None
                 end).
Proof.
  unfold Psbt.xpubs. split.
  - destruct (psbt_xpubs (Psbt.psbt self)); [congruence | reflexivity].
  - intros -> descriptor ->. eexists. split; [reflexivity|].
    fold (Psbt.keys_of_descriptor descriptor).
    generalize (Psbt.keys_of_descriptor descriptor) as keys. intros keys.
    assert (Hgen : forall acc,
               NoDup (map fst acc) ->
               let xs :=
                 fold_left
                   (fun xpubs dk =>
                      match Psbt.dk_origin dk with
                      | Some origin =>
                          dict_set bytes_eqb xpubs (Psbt.dk_key dk)
                            {| fingerprint := Psbt.origin_fingerprint origin;
                               derivation := Psbt.origin_derivation origin |}
                      | None => xpubs
                      end) keys acc in
               NoDup (map fst xs)
               /\ forall k,
                    dict_get bytes_eqb xs k
                    = match find (fun dk => bytes_eqb (Psbt.dk_key dk) k
                                            && Psbt.is_some (Psbt.dk_origin dk))
                                 (List.rev keys) with
                      | Some dk =>
                          option_map
                            (fun origin =>
                               {| fingerprint := Psbt.origin_fingerprint origin;
                                  derivation := Psbt.origin_derivation origin |})
                            (Psbt.dk_origin dk)
                      | None => dict_get bytes_eqb acc k
                      end).
    { induction keys as [|dk keys IH]; intros acc Hnd; cbn [fold_left List.rev find].
      - split; [exact Hnd | reflexivity].
      - cbv zeta in IH. 
        set (acc' := match Psbt.dk_origin dk with
                     | Some origin =>
                         dict_set bytes_eqb acc (Psbt.dk_key dk)
                           {| fingerprint := Psbt.origin_fingerprint origin;
                              derivation := Psbt.origin_derivation origin |}
                     | None => acc
                     end).
        assert (Hnd' : NoDup (map fst acc')).
        { unfold acc'. destruct (Psbt.dk_origin dk); [|exact Hnd].
          now apply dict_set_keys. }
        destruct (IH acc' Hnd') as (Hnd'' & Hget). split; [exact Hnd''|].
        intros k. rewrite Hget, find_app.
        destruct (find _ (List.rev keys)) as [dk'|]; [reflexivity|].
        cbn [find]. unfold acc'.
        destruct (Psbt.dk_origin dk) as [origin|] eqn:Eo; cbn [Psbt.is_some].
        + rewrite dict_get_set. destruct (bytes_eqb (Psbt.dk_key dk) k); cbn [andb];
            [now rewrite Eo | reflexivity].
        + now rewrite andb_false_r. }
    destruct (Hgen [] (NoDup_nil _)) as (Hnd & Hget). split; [exact Hnd|].
    intros k. rewrite Hget. now destruct (find _ _).
Qed.

(** ** psbt.py: after [sign] *)

Lemma Forall_firstn_skipn {A : Type} (P : A -> Prop) (k : nat) (l : list A) :
  Forall P l -> Forall P (firstn k l) /\ Forall P (skipn k l).
Proof. intros Hall. rewrite <- (firstn_skipn k l) in Hall. now apply Forall_app in Hall. Qed.

Lemma set_partial_sigs_keeps (p p' : PSBT) (i : Z) (sigs : dict PubKey bytes) :
  Psbt.set_partial_sigs p i sigs = Ok p' ->
  Forall (fun inp => witness_utxo inp = None) (psbt_inputs p) ->
  Forall (fun inp => witness_utxo inp = None) (psbt_inputs p').
Proof.
  unfold Psbt.set_partial_sigs. intros Hset Hall.
  apply bind_ok in Hset as (inp & Hinp & Hset). injection Hset as <-.
  cbn [psbt_inputs].
  assert (Hin : In inp (psbt_inputs p)).
  { unfold list_index in Hinp. destruct (_ <? 0); [discriminate|].
    destruct (nth_error _ _) eqn:E; [|discriminate]. injection Hinp as ->.
    eapply nth_error_In, E. }
  apply Forall_app.
  split; [exact (proj1 (Forall_firstn_skipn _ (Z.to_nat i) _ Hall))|].
  constructor; [|exact (proj2 (Forall_firstn_skipn _ (S (Z.to_nat i)) _ Hall))].
  rewrite Forall_forall in Hall. cbn. now apply Hall.
Qed.

Lemma trim_loop_keeps (l : list (Z * Scope)) (p p' : PSBT) :
  for_each (fun trimmed (i_inp : Z * Scope) =>
              Psbt.set_partial_sigs trimmed (fst i_inp) (partial_sigs (snd i_inp))) l p
  = Ok p' ->
  Forall (fun inp => witness_utxo inp = None) (psbt_inputs p) ->
  Forall (fun inp => witness_utxo inp = None) (psbt_inputs p').
Proof.
  revert p. induction l as [|[i inp] l IH]; intros p; cbn [for_each].
  - now intros [= <-] Hall.
  - intros Hloop Hall. apply bind_ok in Hloop as (p1 & Hset & Hloop).
    apply (IH p1 Hloop). exact (set_partial_sigs_keeps p p1 i _ Hset Hall).
Qed.

(** [sign] changes [self.psbt] only, and the PSBT it leaves after a
    successful call has no input with a witness UTXO. *)
Lemma sign_outcomes `{Collaborators} (self s' : Psbt.PSBTSigner) (r : result unit) :
  Psbt.sign self = (s', r) ->
  s' = Psbt.with_psbt self (Psbt.psbt s')
  /\ (r = Ok tt -> Forall (fun inp => witness_utxo inp = None) (psbt_inputs (Psbt.psbt s'))).
Proof.
  unfold Psbt.sign.
  destruct (sign_with (Psbt.psbt self) (Key.key_root (Psbt.wallet_key (Psbt.wallet self))))
    as [signed n].
  destruct (n =? 0).
  - intros [= <- <-]. split; [reflexivity | discriminate].
  - cbn [Psbt.psbt Psbt.with_psbt].
    destruct (for_each _ _ _) as [trimmed|e] eqn:L.
    + intros [= <- <-]. split; [reflexivity|]. intros _. cbn [Psbt.psbt].
      apply trim_loop_keeps in L; [exact L|].
      cbn [Psbt.PSBT_new psbt_inputs]. apply Forall_forall.
      intros x Hx. apply in_map_iff in Hx as (? & <- & _). reflexivity.
    + intros [= <- <-]. split; [reflexivity | discriminate].
Qed.

(** After a successful [sign], [outputs] cannot be used any more: for a PSBT
    with at least one input it raises [AttributeError], because the PSBT
    kept has no witness UTXO. *)
Theorem outputs_after_sign_raises `{Collaborators} (self s' : Psbt.PSBTSigner) :
  Psbt.sign self = (s', Ok tt) ->
  psbt_inputs (Psbt.psbt s') <> [] ->
  Psbt.outputs s'
  = Raise (AttributeError "'NoneType' object has no attribute 'value'").
Proof.
  intros Hsign Hne. apply sign_outcomes in Hsign as (_ & Hall).
  specialize (Hall eq_refl).
  unfold Psbt.outputs, Psbt.inputs_amount.
  destruct (psbt_inputs (Psbt.psbt s')) as [|inp rest]; [contradiction|].
  inversion Hall as [|? ? Hinp _]; subst. cbn [for_each]. rewrite Hinp. reflexivity.
Qed.

Lemma sample_sign :
  Psbt.sign (H := Sample.collaborators) Sample.multisig_signer
  = (Psbt.with_psbt Sample.multisig_signer
       (Psbt.trimmed
          (fst (sign_with (Collaborators := Sample.collaborators)
                  (Psbt.psbt Sample.multisig_signer)
                  (Key.key_root (Psbt.wallet_key (Psbt.wallet Sample.multisig_signer)))))),
     Ok tt).
Proof. vm_compute. reflexivity. Qed.

Lemma sample_signed_inputs :
  psbt_inputs
    (Psbt.psbt
       (Psbt.with_psbt Sample.multisig_signer
       (Psbt.trimmed
          (fst (sign_with (Collaborators := Sample.collaborators)
                  (Psbt.psbt Sample.multisig_signer)
                  (Key.key_root (Psbt.wallet_key (Psbt.wallet Sample.multisig_signer))))))))
  <> [].
Proof. vm_compute. discriminate. Qed.

Lemma sample_signed_differs :
  Psbt.psbt
    (Psbt.with_psbt Sample.multisig_signer
       (Psbt.trimmed
          (fst (sign_with (Collaborators := Sample.collaborators)
                  (Psbt.psbt Sample.multisig_signer)
                  (Key.key_root (Psbt.wallet_key (Psbt.wallet Sample.multisig_signer)))))))
  <> Psbt.psbt Sample.multisig_signer.
Proof. vm_compute. discriminate. Qed.

Lemma outputs_after_sign_raises_witness :
  Psbt.sign (H := Sample.collaborators) Sample.multisig_signer
  = ((Psbt.with_psbt Sample.multisig_signer
       (Psbt.trimmed
          (fst (sign_with (Collaborators := Sample.collaborators)
                  (Psbt.psbt Sample.multisig_signer)
                  (Key.key_root (Psbt.wallet_key (Psbt.wallet Sample.multisig_signer))))))),
     Ok tt)
  /\ psbt_inputs
       (Psbt.psbt
          (Psbt.with_psbt Sample.multisig_signer
       (Psbt.trimmed
          (fst (sign_with (Collaborators := Sample.collaborators)
                  (Psbt.psbt Sample.multisig_signer)
                  (Key.key_root (Psbt.wallet_key (Psbt.wallet Sample.multisig_signer))))))))
     <> []
  /\ Psbt.outputs (H := Sample.collaborators)
       (Psbt.with_psbt Sample.multisig_signer
       (Psbt.trimmed
          (fst (sign_with (Collaborators := Sample.collaborators)
                  (Psbt.psbt Sample.multisig_signer)
                  (Key.key_root (Psbt.wallet_key (Psbt.wallet Sample.multisig_signer)))))))
     = Raise (AttributeError "'NoneType' object has no attribute 'value'").
Proof.
  split; [exact sample_sign|]. split; [exact sample_signed_inputs|].
  exact (outputs_after_sign_raises (H := Sample.collaborators) Sample.multisig_signer _
           sample_sign sample_signed_inputs).
Defined.

(** A signer the constructor returned keeps, through [sign], the encoding
    recorded at decode time: [psbt_qr] after a successful [sign] returns the
    serialised PSBT that [sign] kept, in that encoding and with the QR
    format requested at construction; the wallet and the policy are
    unchanged. *)
Theorem sign_then_psbt_qr `{Collaborators}
    (wallet : Psbt.Wallet) (psbt_data : Psbt.psbt_input) (qr_format : Z)
    (self s' : Psbt.PSBTSigner) (r : result unit) :
  Psbt.__init__ wallet psbt_data qr_format = Ok self ->
  Psbt.sign self = (s', r) ->
  exists e b0,
    Psbt.detected_encoding psbt_data = Some (e, b0)
    /\ Psbt.psbt_qr s'
       = (Psbt.encode_payload (Psbt.recorded_encoding e qr_format)
            (PSBT_serialize (Psbt.psbt s')), qr_format)
    /\ Psbt.wallet s' = wallet
    /\ Psbt.policy s' = Psbt.policy self
    /\ ((forall b n, base_decode (base_encode b n) n = Some b) ->
        (forall b, from_cbor (to_cbor (DBytes b)) = Some b) ->
        Psbt.decode_payload (Psbt.recorded_encoding e qr_format) (fst (Psbt.psbt_qr s'))
        = Some (PSBT_serialize (Psbt.psbt s'))).
Proof.
  intros Hinit Hsign. unfold Psbt.__init__ in Hinit.
  apply bind_ok in Hinit as ([[p enc] ur] & Hparse & Hvalid).
  apply validate_keeps in Hvalid as (Hpsbt & Henc & Hur & Hqr & Hwallet).
  cbn [Psbt.psbt Psbt.base_encoding Psbt.ur_type Psbt.qr_format Psbt.wallet]
    in Hpsbt, Henc, Hur, Hqr, Hwallet.
  destruct (parse_psbt_data_detected psbt_data qr_format p enc ur Hparse)
    as (e & b0 & Hdet & Hb0 & Hfields).
  apply sign_outcomes in Hsign as (Hs' & _).
  exists e, b0. split; [exact Hdet|].
  assert (Hqrp : Psbt.psbt_qr s'
                 = (Psbt.encode_payload (Psbt.recorded_encoding e qr_format)
                      (PSBT_serialize (Psbt.psbt s')), qr_format)).
  { rewrite Hs' at 1. unfold Psbt.psbt_qr.
    cbn [Psbt.with_psbt Psbt.psbt Psbt.base_encoding Psbt.ur_type Psbt.qr_format].
    rewrite Henc, Hur, Hqr.
    destruct (Psbt.recorded_encoding e qr_format); cbn in Hfields;
      injection Hfields as -> ->; reflexivity. }
  split; [exact Hqrp|].
  split; [rewrite Hs'; exact Hwallet|]. split; [rewrite Hs'; reflexivity|].
  intros Hbase Hcbor. rewrite Hqrp. cbn [fst].
  destruct (Psbt.recorded_encoding e qr_format); cbn.
  - apply Hcbor.
  - reflexivity.
  - rewrite list_byte_of_string_of_list_byte. apply Hbase.
Qed.

Lemma sign_then_psbt_qr_witness :
  Psbt.__init__ (H := Sample.collaborators) Sample.multisig_wallet
    (Psbt.InBytes (Sample.psbt_magic ++ [x03])) 1 = Ok Sample.multisig_signer
  /\ Psbt.sign (H := Sample.collaborators) Sample.multisig_signer
     = ((Psbt.with_psbt Sample.multisig_signer
       (Psbt.trimmed
          (fst (sign_with (Collaborators := Sample.collaborators)
                  (Psbt.psbt Sample.multisig_signer)
                  (Key.key_root (Psbt.wallet_key (Psbt.wallet Sample.multisig_signer))))))),
        Ok tt)
  /\ Psbt.psbt
       (Psbt.with_psbt Sample.multisig_signer
       (Psbt.trimmed
          (fst (sign_with (Collaborators := Sample.collaborators)
                  (Psbt.psbt Sample.multisig_signer)
                  (Key.key_root (Psbt.wallet_key (Psbt.wallet Sample.multisig_signer)))))))
     <> Psbt.psbt Sample.multisig_signer
  /\ exists e b0,
       Psbt.detected_encoding (H := Sample.collaborators)
         (Psbt.InBytes (Sample.psbt_magic ++ [x03])) = Some (e, b0)
       /\ Psbt.decode_payload (H := Sample.collaborators)
            (Psbt.recorded_encoding (H := Sample.collaborators) e 1)
            (fst (Psbt.psbt_qr (H := Sample.collaborators)
                    (Psbt.with_psbt Sample.multisig_signer
       (Psbt.trimmed
          (fst (sign_with (Collaborators := Sample.collaborators)
                  (Psbt.psbt Sample.multisig_signer)
                  (Key.key_root (Psbt.wallet_key (Psbt.wallet Sample.multisig_signer)))))))))
          = Some (PSBT_serialize (Collaborators := Sample.collaborators)
                    (Psbt.psbt
                       (Psbt.with_psbt Sample.multisig_signer
       (Psbt.trimmed
          (fst (sign_with (Collaborators := Sample.collaborators)
                  (Psbt.psbt Sample.multisig_signer)
                  (Key.key_root (Psbt.wallet_key (Psbt.wallet Sample.multisig_signer))))))))).
Proof.
  split; [exact sample_multisig_signer|]. split; [exact sample_sign|].
  split; [exact sample_signed_differs|].
  destruct (sign_then_psbt_qr (H := Sample.collaborators) Sample.multisig_wallet
              (Psbt.InBytes (Sample.psbt_magic ++ [x03])) 1 Sample.multisig_signer
              _ (Ok tt) sample_multisig_signer sample_sign)
    as (e & b0 & Hdet & _ & _ & _ & Hdecode).
  exists e, b0. split; [exact Hdet|].
  exact (Hdecode sample_base_round_trip sample_cbor_round_trip).
Defined.

(** ** psbt.py: [outputs] of an accepted signer *)

Lemma inputs_amount_ok (inputs : list Scope) (acc : Z) :
  Forall (fun inp => witness_utxo inp <> None) inputs ->
  for_each
    (fun inp_amount inp =>
       match witness_utxo inp with
       | Some utxo => Ok (inp_amount + value utxo)
       | None => Raise (AttributeError "'NoneType' object has no attribute 'value'")
       end) inputs acc
  = Ok (acc + Psbt.sum_input_values inputs).
Proof.
  intros Hall. revert acc. induction Hall as [|inp inputs Hinp _ IH]; intros acc.
  - cbn. f_equal. lia.
  - cbn [for_each]. unfold Psbt.sum_input_values. cbn [fold_right].
    fold (Psbt.sum_input_values inputs). unfold Psbt.utxo_value.
    destruct (witness_utxo inp) as [utxo|]; [|contradiction].
    cbn [bind]. rewrite IH. f_equal. lia.
Qed.

Lemma validate_inputs `{Collaborators} (self s : Psbt.PSBTSigner) :
  Psbt.validate self = Ok s ->
  exists xs pol,
    Psbt.xpubs self = Ok xs
    /\ Psbt.policy s = Some pol
    /\ psbt_inputs (Psbt.psbt self) <> []
    /\ Forall (fun inp => Psbt.input_policy xs inp = Ok pol) (psbt_inputs (Psbt.psbt self)).
Proof.
  intros Hv. pose proof Hv as Hv'. unfold Psbt.validate in Hv'.
  apply bind_ok in Hv' as (xs & Hxs & Hv').
  apply bind_ok in Hv' as (r & Hloop & Hv').
  apply inputs_loop_accepts in Hloop as [[Hnil ->]|(pol & Hne & -> & Hall)];
    [discriminate Hv'|].
  exists xs, pol. split; [exact Hxs|]. split; [|auto].
  rewrite (validate_with_policy self xs pol Hxs) in Hv
    by (apply inputs_loop_accepts; right; exists pol; auto).
  cbv zeta in Hv.
  destruct (_ && negb _) in Hv; [discriminate|].
  destruct (negb _ && _) in Hv; [discriminate|].
  destruct (_ && negb _) in Hv; [discriminate|]. now injection Hv as <-.
Qed.

(** For a signer that the constructor returned, the first loop of [outputs]
    does not fail: the PSBT has at least one input, every input has a
    witness UTXO, and the total is the sum of their values. *)
Theorem accepted_inputs_have_utxo `{Collaborators} (wallet : Psbt.Wallet)
    (psbt_data : Psbt.psbt_input) (qr_format : Z) (self : Psbt.PSBTSigner) :
  Psbt.__init__ wallet psbt_data qr_format = Ok self ->
  psbt_inputs (Psbt.psbt self) <> []
  /\ Forall (fun inp => witness_utxo inp <> None) (psbt_inputs (Psbt.psbt self))
  /\ Psbt.inputs_amount self
     = Ok (Psbt.sum_input_values (psbt_inputs (Psbt.psbt self))).
Proof.
  intros Hinit. unfold Psbt.__init__ in Hinit.
  apply bind_ok in Hinit as ([[p enc] ur] & _ & Hvalid).
  pose proof (validate_keeps _ _ Hvalid) as (Hpsbt & _).
  apply validate_inputs in Hvalid as (xs & pol & _ & _ & Hne & Hall).
  cbn [Psbt.psbt] in Hpsbt, Hne, Hall. rewrite Hpsbt.
  assert (Hutxo : Forall (fun inp => witness_utxo inp <> None) (psbt_inputs p)).
  { eapply Forall_impl; [|exact Hall]. intros inp Hinp. cbn beta in Hinp.
    unfold Psbt.input_policy in Hinp. destruct (witness_utxo inp); [discriminate|].
    discriminate Hinp. }
  split; [exact Hne|]. split; [exact Hutxo|].
  unfold Psbt.inputs_amount. rewrite Hpsbt, (inputs_amount_ok _ 0 Hutxo). reflexivity.
Qed.

Lemma accepted_inputs_have_utxo_witness :
  Psbt.__init__ (H := Sample.collaborators) Sample.multisig_wallet
    (Psbt.InBytes (Sample.psbt_magic ++ [x03])) 1 = Ok Sample.multisig_signer
  /\ Psbt.inputs_amount Sample.multisig_signer
     = Ok (Psbt.sum_input_values (psbt_inputs (Psbt.psbt Sample.multisig_signer)))
  /\ Psbt.sum_input_values (psbt_inputs (Psbt.psbt Sample.multisig_signer)) = 51000.
Proof.
  split; [exact sample_multisig_signer|]. split; [|reflexivity].
  exact (proj2 (proj2 (accepted_inputs_have_utxo (H := Sample.collaborators)
                         Sample.multisig_wallet
                         (Psbt.InBytes (Sample.psbt_magic ++ [x03])) 1
                         Sample.multisig_signer sample_multisig_signer))).
Defined.

Lemma map_result_length {A B : Type} (f : A -> result B) (l : list A) (ys : list B) :
  map_result f l = Ok ys -> List.length ys = List.length l.
Proof.
  revert ys. induction l as [|x l IH]; intros ys; cbn [map_result].
  - now intros [= <-].
  - intros Hm. apply bind_ok in Hm as (y & _ & Hm).
    apply bind_ok in Hm as (ys' & Hys' & Hm). injection Hm as <-.
    cbn [List.length]. now rewrite (IH ys' Hys').
Qed.

Lemma enumerate_length {A : Type} (l : list A) :
  List.length (enumerate l) = List.length l.
Proof.
  unfold enumerate, range, len.
  rewrite length_combine, length_map, length_seq, Nat2Z.id. apply Nat.min_id.
Qed.

Lemma list_messages_length `{Collaborators} (fmt : string) (l : list (string * Z))
    (ms : list string) :
  Psbt.list_messages fmt l = Ok ms -> List.length ms = List.length l.
Proof.
  unfold Psbt.list_messages. intros Hm. apply map_result_length in Hm.
  now rewrite Hm, enumerate_length.
Qed.

(** When [outputs] returns, it returns one summary message followed by one
    message per output scope of the PSBT: first the spends, then the
    self-transfers, then the change outputs, each numbered from 1 within its
    list. *)
Theorem outputs_message_count `{Collaborators} (self : Psbt.PSBTSigner)
    (messages : list string) :
  Psbt.outputs self = Ok messages ->
  List.length messages = S (List.length (psbt_outputs (Psbt.psbt self)))
  /\ exists st summary spend self_transfer change,
       Psbt.classify_outputs self = Ok st
       /\ messages = summary :: spend ++ self_transfer ++ change
       /\ Psbt.list_messages
            ("%d. Spend: " +s+ Psbt.newline +s+ Psbt.newline +s+ "%s"
             +s+ Psbt.newline +s+ Psbt.newline) (Psbt.spend_list st) = Ok spend
       /\ Psbt.list_messages
            ("%d. Self-transfer: " +s+ Psbt.newline +s+ Psbt.newline +s+ "%s"
             +s+ Psbt.newline +s+ Psbt.newline) (Psbt.self_transfer_list st)
          = Ok self_transfer
       /\ Psbt.list_messages
            ("%d. Change: " +s+ Psbt.newline +s+ Psbt.newline +s+ "%s"
             +s+ Psbt.newline +s+ Psbt.newline) (Psbt.change_list st) = Ok change
       /\ List.length spend = List.length (Psbt.spend_list st)
       /\ List.length self_transfer = List.length (Psbt.self_transfer_list st)
       /\ List.length change = List.length (Psbt.change_list st).
Proof.
  unfold Psbt.outputs. intros Hout.
  apply bind_ok in Hout as (inp_amount & _ & Hout).
  apply bind_ok in Hout as (a & _ & Hout).
  apply bind_ok in Hout as (b & _ & Hout).
  apply bind_ok in Hout as (st & Hst & Hout).
  apply bind_ok in Hout as (spend_str & _ & Hout).
  apply bind_ok in Hout as (self_str & _ & Hout).
  apply bind_ok in Hout as (fee_str & _ & Hout).
  apply bind_ok in Hout as (spend & Hspend & Hout).
  apply bind_ok in Hout as (self_transfer & Hself & Hout).
  apply bind_ok in Hout as (change & Hchange & Hout).
  injection Hout as <-.
  pose proof (list_messages_length _ _ _ Hspend) as Ls.
  pose proof (list_messages_length _ _ _ Hself) as Lt.
  pose proof (list_messages_length _ _ _ Hchange) as Lc.
  split.
  - pose proof Hst as Hcount. unfold Psbt.classify_outputs in Hcount.
    apply bind_ok in Hcount as (xs & _ & Hloop).
    unfold enumerate, range, len in Hloop. rewrite Nat2Z.id in Hloop.
    apply outputs_loop_accounts in Hloop as (_ & Hcount & _).
    unfold Psbt.classified_count in Hcount. cbn in Hcount.
    cbn [app List.length]. rewrite !length_app, Ls, Lt, Lc. lia.
  - exists st. eexists. exists spend, self_transfer, change.
    split; [exact Hst|]. split; [reflexivity|]. auto 10.
Qed.

Lemma sample_outputs_returns :
  exists messages,
    Psbt.outputs (H := Sample.collaborators) Sample.signer_change_first = Ok messages.
Proof.
  destruct (Psbt.outputs (H := Sample.collaborators) Sample.signer_change_first)
    as [ms|e] eqn:E; [eauto|].
  pose proof (proj1 sample_outputs_run) as Hrun. rewrite E in Hrun. discriminate.
Qed.

Lemma outputs_message_count_witness :
  exists messages,
    Psbt.outputs (H := Sample.collaborators) Sample.signer_change_first = Ok messages
    /\ List.length messages = 3%nat.
Proof.
  destruct sample_outputs_returns as (ms & Hms). exists ms. split; [exact Hms|].
  exact (proj1 (outputs_message_count (H := Sample.collaborators)
                  Sample.signer_change_first ms Hms)).
Defined.

(** ** psbt.py: which outputs are the wallet's own *)

Lemma rebuild_script_empty `{Collaborators} (self : Psbt.PSBTSigner) (pol : Psbt.Policy)
    (out : Scope) :
  Psbt.policy self = Some pol ->
  existsb (String.eqb (Psbt.policy_type pol)) ["p2wsh"; "p2sh-p2wsh"; "p2wpkh"; "p2sh-p2wpkh"]
  = false ->
  Psbt.rebuild_script self out = Ok {| data := [] |}.
Proof.
  intros Hpol Htype. unfold Psbt.rebuild_script. rewrite Hpol.
  cbn [existsb] in Htype. rewrite !orb_false_iff in Htype.
  destruct Htype as (-> & -> & -> & -> & _).
  destruct (str_contains "pkh" (Psbt.policy_type pol)); [|reflexivity].
  destruct (dict_values (bip32_derivations out)); reflexivity.
Qed.

Section NoScriptRebuilt.
Context `{Collaborators}.
Variable self : Psbt.PSBTSigner.
Variable pol : Psbt.Policy.
Variable xs : dict HDKey DerivationPath.
Hypothesis Hpol : Psbt.policy self = Some pol.
Hypothesis Htype :
  existsb (String.eqb (Psbt.policy_type pol)) ["p2wsh"; "p2sh-p2wsh"; "p2wpkh"; "p2sh-p2wpkh"]
  = false.
Hypothesis Hscripts :
  Forall (fun v => data (script_pubkey v) <> []) (vout (psbt_tx (Psbt.psbt self))).

Let only_spends (st : Psbt.outputs_locals) : Prop :=
  (Psbt.sc st = None \/ Psbt.sc st = Some {| data := [] |})
  /\ Psbt.self_transfer_list st = [] /\ Psbt.change_list st = []
  /\ Psbt.self_amount st = 0 /\ Psbt.change_amount st = 0.

Lemma outputs_step_only_spends (st st' : Psbt.outputs_locals) (i : Z) (out : Scope) :
  Psbt.outputs_step self xs st (i, out) = Ok st' ->
  only_spends st -> only_spends st'.
Proof.
  unfold Psbt.outputs_step. intros Hstep (Hsc & Hself & Hchange & Hsa & Hca).
  apply bind_ok in Hstep as (v & Hv & Hstep).
  apply bind_ok in Hstep as (out_policy & _ & Hstep).
  apply bind_ok in Hstep as (sc' & Hsc' & Hstep).
  apply bind_ok in Hstep as (sc_now & Hnow & Hstep).
  assert (Hin : In v (vout (psbt_tx (Psbt.psbt self)))).
  { unfold list_index in Hv. destruct (_ <? 0); [discriminate|].
    destruct (nth_error _ _) eqn:E; [|discriminate]. injection Hv as ->.
    eapply nth_error_In, E. }
  rewrite Forall_forall in Hscripts. specialize (Hscripts v Hin).
  assert (Hempty : sc' = Some {| data := [] |}).
  { destruct (Psbt.opt_policy_eqb (Some out_policy) (Psbt.policy self)).
    - rewrite (rebuild_script_empty self pol out Hpol Htype) in Hsc'.
      now injection Hsc' as <-.
    - injection Hsc' as <-. destruct Hsc as [Hnone|Hsome]; [|exact Hsome].
      rewrite Hnone in Hnow. discriminate. }
  subst sc'. injection Hnow as <-. cbn [data] in Hstep.
  destruct (data (script_pubkey v)) as [|x d]; [contradiction|].
  cbn [bytes_eqb list_eqb] in Hstep. injection Hstep as <-.
  unfold only_spends. cbn. auto.
Qed.

Lemma outputs_loop_only_spends (l : list (Z * Scope)) (st st' : Psbt.outputs_locals) :
  for_each (Psbt.outputs_step self xs) l st = Ok st' ->
  only_spends st -> only_spends st'.
Proof.
  revert st. induction l as [|[i out] l IH]; intros st; cbn [for_each].
  - now intros [= <-].
  - intros Hloop Hst. apply bind_ok in Hloop as (st1 & Hstep & Hloop).
    apply (IH st1 Hloop). exact (outputs_step_only_spends st st1 i out Hstep Hst).
Qed.

End NoScriptRebuilt.

(** For a wallet policy whose type is none of p2wsh, p2sh-p2wsh, p2wpkh and
    p2sh-p2wpkh (so for p2pkh and p2tr) no script is rebuilt for an output:
    when the classification returns, no output with a non-empty scriptPubKey
    is a self-transfer or a change, every output is listed as a spend, also
    one that pays to an address of the wallet. *)
Theorem outputs_without_rebuilt_script `{Collaborators} (self : Psbt.PSBTSigner)
    (pol : Psbt.Policy) (st : Psbt.outputs_locals) :
  Psbt.policy self = Some pol ->
  existsb (String.eqb (Psbt.policy_type pol)) ["p2wsh"; "p2sh-p2wsh"; "p2wpkh"; "p2sh-p2wpkh"]
  = false ->
  Forall (fun v => data (script_pubkey v) <> []) (vout (psbt_tx (Psbt.psbt self))) ->
  Psbt.classify_outputs self = Ok st ->
  Psbt.self_transfer_list st = []
  /\ Psbt.change_list st = []
  /\ List.length (Psbt.spend_list st) = List.length (psbt_outputs (Psbt.psbt self))
  /\ Psbt.self_amount st = 0 /\ Psbt.change_amount st = 0.
Proof.
  intros Hpol Htype Hscripts Hst. unfold Psbt.classify_outputs in Hst.
  apply bind_ok in Hst as (xs & _ & Hloop).
  pose proof (outputs_loop_only_spends self pol xs Hpol Htype Hscripts _ _ _ Hloop)
    as Honly.
  destruct Honly as (_ & Hself & Hchange & Hsa & Hca).
  { cbn. auto. }
  unfold enumerate, range, len in Hloop. rewrite Nat2Z.id in Hloop.
  apply outputs_loop_accounts in Hloop as (_ & Hcount & _).
  unfold Psbt.classified_count in Hcount. rewrite Hself, Hchange in Hcount.
  cbn in Hcount. split; [exact Hself|]. split; [exact Hchange|].
  split; [lia|]. auto.
Qed.

Lemma sample_legacy_classified :
  exists st,
    Psbt.classify_outputs (H := Sample.collaborators) Sample.legacy_signer = Ok st.
Proof.
  destruct (Psbt.classify_outputs (H := Sample.collaborators) Sample.legacy_signer)
    as [st|e] eqn:E; [eauto|].
  assert (Hrun : is_ok (Psbt.classify_outputs (H := Sample.collaborators)
                          Sample.legacy_signer) = true) by (vm_compute; reflexivity).
  rewrite E in Hrun. discriminate.
Qed.

Lemma sample_legacy_accepted :
  Psbt.validate (H := Sample.collaborators)
    (Psbt.parsed_signer Sample.single_wallet Sample.FORMAT_NONE
       (Psbt.psbt Sample.legacy_signer) None None)
  = Ok Sample.legacy_signer.
Proof. vm_compute. reflexivity. Qed.

(** The property at a legacy wallet whose transaction pays to the wallet's
    own address at the change path [m/44'/1'/0'/1/0]: the output is listed
    as a spend. *)
Lemma outputs_without_rebuilt_script_witness :
  Psbt.validate (H := Sample.collaborators)
    (Psbt.parsed_signer Sample.single_wallet Sample.FORMAT_NONE
       (Psbt.psbt Sample.legacy_signer) None None)
  = Ok Sample.legacy_signer
  /\ Psbt.policy Sample.legacy_signer = Some Sample.legacy_policy
  /\ Forall (fun v => data (script_pubkey v) <> [])
            (vout (psbt_tx (Psbt.psbt Sample.legacy_signer)))
  /\ exists st,
       Psbt.classify_outputs (H := Sample.collaborators) Sample.legacy_signer = Ok st
       /\ Psbt.self_transfer_list st = []
       /\ Psbt.change_list st = []
       /\ List.length (Psbt.spend_list st) = 1%nat.
Proof.
  assert (Hscripts : Forall (fun v => data (script_pubkey v) <> [])
                            (vout (psbt_tx (Psbt.psbt Sample.legacy_signer)))).
  { apply Forall_cons; [discriminate | apply Forall_nil]. }
  split; [exact sample_legacy_accepted|].
  split; [reflexivity|]. split; [exact Hscripts|].
  destruct sample_legacy_classified as (st & Hst). exists st. split; [exact Hst|].
  destruct (outputs_without_rebuilt_script (H := Sample.collaborators)
              Sample.legacy_signer Sample.legacy_policy st eq_refl eq_refl Hscripts Hst)
    as (Hself & Hchange & Hcount & _).
  split; [exact Hself|]. split; [exact Hchange | exact Hcount].
Defined.

(** For a p2wpkh wallet, an output of the wallet's policy whose first
    derivation is a five-level path [purpose/coin/account/change/index] is
    classified without error: it is the wallet's own exactly when the p2wpkh
    script of the key derived from the root at that path is its
    scriptPubKey, and then it is a change when the fourth index is 1 and a
    self-transfer otherwise; if not, it is a spend. *)
Theorem single_sig_change_detected `{Collaborators} (self : Psbt.PSBTSigner)
    (xs : dict HDKey DerivationPath) (st : Psbt.outputs_locals) (i : Z) (out : Scope)
    (v : TxOut) (pol : Psbt.Policy) (d0 : DerivationPath) (rest : list DerivationPath)
    (purpose coin account change index : Z) :
  Psbt.policy self = Some pol ->
  Psbt.policy_type pol = "p2wpkh" ->
  list_index (vout (psbt_tx (Psbt.psbt self))) i = Ok v ->
  Psbt.get_policy out (script_pubkey v) xs = Ok pol ->
  dict_values (bip32_derivations out) = d0 :: rest ->
  derivation d0 = [purpose; coin; account; change; index] ->
  let own :=
    bytes_eqb
      (data (p2wpkh (hd_derive (Key.key_root (Psbt.wallet_key (Psbt.wallet self)))
                       (PathList (derivation d0)))))
      (data (script_pubkey v)) in
  let entry :=
    (address (script_pubkey v) (Key.key_network (Psbt.wallet_key (Psbt.wallet self))),
     value v) in
  exists st',
    Psbt.outputs_step self xs st (i, out) = Ok st'
    /\ Psbt.spend_list st' = Psbt.spend_list st ++ (if own then [] else [entry])
    /\ Psbt.change_list st'
       = Psbt.change_list st ++ (if own && (change =? 1) then [entry] else [])
    /\ Psbt.self_transfer_list st'
       = Psbt.self_transfer_list st ++ (if own && negb (change =? 1) then [entry] else []).
Proof.
  intros Hpol Htype Hv Hget Hd Hder own entry.
  assert (Hsc : Psbt.rebuild_script self out
                = Ok (p2wpkh (hd_derive (Key.key_root (Psbt.wallet_key (Psbt.wallet self)))
                                (PathList (derivation d0))))).
  { unfold Psbt.rebuild_script. rewrite Hpol, Htype, Hd. reflexivity. }
  assert (Hchange : Psbt.is_change out = Ok (change =? 1)).
  { unfold Psbt.is_change. rewrite Hd, Hder. reflexivity. }
  unfold Psbt.outputs_step. rewrite Hv. cbn [bind]. rewrite Hget. cbn [bind].
  rewrite Hpol. cbn [Psbt.opt_policy_eqb option_eqb].
  rewrite (proj2 (policy_eqb_eq pol pol) eq_refl), Hsc. cbn [bind].
  fold own. fold entry. rewrite Hchange.
  destruct own; cbn [bind andb].
  - destruct (change =? 1); cbn [negb]; eexists; (split; [reflexivity|]); cbn;
      rewrite ?app_nil_r; auto.
  - eexists. split; [reflexivity|]. cbn. rewrite ?app_nil_r. auto.
Qed.

Lemma sample_change_policy :
  Psbt.get_policy (H := Sample.collaborators) Sample.change_scope
    (script_pubkey Sample.change_txout) []
  = Ok Sample.single_policy.
Proof. vm_compute. reflexivity. Qed.

Lemma single_sig_change_detected_witness :
  Psbt.get_policy (H := Sample.collaborators) Sample.change_scope
    (script_pubkey Sample.change_txout) []
  = Ok Sample.single_policy
  /\ exists st',
       Psbt.outputs_step (H := Sample.collaborators) Sample.signer_change_first []
         Psbt.outputs_locals_init (0, Sample.change_scope) = Ok st'
       /\ Psbt.spend_list st' = []
       /\ Psbt.change_list st'
          = [(address (Collaborators := Sample.collaborators)
                (script_pubkey Sample.change_txout) Sample.testnet, 39000)]
       /\ Psbt.self_transfer_list st' = [].
Proof.
  split; [exact sample_change_policy|].
  destruct (single_sig_change_detected (H := Sample.collaborators)
              Sample.signer_change_first [] Psbt.outputs_locals_init 0 Sample.change_scope
              Sample.change_txout Sample.single_policy
              (snd (Sample.derivation_of Sample.root1 Sample.change_path)) []
              (Sample.h 84) (Sample.h 1) (Sample.h 0) 1 0
              eq_refl eq_refl eq_refl sample_change_policy eq_refl eq_refl)
    as (st' & Hstep & Hspend & Hchange & Hself).
  exists st'. split; [exact Hstep|].
  assert (Hown : bytes_eqb
                   (data (p2wpkh (Collaborators := Sample.collaborators)
                            (hd_derive (Collaborators := Sample.collaborators)
                               (Key.key_root (Psbt.wallet_key
                                                (Psbt.wallet Sample.signer_change_first)))
                               (PathList (derivation
                                            (snd (Sample.derivation_of Sample.root1
                                                    Sample.change_path)))))))
                   (data (script_pubkey Sample.change_txout)) = true)
    by (vm_compute; reflexivity).
  rewrite Hown in Hspend, Hchange, Hself.
  split; [exact Hspend|]. split; [exact Hchange | exact Hself].
Defined.

(** ** psbt.py: when [sc] is unbound *)

Lemma get_cosigners_errors `{Collaborators} (pubkeys : list PubKey)
    (derivations : dict PubKey DerivationPath) (xpubs : dict HDKey DerivationPath)
    (e : exn) :
  Psbt.get_cosigners pubkeys derivations xpubs = Raise e ->
  e = ValueError "missing derivation" \/ e = ValueError "cannot get all cosigners"
  \/ e = Psbt.library_error.
Proof.
  intros He.
  destruct (get_cosigners_raises derivations xpubs pubkeys e He)
    as [(-> & _)|[(-> & _)|(-> & _)]]; auto.
Qed.

Lemma get_policy_errors `{Collaborators} (scope : Scope) (scriptpubkey : Script)
    (xpubs : dict HDKey DerivationPath) (e : exn) :
  Psbt.get_policy scope scriptpubkey xpubs = Raise e ->
  e <> UnboundLocalError "sc".
Proof.
  unfold Psbt.get_policy.
  match goal with
  | |- match ?ty with _ => _ end = _ -> _ => destruct ty as [st|]
  end; [|intros [= <-]; discriminate].
  destruct (str_contains "p2wsh" st); [|discriminate].
  destruct (witness_script scope) as [ws|]; [|discriminate].
  destruct (parse_multisig ws) as [[m pubkeys]|]; cbn [Psbt.lib_call bind];
    [|intros [= <-]; discriminate].
  destruct (Psbt.get_cosigners pubkeys (bip32_derivations scope) xpubs) as [cs|e0] eqn:E;
    cbn [bind]; [discriminate|].
  intros [= <-]. apply get_cosigners_errors in E as [-> | [-> | ->]]; discriminate.
Qed.

Lemma rebuild_script_errors `{Collaborators} (self : Psbt.PSBTSigner) (out : Scope)
    (e : exn) :
  Psbt.rebuild_script self out = Raise e -> e <> UnboundLocalError "sc".
Proof.
  unfold Psbt.rebuild_script. destruct (Psbt.policy self) as [p|];
    [|intros [= <-]; discriminate].
  destruct (String.eqb (Psbt.policy_type p) "p2wsh").
  { destruct (witness_script out); [discriminate | intros [= <-]; discriminate]. }
  destruct (String.eqb (Psbt.policy_type p) "p2sh-p2wsh").
  { destruct (witness_script out); [discriminate | intros [= <-]; discriminate]. }
  destruct (str_contains "pkh" (Psbt.policy_type p)); [|discriminate].
  destruct (dict_values (bip32_derivations out)); [discriminate|].
  destruct (String.eqb (Psbt.policy_type p) "p2wpkh"); [discriminate|].
  destruct (String.eqb (Psbt.policy_type p) "p2sh-p2wpkh"); discriminate.
Qed.

Lemma list_index_errors {A : Type} (l : list A) (i : Z) (e : exn) :
  list_index l i = Raise e -> e = IndexError "list index out of range".
Proof.
  unfold list_index. destruct (_ <? 0); [congruence|].
  destruct (nth_error _ _); congruence.
Qed.

Section BoundScript.
Context `{Collaborators}.
Variable self : Psbt.PSBTSigner.
Variable xs : dict HDKey DerivationPath.

(** A turn that returns leaves [sc] bound. *)
Lemma outputs_step_binds (st st' : Psbt.outputs_locals) (i_out : Z * Scope) :
  Psbt.outputs_step self xs st i_out = Ok st' -> Psbt.sc st' <> None.
Proof.
  destruct i_out as [i out]. unfold Psbt.outputs_step. intros Hstep.
  apply bind_ok in Hstep as (v & _ & Hstep).
  apply bind_ok in Hstep as (out_policy & _ & Hstep).
  apply bind_ok in Hstep as (sc' & _ & Hstep).
  apply bind_ok in Hstep as (script & Hnow & Hstep).
  destruct sc' as [s|]; [|discriminate Hnow].
  destruct (bytes_eqb _ _); [|injection Hstep as <-; discriminate].
  apply bind_ok in Hstep as (change & _ & Hstep).
  destruct change; injection Hstep as <-; discriminate.
Qed.

(** A turn raises [UnboundLocalError] exactly when [sc] is unbound and the
    policy of the output is not the shared one. *)
Lemma outputs_step_unbound (st : Psbt.outputs_locals) (i : Z) (out : Scope) :
  Psbt.outputs_step self xs st (i, out) = Raise (UnboundLocalError "sc")
  <-> Psbt.sc st = None
      /\ exists v out_policy,
           list_index (vout (psbt_tx (Psbt.psbt self))) i = Ok v
           /\ Psbt.get_policy out (script_pubkey v) xs = Ok out_policy
           /\ Psbt.policy self <> Some out_policy.
Proof.
  unfold Psbt.outputs_step.
  destruct (list_index (vout (psbt_tx (Psbt.psbt self))) i) as [v|e] eqn:Ev; cbn [bind].
  2: { split.
       - intros [= ->]. apply list_index_errors in Ev. discriminate.
       - intros (_ & v & p & Hv & _). discriminate. }
  destruct (Psbt.get_policy out (script_pubkey v) xs) as [out_policy|e] eqn:Ep; cbn [bind].
  2: { split.
       - intros [= ->]. apply get_policy_errors in Ep. contradiction.
       - intros (_ & v' & p & [= <-] & Hp & _). congruence. }
  destruct (Psbt.opt_policy_eqb (Some out_policy) (Psbt.policy self)) eqn:Eeq.
  - assert (Hsame : Psbt.policy self = Some out_policy).
    { destruct (Psbt.policy self) as [p|]; [|discriminate]. cbn in Eeq.
      apply policy_eqb_eq in Eeq. now subst. }
    split.
    + destruct (Psbt.rebuild_script self out) as [s|e] eqn:Er; cbn [bind].
      * destruct (bytes_eqb _ _); [|discriminate].
        destruct (Psbt.is_change out) as [c|e] eqn:Ec; cbn [bind].
        -- destruct c; discriminate.
        -- intros [= ->]. unfold Psbt.is_change in Ec.
           destruct (dict_values _); [discriminate|].
           destruct (list_index _ 3) eqn:El; [discriminate|].
           cbn [bind] in Ec. injection Ec as ->. apply list_index_errors in El. discriminate.
      * intros [= ->]. apply rebuild_script_errors in Er. contradiction.
    + intros (_ & v' & p & [= <-] & Hp & Hne). congruence.
  - cbn [bind].
    assert (Hother : Psbt.policy self <> Some out_policy).
    { intros Hsame. rewrite Hsame in Eeq. cbn in Eeq.
      rewrite (proj2 (policy_eqb_eq _ _) eq_refl) in Eeq. discriminate. }
    destruct (Psbt.sc st) as [s|]; cbn [bind].
    + split; [|intros (Hnone & _); discriminate].
      destruct (bytes_eqb _ _); [|discriminate].
      destruct (Psbt.is_change out) as [c|e] eqn:Ec; cbn [bind].
      * destruct c; discriminate.
      * intros [= ->]. unfold Psbt.is_change in Ec.
        destruct (dict_values _); [discriminate|].
        destruct (list_index _ 3) eqn:El; [discriminate|].
        cbn [bind] in Ec. injection Ec as ->. apply list_index_errors in El. discriminate.
    + split; [|reflexivity]. intros _. split; [reflexivity|]. exists v, out_policy. auto.
Qed.

Lemma outputs_loop_bound (l : list (Z * Scope)) (st : Psbt.outputs_locals) :
  Psbt.sc st <> None ->
  for_each (Psbt.outputs_step self xs) l st <> Raise (UnboundLocalError "sc").
Proof.
  revert st. induction l as [|[i out] l IH]; intros st Hsc; cbn [for_each]; [discriminate|].
  destruct (Psbt.outputs_step self xs st (i, out)) as [st1|e] eqn:E; cbn [bind].
  - apply IH. eapply outputs_step_binds, E.
  - intros [= ->]. apply outputs_step_unbound in E as (Hnone & _). contradiction.
Qed.

End BoundScript.

(** The classification loop of [outputs] raises [UnboundLocalError] for
    [sc] exactly when the xpubs are gathered, the policy of the first output
    is inferred and it is not the policy shared by the inputs: once a turn
    of the loop has returned, [sc] is bound for all later outputs. *)
Theorem unbound_sc_only_at_first_output `{Collaborators} (self : Psbt.PSBTSigner) :
  Psbt.classify_outputs self = Raise (UnboundLocalError "sc")
  <-> exists xs out outs v out_policy,
        Psbt.xpubs self = Ok xs
        /\ psbt_outputs (Psbt.psbt self) = out :: outs
        /\ list_index (vout (psbt_tx (Psbt.psbt self))) 0 = Ok v
        /\ Psbt.get_policy out (script_pubkey v) xs = Ok out_policy
        /\ Psbt.policy self <> Some out_policy.
Proof.
  unfold Psbt.classify_outputs.
  destruct (Psbt.xpubs self) as [xs|e] eqn:Exs; cbn [bind].
  2: { apply xpubs_only_error in Exs as (-> & _). split; [discriminate|].
       intros (xs & ? & ? & ? & ? & Hxs & _). discriminate. }
  destruct (psbt_outputs (Psbt.psbt self)) as [|out outs] eqn:Eouts.
  { cbn. split; [discriminate|]. intros (? & ? & ? & ? & ? & _ & Hnil & _). discriminate. }
  unfold enumerate, range, len. rewrite Nat2Z.id.
  cbn [List.length seq map combine for_each].
  change (Z.of_nat 0) with 0.
  destruct (Psbt.outputs_step self xs Psbt.outputs_locals_init (0, out)) as [st1|e] eqn:E;
    cbn [bind].
  - split.
    + intros Hloop. exfalso. revert Hloop. apply outputs_loop_bound.
      eapply outputs_step_binds, E.
    + intros (xs' & out' & outs' & v & p & [= <-] & [= <- <-] & Hv & Hp & Hne).
      assert (Hun : Psbt.outputs_step self xs Psbt.outputs_locals_init (0, out)
                    = Raise (UnboundLocalError "sc")).
      { apply outputs_step_unbound. split; [reflexivity|]. exists v, p. auto. }
      congruence.
  - split.
    + intros [= ->]. apply outputs_step_unbound in E as (_ & v & p & Hv & Hp & Hne).
      exists xs, out, outs, v, p. auto.
    + intros (xs' & out' & outs' & v & p & [= <-] & [= <- <-] & Hv & Hp & Hne).
      rewrite <- E. apply outputs_step_unbound. split; [reflexivity|]. exists v, p. auto.
Qed.


Lemma option_some_inj {A : Type} (x y : A) : Some x = Some y -> x = y.
Proof. now intros [= ->]. Qed.

Lemma sample_stale_step :
  exists st',
    Psbt.outputs_step (H := Sample.collaborators) Sample.signer_change_first []
      {| Psbt.sc := Some (script_pubkey Sample.change_txout);
         Psbt.self_transfer_list := []; Psbt.change_list := []; Psbt.spend_list := [];
         Psbt.self_amount := 0; Psbt.change_amount := 0; Psbt.spend_amount := 0 |}
      (1, Psbt.blank_scope) = Ok st'.
Proof.
  destruct (Psbt.outputs_step (H := Sample.collaborators) Sample.signer_change_first []
      {| Psbt.sc := Some (script_pubkey Sample.change_txout);
         Psbt.self_transfer_list := []; Psbt.change_list := []; Psbt.spend_list := [];
         Psbt.self_amount := 0; Psbt.change_amount := 0; Psbt.spend_amount := 0 |}
      (1, Psbt.blank_scope)) as [st'|e] eqn:E; [eauto|].
  assert (Hrun : is_ok (Psbt.outputs_step (H := Sample.collaborators)
                          Sample.signer_change_first []
      {| Psbt.sc := Some (script_pubkey Sample.change_txout);
         Psbt.self_transfer_list := []; Psbt.change_list := []; Psbt.spend_list := [];
         Psbt.self_amount := 0; Psbt.change_amount := 0; Psbt.spend_amount := 0 |}
      (1, Psbt.blank_scope)) = true) by (vm_compute; reflexivity).
  rewrite E in Hrun. discriminate.
Qed.

Lemma sample_second_vout :
  list_index (vout (psbt_tx (Psbt.psbt Sample.signer_change_first))) 1
  = Ok Sample.spend_txout.
Proof. reflexivity. Qed.

Lemma sample_scripts_differ :
  bytes_eqb (data (script_pubkey Sample.change_txout))
            (data (script_pubkey Sample.spend_txout)) = false.
Proof. vm_compute. reflexivity. Qed.

Lemma sample_other_policy :
  Psbt.policy Sample.signer_change_first
  <> Some {| Psbt.policy_type := "p2pkh"; Psbt.policy_m := None; Psbt.policy_n := None;
             Psbt.policy_cosigners := None |}.
Proof. cbn. intros [= Heq]. Qed.

(** The turn for the second output of the sample single-sig transaction, a
    payment to a p2pkh address, with [sc] bound to the script of the change
    output: the script compared is that one, and the output is a spend. *)
Lemma outputs_step_classes_witness :
  exists st',
    Psbt.outputs_step (H := Sample.collaborators) Sample.signer_change_first []
      {| Psbt.sc := Some (script_pubkey Sample.change_txout);
         Psbt.self_transfer_list := []; Psbt.change_list := []; Psbt.spend_list := [];
         Psbt.self_amount := 0; Psbt.change_amount := 0; Psbt.spend_amount := 0 |}
      (1, Psbt.blank_scope) = Ok st'
    /\ Psbt.sc st' = Some (script_pubkey Sample.change_txout)
    /\ List.length (Psbt.spend_list st') = 1%nat.
Proof.
  destruct sample_stale_step as (st' & Hstep). exists st'.
  split; [exact Hstep|].
  destruct (outputs_step_classes (H := Sample.collaborators) Sample.signer_change_first []
              _ st' 1 Psbt.blank_scope Sample.spend_txout _
              Hstep sample_second_vout sample_spend_first_policy)
    as (script & Hsc & _ & Hstale & Hspend).
  specialize (Hstale sample_other_policy).
  apply option_some_inj in Hstale. rename Hstale into Hscript.
  rewrite <- Hscript in Hsc, Hspend.
  split; [exact Hsc|].
  exact (proj1 Hspend sample_scripts_differ).
Defined.
